(** * Docs exporter: a shallow embedding of [export-docs.py]

    The development follows the source file top to bottom.  Python values
    are modelled as follows.

    - [str] is [string]; a character is a byte ([ascii]).  Ordering of
      strings is the byte-wise lexicographic order, which for UTF-8 text is
      the code point order Python uses.  The character classes [\w], [\s]
      and [\d] are given on ASCII text.
    - an exception is a value of [exn]; a call that may raise returns a
      [result].
    - a [dict] keeps insertion order: it is an association list whose keys
      are pairwise distinct, updated with [dict_set].
    - the regular expressions are values of [Re.regex], run by a
      backtracking matcher with the priorities of Python's [re] module. *)

From Stdlib Require Import List String Ascii Arith NArith ZArith Bool Lia.
From Stdlib Require Import Permutation Sorted DecimalString DecimalNat.
Import ListNotations.
Local Open Scope list_scope.
Local Open Scope string_scope.

Set Implicit Arguments.
Set Warnings "-register-all".

(** ** Exceptions *)

Inductive exn : Type :=
| ValueError
| AttributeError
| TypeError
| YAMLError.

Inductive result (A : Type) : Type :=
| Ok (a : A)
| Raise (e : exn).

Arguments Ok {A} a.
Arguments Raise {A} e.

Definition bind {A B : Type} (r : result A) (f : A -> result B) : result B :=
  match r with
  | Ok a => f a
  | Raise e => Raise e
  end.

Notation "x <- r ;; k" := (bind r (fun x => k))
  (at level 61, r at next level, right associativity).

(** ** Python strings *)

Module Py.

(** The line feed and the double quote, which string literals here do not
    hold. *)
Definition LF : ascii := ascii_of_nat 10.
Definition DQ : ascii := ascii_of_nat 34.
Definition newline : string := String LF EmptyString.
Definition dquote : string := String DQ EmptyString.

(** [len(s) == 0] *)
Definition is_empty (s : string) : bool :=
  match s with
  | EmptyString => true
  | String _ _ => false
  end.

(** [s[n:]] *)
Fixpoint drop (n : nat) (s : string) : string :=
  match n, s with
  | O, _ => s
  | S _, EmptyString => EmptyString
  | S n', String _ s' => drop n' s'
  end.

(** [s[:n]] *)
Fixpoint take (n : nat) (s : string) : string :=
  match n, s with
  | O, _ => EmptyString
  | S _, EmptyString => EmptyString
  | S n', String c s' => String c (take n' s')
  end.

(** [s.startswith(p)] returning the rest of [s] when it holds. *)
Fixpoint strip_prefix (p s : string) : option string :=
  match p, s with
  | EmptyString, _ => Some s
  | String _ _, EmptyString => None
  | String a p', String b s' =>
      if Ascii.eqb a b then strip_prefix p' s' else None
  end.

Definition startswith (s p : string) : bool :=
  match strip_prefix p s with
  | Some _ => true
  | None => false
  end.

(** [s.replace(old, new)]: the occurrences of [old] are replaced from left to
    right without overlap; [skip] counts the characters of the occurrence
    just replaced that are still to be passed over.  With an empty [old]
    Python puts [new] before every character and at the end. *)
Fixpoint replace_from (old new : string) (skip : nat) (s : string) : string :=
  match s with
  | EmptyString => EmptyString
  | String c s' =>
      match skip with
      | S n => replace_from old new n s'
      | O =>
          if startswith s old
          then new ++ replace_from old new (String.length old - 1) s'
          else String c (replace_from old new 0 s')
      end
  end.

Fixpoint intersperse (new s : string) : string :=
  match s with
  | EmptyString => new
  | String c s' => new ++ String c (intersperse new s')
  end.

Definition replace (old new s : string) : string :=
  if is_empty old then intersperse new s else replace_from old new 0 s.

(** [s.split(sep)] for a one-character separator: never an empty list. *)
Fixpoint split (sep : ascii) (s : string) : list string :=
  match s with
  | EmptyString => [EmptyString]
  | String c s' =>
      if Ascii.eqb c sep then EmptyString :: split sep s'
      else match split sep s' with
           | [] => [String c EmptyString]
           | w :: ws => String c w :: ws
           end
  end.

(** [sep.join(ws)] *)
Definition join (sep : string) (ws : list string) : string :=
  String.concat sep ws.

(** [s.count(c)] for a one-character [c]. *)
Fixpoint count (c : ascii) (s : string) : nat :=
  match s with
  | EmptyString => 0
  | String a s' => (if Ascii.eqb a c then 1 else 0) + count c s'
  end.

(** [s * n] *)
Fixpoint repeat_str (s : string) (n : nat) : string :=
  match n with
  | O => EmptyString
  | S n' => s ++ repeat_str s n'
  end.

(** [c.isspace()] on ASCII: tab, line feed, vertical tab, form feed,
    carriage return, the four separators 0x1c to 0x1f, and space.  Python
    counts some characters outside ASCII as whitespace too; a statement
    that depends on where whitespace ends says so in its hypotheses. *)
Definition isspace (c : ascii) : bool :=
  let n := nat_of_ascii c in
  ((9 <=? n)%nat && (n <=? 13)%nat) || ((28 <=? n)%nat && (n <=? 32)%nat).

Fixpoint lstrip (s : string) : string :=
  match s with
  | EmptyString => EmptyString
  | String c s' => if isspace c then lstrip s' else s
  end.

Fixpoint rstrip (s : string) : string :=
  match s with
  | EmptyString => EmptyString
  | String c s' =>
      match rstrip s' with
      | EmptyString => if isspace c then EmptyString else String c EmptyString
      | t => String c t
      end
  end.

(** [s.strip()] *)
Definition strip (s : string) : string := rstrip (lstrip s).

(** [str(n)] for a non-negative integer. *)
Definition str_of_nat (n : nat) : string :=
  NilZero.string_of_uint (Nat.to_uint n).

(** [html.escape(s)] with its default [quote=True], as the standard library
    writes it: five replacements, the ampersand first. *)
Definition html_escape (s : string) : string :=
  let s := replace "&" "&amp;" s in
  let s := replace "<" "&lt;" s in
  let s := replace ">" "&gt;" s in
  let s := replace dquote "&quot;" s in
  replace "'" "&#x27;" s.

(** [os.path.join(a, b)] of [posixpath]. *)
Definition endswith_sep (s : string) : bool :=
  match String.get (String.length s - 1) s with
  | Some c => Ascii.eqb c "/"
  | None => false
  end.

Definition path_join (a b : string) : string :=
  if startswith b "/" then b
  else if is_empty a || endswith_sep a then a ++ b
  else a ++ "/" ++ b.

(** [os.path.basename(p)] of [posixpath]: what follows the last slash. *)
Fixpoint basename (p : string) : string :=
  match p with
  | EmptyString => EmptyString
  | String c p' =>
      if (0 <? count "/" p)%nat then basename p' else p
  end.

End Py.

(** ** Regular expressions

    The fragment of Python's [re] syntax the program uses.  [rmatch] is a
    backtracking matcher in continuation-passing style: it tries the
    alternatives in the order Python does (the left branch of [|] first, a
    greedy repetition longest first, a lazy one shortest first) and returns
    the first overall success. *)

Module Re.

Inductive regex : Type :=
| Eps                                   (* the empty pattern *)
| Lit (l : string)                      (* literal text *)
| Cls (p : ascii -> bool)               (* one character of a class *)
| Seq (r1 r2 : regex)                   (* r1 r2 *)
| Alt (r1 r2 : regex)                   (* r1|r2 *)
| Rep (greedy : bool) (p : ascii -> bool)  (* class* and class*? *)
| Grp (n : nat) (r : regex).            (* capturing group number n *)

(** [r?], greedy. *)
Definition Opt (r : regex) : regex := Alt r Eps.
(** [class+] and [class+?]. *)
Definition Plus (greedy : bool) (p : ascii -> bool) : regex :=
  Seq (Cls p) (Rep greedy p).

(** The classes, on ASCII.  Python's [\d], [\w] and [\s] also hold
    characters outside ASCII, which are bytes from 128 on here and belong
    to no class. *)
Definition between (lo hi : nat) (c : ascii) : bool :=
  let n := nat_of_ascii c in (lo <=? n)%nat && (n <=? hi)%nat.
Definition digit (c : ascii) : bool := between 48 57 c.
Definition word (c : ascii) : bool :=
  digit c || between 65 90 c || between 97 122 c || Ascii.eqb c "_".
Definition space (c : ascii) : bool := Py.isspace c.
Definition any (_ : ascii) : bool := true.
Definition not_char (x : ascii) (c : ascii) : bool := negb (Ascii.eqb c x).
(** [.] without the DOTALL flag. *)
Definition dot (c : ascii) : bool := not_char Py.LF c.

(** Captured groups, the latest binding first. *)
Definition captures : Type := list (nat * string).

Fixpoint lookup (n : nat) (caps : captures) : option string :=
  match caps with
  | [] => None
  | (m, v) :: caps' => if Nat.eqb m n then Some v else lookup n caps'
  end.

(** What was consumed between the input [s] and its suffix [s']. *)
Definition consumed (s s' : string) : string :=
  Py.take (String.length s - String.length s') s.

Fixpoint rep {A : Type} (greedy : bool) (p : ascii -> bool) (s : string)
    (k : string -> option A) : option A :=
  match s with
  | EmptyString => k s
  | String c s' =>
      if p c then
        if greedy then
          match rep greedy p s' k with
          | Some a => Some a
          | None => k s
          end
        else
          match k s with
          | Some a => Some a
          | None => rep greedy p s' k
          end
      else k s
  end.

Fixpoint rmatch {A : Type} (r : regex) (s : string) (caps : captures)
    (k : string -> captures -> option A) : option A :=
  match r with
  | Eps => k s caps
  | Lit l =>
      match Py.strip_prefix l s with
      | Some s' => k s' caps
      | None => None
      end
  | Cls p =>
      match s with
      | String c s' => if p c then k s' caps else None
      | EmptyString => None
      end
  | Seq r1 r2 => rmatch r1 s caps (fun s' caps' => rmatch r2 s' caps' k)
  | Alt r1 r2 =>
      match rmatch r1 s caps k with
      | Some a => Some a
      | None => rmatch r2 s caps k
      end
  | Rep greedy p => rep greedy p s (fun s' => k s' caps)
  | Grp n r' =>
      rmatch r' s caps (fun s' caps' => k s' ((n, consumed s s') :: caps'))
  end.

(** A match object: [group(0)] and the numbered groups. *)
Record mtch : Type := Match { whole : string; groups : captures }.

(** [m.group(n)] for [n >= 1]; [None] when the group took no part. *)
Definition group (m : mtch) (n : nat) : option string := lookup n (groups m).

(** A match of [r] starting at the first character of [s]. *)
Definition match_at (r : regex) (s : string) : option mtch :=
  rmatch r s [] (fun s' caps => Some (Match (consumed s s') caps)).

(** The scan shared by [re.sub] and [re.findall]: the text is cut, from left
    to right, into the matches found and the characters between them.  After
    a match of [n] characters the next [n] characters are passed over; after
    an empty match the scan moves on by one character. *)
Inductive piece : Type :=
| Chr (c : ascii)
| Hit (m : mtch).

Fixpoint scan (r : regex) (skip : nat) (s : string) : list piece :=
  match skip with
  | S n =>
      match s with
      | EmptyString => []
      | String _ s' => scan r n s'
      end
  | O =>
      match match_at r s with
      | Some m =>
          Hit m ::
          match s with
          | EmptyString => []
          | String c s' =>
              match String.length (whole m) with
              | O => Chr c :: scan r 0 s'
              | S n => scan r n s'
              end
          end
      | None =>
          match s with
          | EmptyString => []
          | String c s' => Chr c :: scan r 0 s'
          end
      end
  end.

(** [re.sub(r, repl, s)] with a function [repl] of the match. *)
Fixpoint glue (repl : mtch -> string) (ps : list piece) : string :=
  match ps with
  | [] => EmptyString
  | Chr c :: ps' => String c (glue repl ps')
  | Hit m :: ps' => repl m ++ glue repl ps'
  end.

Definition sub (r : regex) (repl : mtch -> string) (s : string) : string :=
  glue repl (scan r 0 s).

(** [re.sub] with a [repl] that updates a state of type [S] at each call,
    the calls made from left to right. *)
Fixpoint glue_st {S : Type} (repl : S -> mtch -> S * string) (st : S)
    (ps : list piece) : S * string :=
  match ps with
  | [] => (st, EmptyString)
  | Chr c :: ps' =>
      let (st', out) := glue_st repl st ps' in (st', String c out)
  | Hit m :: ps' =>
      let (st1, text) := repl st m in
      let (st2, out) := glue_st repl st1 ps' in (st2, text ++ out)
  end.

Definition sub_st {S : Type} (r : regex) (repl : S -> mtch -> S * string)
    (st : S) (s : string) : S * string :=
  glue_st repl st (scan r 0 s).

(** [re.findall(r, s)] for a pattern with one group: the group of each
    match (the empty string for a group that took no part). *)
Fixpoint hits (ps : list piece) : list mtch :=
  match ps with
  | [] => []
  | Chr _ :: ps' => hits ps'
  | Hit m :: ps' => m :: hits ps'
  end.

Definition findall1 (r : regex) (s : string) : list string :=
  map (fun m => match group m 1 with Some g => g | None => EmptyString end)
      (hits (scan r 0 s)).

End Re.

(** * The program *)

(** ** Frontmatter values

    What [yaml.safe_load] returns: a scalar, a sequence, or a mapping with
    string keys in the order of the document.  [YOther] stands for the
    scalars that are neither of the named ones (floats, dates, binary data),
    with Python's truth value of the scalar. *)

Inductive yaml : Type :=
| YNull
| YBool (b : bool)
| YInt (z : Z)
| YStr (s : string)
| YOther (truth : bool)
| YSeq (items : list yaml)
| YMap (entries : list (string * yaml)).

(** ** Dictionaries *)

Section Dict.
Variable V : Type.

Definition dict : Type := list (string * V).

(** [d.get(k)] *)
Fixpoint dict_get (k : string) (d : dict) : option V :=
  match d with
  | [] => None
  | (k', v) :: d' => if String.eqb k' k then Some v else dict_get k d'
  end.

(** [d[k] = v]: an existing key keeps its place, a new one goes last. *)
Fixpoint dict_set (k : string) (v : V) (d : dict) : dict :=
  match d with
  | [] => [(k, v)]
  | (k', v') :: d' =>
      if String.eqb k' k then (k', v) :: d' else (k', v') :: dict_set k v d'
  end.

Definition dict_keys (d : dict) : list string := map fst d.
End Dict.

(** ** The configuration ([__main__]) and the world outside

    The globals [Change_img_url], [base_path] and [path_args], and what the
    program takes from its libraries, the clock and the file system. *)

Record Config : Type := {
  Change_img_url : bool;
  base_path : string;
  path_args : string;
}.

Definition main_config : Config :=
  {| Change_img_url := true;
     base_path := "https://nextjs.org/_next/image?url=";
     path_args := "&w=1920&q=75" |}.

Record World : Type := {
  config : Config;
  (** [open('styles.css').read()] *)
  styles_css : string;
  (** [open(file_path, 'r', encoding='utf8').read()] *)
  read_file : string -> string;
  (** [os.walk(root_dir)]: each directory with the files in it *)
  os_walk : string -> list (string * list string);
  (** [os.path.relpath(file_path, start)] *)
  relpath : string -> string -> string;
  (** [yaml.safe_load], which raises [yaml.YAMLError] on a text it cannot
      parse, and [ValueError] on some scalars it cannot build, a date
      that does not exist for one *)
  yaml_safe_load : string -> result yaml;
  (** [markdown.markdown(text, extensions=[...])] *)
  markdown : string -> string;
  (** [str(v)] of a value that is not a string, as an f-string formats it *)
  py_str : yaml -> string;
  (** [os.path.splitext(os.path.basename(file_path))[0].title()] *)
  stem_title : string -> string;
  (** [list(set(l))]: the distinct elements of [l] in the order the set
      iterates them *)
  set_iter : list string -> list string;
  (** [datetime.now().strftime('%Y-%m-%d')] *)
  today : string;
}.

(** Text of several lines, as a triple-quoted literal holds it. *)
Definition text (lines : list string) : string := Py.join Py.newline lines.

(** An HTML attribute: the name, the equals sign and the quoted value. *)
Definition attr (name value : string) : string :=
  name ++ "=" ++ Py.dquote ++ value ++ Py.dquote.

(** [m.group(n)] inside an f-string: [None] prints as its name. *)
Definition fmt_group (g : option string) : string :=
  match g with
  | Some v => v
  | None => "None"
  end.

(** Sequence of patterns. *)
Definition cat (rs : list Re.regex) : Re.regex := fold_right Re.Seq Re.Eps rs.

(** ** [process_image_paths] *)

(** [r'src(?:Light|Dark)=\x22(.*?)\x22'], writing [\x22] for the double
    quote of the source. *)
Definition image_pattern : Re.regex :=
  cat [Re.Lit "src"; Re.Alt (Re.Lit "Light") (Re.Lit "Dark");
       Re.Lit ("=" ++ Py.dquote); Re.Grp 1 (Re.Rep false Re.dot);
       Re.Lit Py.dquote].

Definition image_replace (C : Config) (m : Re.mtch) : string :=
  let relative_path := fmt_group (Re.group m 1) in
  let absolute_path := base_path C ++ relative_path ++ path_args C in
  attr "src" absolute_path.

Definition process_image_paths (C : Config) (md_content : string) : string :=
  Re.sub image_pattern (image_replace C) md_content.

(** ** [preprocess_code_blocks] *)

Definition fence : string := "```".

(** [r'```(\w+)?\s+filename=\x22([^\x22]+)\x22\s*(switcher)?\n(.*?)```']
    with the DOTALL flag, writing [\x22] for the double quote of the
    source. *)
Definition code_pattern : Re.regex :=
  cat [Re.Lit fence; Re.Opt (Re.Grp 1 (Re.Plus true Re.word));
       Re.Plus true Re.space; Re.Lit ("filename=" ++ Py.dquote);
       Re.Grp 2 (Re.Plus true (Re.not_char Py.DQ)); Re.Lit Py.dquote;
       Re.Rep true Re.space; Re.Opt (Re.Grp 3 (Re.Lit "switcher"));
       Re.Lit Py.newline; Re.Grp 4 (Re.Rep false Re.any); Re.Lit fence].

Definition code_header (filename language : string) : string :=
  if Py.is_empty language
  then "<div " ++ attr "class" "code-header" ++ "><i>" ++ filename
       ++ "</i></div>"
  else "<div " ++ attr "class" "code-header" ++ "><i>" ++ filename
       ++ " (" ++ language ++ ")</i></div>".

Definition code_replace (m : Re.mtch) : string :=
  let language :=
    match Re.group m 1 with
    | Some l => l
    | None => EmptyString
    end in
  let filename := fmt_group (Re.group m 2) in
  let code_block := fmt_group (Re.group m 4) in
  let header := code_header filename language in
  header ++ Py.newline ++ fence ++ language ++ Py.newline ++ code_block
    ++ Py.newline ++ fence.

Definition preprocess_code_blocks (md_content : string) : string :=
  Re.sub code_pattern code_replace md_content.

(** ** [safe_load_frontmatter]

    Python's [None] is [YNull]: the function returns it both for a document
    that is empty or null and for one that does not parse.  An exception
    other than [yaml.YAMLError] is not caught. *)

Definition safe_load_frontmatter (W : World) (frontmatter_content : string)
    : result yaml :=
  match yaml_safe_load W frontmatter_content with
  | Ok v => Ok v
  | Raise YAMLError => Ok YNull
  | Raise e => Raise e
  end.

(** ** [preprocess_mdx_content] *)

(** [r'<(/?\w+)>'] *)
Definition mdx_tag_pattern : Re.regex :=
  cat [Re.Lit "<";
       Re.Grp 1 (cat [Re.Opt (Re.Lit "/"); Re.Plus true Re.word]);
       Re.Lit ">"].

Definition preprocess_mdx_content (md_content : string) : string :=
  Re.sub mdx_tag_pattern (fun m => Py.html_escape (Re.whole m)) md_content.

(** ** [parse_frontmatter] *)

(** [lines.index(x, start)]: the first position from [start] on that holds
    [x]; [ValueError] when there is none. *)
Fixpoint index_from (x : string) (start : nat) (pos : nat) (lines : list string)
    : result nat :=
  match lines with
  | [] => Raise ValueError
  | l :: lines' =>
      if (start <=? pos)%nat && String.eqb l x then Ok pos
      else index_from x start (S pos) lines'
  end.

Definition parse_frontmatter (md_content : string)
    : result (option string * string) :=
  let lines := Py.split Py.LF md_content in
  if String.eqb (Py.strip (hd EmptyString lines)) "---" then
    end_of_frontmatter <- index_from "---" 1 0 lines ;;
    let frontmatter :=
      Py.join Py.newline (firstn (end_of_frontmatter - 1) (skipn 1 lines)) in
    let content := Py.join Py.newline (skipn (end_of_frontmatter + 1) lines) in
    Ok (Some frontmatter, content)
  else Ok (None, md_content).

(** ** [get_files_sorted] *)

(** [list.sort(key=...)] and [sorted(..., key=...)]: a stable sort, here by
    insertion.  An element goes before the first one that is not smaller. *)
Section Sort.
Variables (A K : Type) (ltb : K -> K -> bool) (key : A -> K).

Fixpoint insert_by (x : A) (l : list A) : list A :=
  match l with
  | [] => [x]
  | y :: l' => if ltb (key y) (key x) then y :: insert_by x l' else x :: l
  end.

Definition sort_by (l : list A) : list A := fold_right insert_by [] l.
End Sort.

Definition index_names : list string := ["index.mdx"; "index.md"].

Definition is_index (file : string) : bool :=
  existsb (String.eqb file) index_names.

Definition sort_key (root file : string) : string :=
  let modified_basename := if is_index file then "!!!" ++ file else file in
  Py.path_join root modified_basename.

Definition walk_entries (walk : list (string * list string))
    : list (string * string) :=
  flat_map (fun d => map (fun file => (Py.path_join (fst d) file,
                                       sort_key (fst d) file)) (snd d)) walk.

Definition get_files_sorted (W : World) (root_dir : string) : list string :=
  let all_files := walk_entries (os_walk W root_dir) in
  map fst (sort_by String.ltb snd all_files).

(** ** [preprocess_frontmatter] *)

(** [r'<[^>]+>'] *)
Definition html_tag_pattern : Re.regex :=
  cat [Re.Lit "<"; Re.Plus true (Re.not_char ">"); Re.Lit ">"].

Definition replace_tag (html_tags : dict string) (m : Re.mtch)
    : dict string * string :=
  let tag := Re.whole m in
  let placeholder := "HTML_TAG_" ++ Py.str_of_nat (List.length html_tags) in
  (dict_set placeholder tag html_tags, placeholder).

(** The pair is returned in the order of the source: the text, then the
    table. *)
Definition preprocess_frontmatter (frontmatter : string)
    : string * dict string :=
  let (html_tags, modified_frontmatter) :=
    Re.sub_st html_tag_pattern replace_tag [] frontmatter in
  (modified_frontmatter, html_tags).

(** ** [restore_html_tags] *)

Definition restore_value (html_tags : dict string) (value : string) : string :=
  let value :=
    fold_left (fun v pt => Py.replace (fst pt) (snd pt) v) html_tags value in
  Py.html_escape value.

Definition restore_entry (html_tags : dict string) (parsed : dict yaml)
    (item : string * yaml) : dict yaml :=
  match snd item with
  | YStr value =>
      dict_set (fst item) (YStr (restore_value html_tags value)) parsed
  | _ => parsed
  end.

Definition restore_html_tags (parsed_data : yaml) (html_tags : dict string)
    : yaml :=
  match parsed_data with
  | YMap entries => YMap (fold_left (restore_entry html_tags) entries entries)
  | _ => parsed_data
  end.

(** ** [process_files] *)

(** *** The numbering of the table of contents

    [numbering] is the list of counters, one per depth.  Assignment by index
    is [list_set]; the index is in range where the program assigns, since
    the [while] loop has grown the list first. *)

Fixpoint list_set {A : Type} (i : nat) (v : A) (l : list A) : list A :=
  match l, i with
  | [], _ => []
  | _ :: l', O => v :: l'
  | x :: l', S i' => x :: list_set i' v l'
  end.

(** [while len(numbering) <= depth: numbering.append(0)], with the number of
    rounds the loop makes. *)
Fixpoint append_zeros (rounds : nat) (numbering : list nat) : list nat :=
  match rounds with
  | O => numbering
  | S r => append_zeros r (numbering ++ [0])%list
  end.

Definition toc_grow (numbering : list nat) (depth : nat) : list nat :=
  append_zeros (S depth - List.length numbering) numbering.

(** [numbering[depth] += 1] *)
Definition toc_bump (numbering : list nat) (depth : nat) : list nat :=
  list_set depth (nth depth numbering 0 + 1) numbering.

(** [for i in range(depth + 1, len(numbering)): numbering[i] = 0] *)
Definition toc_reset (numbering : list nat) (depth : nat) : list nat :=
  fold_left (fun l i => list_set i 0 l)
            (seq (depth + 1) (List.length numbering - (depth + 1))) numbering.

(** ['.'.join(map(str, numbering[:depth + 1]))] *)
Definition toc_numbering (numbering : list nat) (depth : nat) : string :=
  Py.join "." (map Py.str_of_nat (firstn (depth + 1) numbering)).

(** The counters after a document at [depth], and its number. *)
Definition toc_visit (numbering : list nat) (depth : nat)
    : list nat * string :=
  let numbering := toc_grow numbering depth in
  let numbering := toc_bump numbering depth in
  let numbering := toc_reset numbering depth in
  (numbering, toc_numbering numbering depth).

(** The numbers given to a run of documents, the counters starting as
    [[0]]. *)
Fixpoint toc_run (numbering : list nat) (depths : list nat) : list string :=
  match depths with
  | [] => []
  | d :: depths' =>
      let (numbering', num) := toc_visit numbering d in
      num :: toc_run numbering' depths'
  end.

(** *** Reading the parsed frontmatter *)

(** The truth value of a Python object. *)
Definition truthy (v : yaml) : bool :=
  match v with
  | YNull => false
  | YBool b => b
  | YInt z => negb (Z.eqb z 0)
  | YStr s => negb (Py.is_empty s)
  | YOther t => t
  | YSeq items => match items with [] => false | _ => true end
  | YMap entries => match entries with [] => false | _ => true end
  end.

(** [data.get(key, default)]: only a [dict] has the method. *)
Definition yaml_get (data : yaml) (key : string) (default : yaml)
    : result yaml :=
  match data with
  | YMap entries =>
      match dict_get key entries with
      | Some v => Ok v
      | None => Ok default
      end
  | _ => Raise AttributeError
  end.

(** A value inside an f-string. *)
Definition fmt (W : World) (v : yaml) : string :=
  match v with
  | YStr s => s
  | _ => py_str W v
  end.

(** [for link in v]: the items of a list, the characters of a string, the
    keys of a dict; anything else is not iterable. *)
Fixpoint chars (s : string) : list yaml :=
  match s with
  | EmptyString => []
  | String c s' => YStr (String c EmptyString) :: chars s'
  end.

Definition iterate (v : yaml) : result (list yaml) :=
  match v with
  | YSeq items => Ok items
  | YStr s => Ok (chars s)
  | YMap entries => Ok (map (fun e => YStr (fst e)) entries)
  | _ => Raise TypeError
  end.

Definition spaces (n : nat) : string := Py.repeat_str " " n.
Definition backslash : string := String (ascii_of_nat 92) EmptyString.

Definition html_header (W : World) : string :=
  text [""; spaces 4 ++ "<html>"; spaces 4 ++ "<head>";
        spaces 8 ++ "<style>"; spaces 12 ++ styles_css W;
        spaces 8 ++ "</style>"; spaces 4 ++ "</head>";
        spaces 4 ++ "<body>"; spaces 4].

(** The block of the [related] mapping. *)
Definition related_block (W : World) (data : yaml) : result string :=
  related <- yaml_get data "related" (YMap []) ;;
  if truthy related then
    title <- yaml_get related "title" (YStr "Related") ;;
    description <-
      yaml_get related "description" (YStr "No related description") ;;
    links <- yaml_get related "links" (YSeq []) ;;
    items <- iterate links ;;
    Ok (text
      [""; spaces 24 ++ "<div " ++ attr "style" "margin-left:20px;" ++ ">";
       spaces 28 ++ "<p><strong>Related:</strong></p>";
       spaces 28 ++ "<p><strong>Title:</strong> " ++ fmt W title ++ "</p>";
       spaces 28 ++ "<p><strong>Related Description:</strong> "
         ++ fmt W description ++ "</p>";
       spaces 28 ++ "<p><strong>Links:</strong></p>";
       spaces 24 ++ "<ul>";
       spaces 28
         ++ Py.join "" (map (fun link => "<li>" ++ fmt W link ++ "</li>")
                            items);
       spaces 24 ++ "</ul>"; spaces 24 ++ "</div>"; spaces 24])
  else Ok EmptyString.

(** What the loop carries from one file to the next. *)
Record state : Type := {
  toc : string;
  html_all_pages_content : string;
  numbering : list nat;
}.

(** The depth of a document: the separators of its relative path, one less
    for an index file below the root. *)
Definition doc_depth (W : World) (file_path repo_dir docs_dir : string) : nat :=
  let rel_path := relpath W file_path (Py.path_join repo_dir docs_dir) in
  let depth := Py.count "/" rel_path in
  let file_basename := Py.basename file_path in
  if Py.startswith file_basename "index." && (0 <? depth)%nat
  then depth - 1 else depth.

(** The branch of a document whose frontmatter parsed: the entry of the
    table of contents, the counters, and the heading block. *)
Definition heading (W : World) (st : state) (data : yaml)
    (file_path repo_dir docs_dir : string)
    : result (string * list nat * string) :=
  let depth := doc_depth W file_path repo_dir docs_dir in
  let indent := Py.repeat_str "&nbsp;" (5 * depth) in
  let (numbering, toc_numbering) := toc_visit (numbering st) depth in
  toc_title <- yaml_get data "title" (YStr (stem_title W file_path)) ;;
  let toc_full_title := toc_numbering ++ " - " ++ fmt W toc_title in
  let toc :=
    toc st ++ indent ++ "<a href='#" ++ toc_full_title ++ "'>"
      ++ toc_full_title ++ "</a><br/>" in
  let doc_path :=
    Py.replace (repo_dir ++ "/" ++ docs_dir) ""
      (Py.replace ".mdx" "" (Py.replace backslash "/" file_path)) in
  description <- yaml_get data "description" (YStr "No description") ;;
  let html_page_content :=
    text [""; spaces 20 ++ "<h1>" ++ toc_full_title ++ "</h1>";
          spaces 20 ++ "<div " ++ attr "class" "doc-path"
            ++ "><p>Documentation path: " ++ doc_path ++ "</p></div>";
          spaces 20 ++ "<p><strong>Description:</strong> "
            ++ fmt W description ++ "</p>";
          spaces 20] in
  related <- related_block W data ;;
  Ok (toc, numbering, html_page_content ++ related ++ "</br>").

Definition page_break : string :=
  "<div " ++ attr "class" "page-break" ++ "></div>".

(** The text that reaches [parse_frontmatter]. *)
Definition rewrite_content (C : Config) (md_content : string) : string :=
  let md_content :=
    if Change_img_url C then process_image_paths C md_content
    else md_content in
  preprocess_code_blocks md_content.

(** The frontmatter of a document as the loop reads it: placeholders, the
    parser, and the restoration when the parser returned a value. *)
Definition frontmatter_data (W : World) (frontmatter : string) : result yaml :=
  let (frontmatter, html_tags) := preprocess_frontmatter frontmatter in
  data <- safe_load_frontmatter W frontmatter ;;
  match data with
  | YNull => Ok YNull
  | _ => Ok (restore_html_tags data html_tags)
  end.

(** One round of the loop over [enumerate(files)]; [last] says whether
    [index < len(files) - 1] fails. *)
Definition process_file (W : World) (repo_dir docs_dir : string)
    (last : bool) (st : state) (file_path : string) : result state :=
  let md_content := rewrite_content (config W) (read_file W file_path) in
  parsed <- parse_frontmatter md_content ;;
  let (frontmatter, md_content) := (parsed : option string * string) in
  branch <-
    match frontmatter with
    | Some frontmatter =>
        if negb (Py.is_empty frontmatter) then
          data <- frontmatter_data W frontmatter ;;
          match data with
          | YNull => Ok (toc st, numbering st, EmptyString)
          | _ => heading W st data file_path repo_dir docs_dir
          end
        else Ok (toc st, numbering st, EmptyString)
    | None => Ok (toc st, numbering st, EmptyString)
    end ;;
  let '(toc, numbering, html_page_content) :=
    (branch : string * list nat * string) in
  let html_page_content := html_page_content ++ markdown W md_content in
  let html_all := html_all_pages_content st ++ html_page_content in
  let html_all := if last then html_all else html_all ++ page_break in
  Ok {| toc := toc; html_all_pages_content := html_all;
        numbering := numbering |}.

Fixpoint process_loop (W : World) (repo_dir docs_dir : string) (st : state)
    (files : list string) : result state :=
  match files with
  | [] => Ok st
  | file_path :: files' =>
      st' <- process_file W repo_dir docs_dir
               (match files' with [] => true | _ => false end) st file_path ;;
      process_loop W repo_dir docs_dir st' files'
  end.

Definition initial_state : state :=
  {| toc := EmptyString; html_all_pages_content := EmptyString;
     numbering := [0] |}.

Definition toc_block (toc : string) : string :=
  "<div " ++ attr "style" "padding-bottom: 10px" ++ "><div "
    ++ attr "style" "padding-bottom: 20px"
    ++ "><h1>Table of Contents</h1></div>" ++ toc ++ "</div><div "
    ++ attr "style" "page-break-before: always;" ++ ">".

Definition process_files (W : World) (files : list string)
    (repo_dir docs_dir : string) : result (string * string * string) :=
  st <- process_loop W repo_dir docs_dir initial_state files ;;
  let toc_html := toc_block (toc st) in
  let html_all_content := toc_html ++ html_all_pages_content st in
  let close := "</body></html>" in
  Ok (html_header W ++ html_all_content ++ close,
      html_header W ++ toc_html ++ close,
      html_header W ++ html_all_pages_content st ++ close).

(** ** [find_latest_version] *)

(** [r"v(\d+\.\d+\.\d+)"] *)
Definition version_pattern : Re.regex :=
  cat [Re.Lit "v";
       Re.Grp 1 (cat [Re.Plus true Re.digit; Re.Lit ".";
                      Re.Plus true Re.digit; Re.Lit ".";
                      Re.Plus true Re.digit])].

(** [int(s)] of a run of decimal digits. *)
Definition digit_value (c : ascii) : N := N.of_nat (nat_of_ascii c - 48).

Fixpoint int_of_digits (acc : N) (s : string) : N :=
  match s with
  | EmptyString => acc
  | String c s' => int_of_digits (acc * 10 + digit_value c) s'
  end.

(** [version.parse(v)] of [packaging] for a dotted run of numbers, as the
    key the library compares two such versions by: the release numbers
    without their trailing zeros.  (The other parts of the key, epoch and
    pre, post, dev and local segments, are the same for all of them.) *)
Fixpoint drop_zeros (l : list N) : list N :=
  match l with
  | [] => []
  | (0%N) :: l' => drop_zeros l'
  | _ => l
  end.

Definition release (v : string) : list N :=
  map (int_of_digits 0) (Py.split "." v).

Definition version_key (v : string) : list N :=
  rev (drop_zeros (rev (release v))).

(** [a < b] on tuples of integers: the first difference decides, and a
    proper prefix is smaller. *)
Fixpoint tuple_ltb (a b : list N) : bool :=
  match a, b with
  | _, [] => false
  | [], _ :: _ => true
  | x :: a', y :: b' =>
      if (x <? y)%N then true
      else if (y <? x)%N then false
      else tuple_ltb a' b'
  end.

(** [sorted(..., key=..., reverse=True)]: stable too, so an element goes
    before the first one that is not greater. *)
Definition sorted_reverse (l : list string) : list string :=
  sort_by (fun a b => tuple_ltb b a) version_key l.

(** [version.parse] raises on a token that is not made of ASCII digits.  The
    pattern is given on ASCII text, where every token found is a version;
    the statements about this function keep to texts in which no character
    outside ASCII stands where a digit is looked for. *)
Definition find_latest_version (W : World) (html_content : string)
    : option string :=
  let versions := Re.findall1 version_pattern html_content in
  let unique_versions := sorted_reverse (set_iter W versions) in
  match unique_versions with
  | v :: _ => Some v
  | [] => None
  end.

(** ** [__main__]: the title and the name of the output file *)

Definition title_and_filename (W : World) (html_all_content : string)
    : string * string :=
  match find_latest_version W html_all_content with
  | Some latest_version =>
      if negb (Py.is_empty latest_version) then
        ("Next.js Documentation v" ++ latest_version,
         "Next.js_Docs_v" ++ latest_version ++ "_" ++ today W ++ ".pdf")
      else ("Next.js Documentation", "Next.js_Documentation.pdf")
  | None => ("Next.js Documentation", "Next.js_Documentation.pdf")
  end.

Unset Implicit Arguments.

(** * The vocabulary of the statements, and the examples *)

(** ** Texts *)

(** [needle in s] *)
Fixpoint contains (needle s : string) : bool :=
  Py.startswith s needle ||
  match s with
  | EmptyString => false
  | String _ s' => contains needle s'
  end.

(** [all(p(c) for c in s)] *)
Fixpoint all_chars (p : ascii -> bool) (s : string) : bool :=
  match s with
  | EmptyString => true
  | String c s' => p c && all_chars p s'
  end.

(** The text that a function gives for each character, joined. *)
Fixpoint flat (f : ascii -> string) (s : string) : string :=
  match s with
  | EmptyString => EmptyString
  | String c s' => f c ++ flat f s'
  end.

(** [html.escape] character by character. *)
Definition escape_char (c : ascii) : string :=
  if Ascii.eqb c "&" then "&amp;"
  else if Ascii.eqb c "<" then "&lt;"
  else if Ascii.eqb c ">" then "&gt;"
  else if Ascii.eqb c Py.DQ then "&quot;"
  else if Ascii.eqb c "'" then "&#x27;"
  else String c EmptyString.

Definition not_lt (c : ascii) : bool := negb (Ascii.eqb c "<").

(** A numeral holds no dot. *)
Definition dotless (s : string) : Prop := Py.count "." s = 0.

(** The scan of a text in which no match starts. *)
Fixpoint chrs (s : string) : list Re.piece :=
  match s with
  | EmptyString => []
  | String c s' => Re.Chr c :: chrs s'
  end.

(** ** Matches *)

(** The first match of [r] on [s] leaves [s'] and the groups [caps'],
    whatever pattern follows, provided that pattern matches there. *)
Definition consumes (r : Re.regex) (s s' : string) (caps caps' : Re.captures)
    : Prop :=
  forall (A : Type) (k : string -> Re.captures -> option A) (a : A),
    k s' caps' = Some a -> Re.rmatch r s caps k = Some a.

(** Whether a repetition of the class [p] ends before [s]. *)
Definition stops (p : ascii -> bool) (s : string) : bool :=
  match s with
  | EmptyString => true
  | String c _ => negb (p c)
  end.

(** ** A world for the examples

    The configuration of [__main__], a tree given by its walk, files given
    by their text, and a parser given by its answers. *)

Definition sample_world (walk : list (string * list string))
    (read : string -> string) (load : string -> result yaml) : World :=
  {| config := main_config;
     styles_css := EmptyString;
     read_file := read;
     os_walk := fun _ => walk;
     relpath := fun p _ => p;
     yaml_safe_load := load;
     markdown := fun s => s;
     py_str := fun _ => EmptyString;
     stem_title := fun s => s;
     set_iter := nodup string_dec;
     today := "2024-01-01" |}.

Definition no_yaml (_ : string) : result yaml := Raise YAMLError.

Definition tree_world (walk : list (string * list string)) : World :=
  sample_world walk (fun _ => EmptyString) no_yaml.

(** ** Themed image attributes *)

(** A themed image attribute, [srcLight] or [srcDark]. *)
Definition theme_attr (dark : bool) (path : string) : string :=
  attr (if dark then "srcDark" else "srcLight") path.

(** The two openings of a themed attribute. *)
Definition light_head : string := "srcLight=" ++ Py.dquote.
Definition dark_head : string := "srcDark=" ++ Py.dquote.

(** A text as stretches of other text, each followed by a themed image
    attribute, and a last stretch. *)
Definition themed_item : Type := string * bool * string.

Fixpoint themed_text (items : list themed_item) (tail : string) : string :=
  match items with
  | [] => tail
  | (pre, dark, path) :: items' =>
      pre ++ theme_attr dark path ++ themed_text items' tail
  end.

(** The same text with every themed attribute turned into a [src] attribute
    on the absolute address. *)
Fixpoint absolute_text (C : Config) (items : list themed_item) (tail : string)
    : string :=
  match items with
  | [] => tail
  | (pre, dark, path) :: items' =>
      pre ++ attr "src" (base_path C ++ path ++ path_args C)
        ++ absolute_text C items' tail
  end.

(** A stretch of text that holds no opening of a themed attribute. *)
Definition unthemed (t : string) : bool :=
  negb (contains light_head t) && negb (contains dark_head t).

(** A path holds neither a double quote nor a line feed. *)
Definition path_char (c : ascii) : bool :=
  negb (Ascii.eqb c Py.DQ) && negb (Ascii.eqb c Py.LF).

Definition themed_ok (item : themed_item) : bool :=
  let '(pre, _, path) := item in unthemed pre && all_chars path_char path.

(** What may follow a stretch of other text: the end, or text that starts
    with the letter s, as a themed attribute does. *)
Definition opens_s (rest : string) : Prop :=
  rest = "" \/ exists r, rest = String "s" r.

(** The image proxy of the specification's example. *)
Definition proxy_config : Config :=
  {| Change_img_url := true; base_path := "https://h/i?u=";
     path_args := "&w=100" |}.

(** ** Code blocks *)

(** Whitespace other than the line feed. *)
Definition blank (c : ascii) : bool := Re.space c && negb (Ascii.eqb c Py.LF).

(** The first line of the code is not empty or blank, and is not the word
    switcher alone. *)
Fixpoint plain_start (code : string) : bool :=
  match code with
  | EmptyString => true
  | String c r =>
      if Re.space c then negb (Ascii.eqb c Py.LF) && plain_start r
      else negb (Py.startswith code ("switcher" ++ Py.newline))
  end.

(** An annotated code block, and what it is rewritten to. *)
Definition code_block (lang ws1 filename ws2 : string) (switcher : bool)
    (code : string) : string :=
  fence ++ lang ++ ws1 ++ ("filename=" ++ Py.dquote) ++ filename ++ Py.dquote
    ++ ws2 ++ (if switcher then "switcher" else "") ++ Py.newline ++ code
    ++ fence.

Definition rewritten_block (lang filename code : string) : string :=
  code_header filename lang ++ Py.newline ++ fence ++ lang ++ Py.newline
    ++ code ++ Py.newline ++ fence.

(** The pattern from the optional marker on, and from the code on. *)
Definition marker_pattern : Re.regex :=
  cat [Re.Opt (Re.Grp 3 (Re.Lit "switcher")); Re.Lit Py.newline;
       Re.Grp 4 (Re.Rep false Re.any); Re.Lit fence].

Definition body_pattern : Re.regex :=
  cat [Re.Grp 4 (Re.Rep false Re.any); Re.Lit fence].

Definition nonempty (s : string) : bool := negb (Py.is_empty s).

(** The parts of a block as the pattern reads them: a language of word
    characters, whitespace, a filename without a double quote, blanks up to
    the end of the line, and code whose first line is plain and in which no
    fence starts, the closing fence taken with it. *)
Definition block_ok (lang ws1 filename ws2 code : string) : bool :=
  nonempty lang && all_chars Re.word lang
  && nonempty ws1 && all_chars Re.space ws1
  && nonempty filename && all_chars (Re.not_char Py.DQ) filename
  && all_chars blank ws2
  && plain_start code && negb (contains fence (code ++ "``")).

(** The groups of the match of an annotated block. *)
Definition block_groups (lang filename code : string) (switcher : bool)
    : Re.captures :=
  ((4, code) :: (if switcher then [(3, "switcher")] else [])
     ++ [(2, filename); (1, lang)])%list.

(** The block of the specification's example. *)
Definition js_block : string :=
  text [fence ++ "js " ++ attr "filename" "a.js"; "console.log(1)"; fence].

(** A code block whose content starts with an empty line. *)
Definition blank_first_block : string :=
  text [fence ++ "js " ++ attr "filename" "a.js"; ""; "  code"; fence].

(** ** Tags *)

(** No match of the tag pattern of [preprocess_mdx_content] starts anywhere
    in [s]. *)
Fixpoint tag_free (s : string) : bool :=
  match Re.match_at mdx_tag_pattern s with
  | Some _ => false
  | None =>
      match s with
      | EmptyString => true
      | String _ s' => tag_free s'
      end
  end.

(** The tag pattern read off character by character: after the name, the
    closing bracket. *)
Fixpoint name_rest (t : string) : bool :=
  match t with
  | EmptyString => false
  | String c t' => if Re.word c then name_rest t' else Ascii.eqb c ">"
  end.

Definition name_run (t : string) : bool :=
  match t with
  | EmptyString => false
  | String c t' => Re.word c && name_rest t'
  end.

Definition is_tag (s : string) : bool :=
  match s with
  | EmptyString => false
  | String c t =>
      Ascii.eqb c "<" &&
      match t with
      | EmptyString => false
      | String d t' => if Ascii.eqb d "/" then name_run t' else name_run t
      end
  end.

(** The replacement of [preprocess_mdx_content] and its result from a
    position of the scan on. *)
Definition escape_match (m : Re.mtch) : string := Py.html_escape (Re.whole m).

Definition mdx_out (skip : nat) (s : string) : string :=
  Re.glue escape_match (Re.scan mdx_tag_pattern skip s).

Definition bold_text : string := "<b>bold</b>".

(** ** Frontmatter *)

(** A document whose frontmatter is opened and never closed. *)
Definition unclosed_doc : string :=
  text ["---"; "title: x"; ""].



(** What the description of [restore_html_tags] says of one entry: a string
    is restored and escaped, any other value is kept. *)
Definition restore_top (html_tags : dict string) (item : string * yaml)
    : string * yaml :=
  match snd item with
  | YStr value => (fst item, YStr (restore_value html_tags value))
  | v => (fst item, v)
  end.

(** A mapping with a nested [related] mapping. *)
Definition related_entries : dict yaml :=
  [("title", YStr "HTML_TAG_0 page");
   ("order", YInt 3);
   ("related", YMap [("title", YStr "HTML_TAG_0");
                     ("links", YSeq [YStr "a/HTML_TAG_0"; YStr "b"])])].

(** A frontmatter with eleven tags in one value, the value with its
    placeholders, and a world whose parser returns the mapping of that
    value. *)
Definition eleven_tags : string := "<a><b><c><d><e><f><g><h><i><j><k>".

Definition eleven_frontmatter : string :=
  "description: " ++ Py.dquote ++ eleven_tags ++ Py.dquote.

Definition eleven_placeholders : string :=
  "HTML_TAG_0HTML_TAG_1HTML_TAG_2HTML_TAG_3HTML_TAG_4HTML_TAG_5"
  ++ "HTML_TAG_6HTML_TAG_7HTML_TAG_8HTML_TAG_9HTML_TAG_10".

Definition eleven_parsed (value : string) : yaml :=
  YMap [("description", YStr value)].

Definition eleven_world : World :=
  sample_world [] (fun _ => EmptyString)
               (fun _ => Ok (eleven_parsed eleven_placeholders)).

(** ** The order of files *)

(** [x] stands before [y] in [l]. *)
Definition before {A : Type} (x y : A) (l : list A) : Prop :=
  exists l1 l2 l3, l = (l1 ++ x :: l2 ++ y :: l3)%list.

(** [x] is not after [y] in the order of the keys. *)
Definition not_after {A K : Type} (ltb : K -> K -> bool) (key : A -> K)
    (x y : A) : Prop :=
  ltb (key y) (key x) = false.

(** A file name that starts with a character after the exclamation mark,
    other than the slash. *)
Definition after_bang (name : string) : bool :=
  match name with
  | EmptyString => false
  | String c _ => Ascii.ltb "!" c && negb (Ascii.eqb c "/")
  end.

(** What [os.path.join] puts before the name of a file. *)
Definition join_prefix (a : string) : string :=
  if Py.is_empty a || Py.endswith_sep a then a else a ++ "/".

Definition docs_walk : list (string * list string) :=
  [("docs", ["b.md"; "index.mdx"; "a.md"]); ("docs/a", ["z.md"; "index.md"])].

(** ** The order of versions *)

(** Two versions compared number by number, a missing number counting as
    zero: [numeric_ltb a b] says that [a] is the lower one. *)
Fixpoint numeric_ltb (a b : list N) : bool :=
  match a with
  | [] => existsb (N.ltb 0) b
  | x :: a' =>
      match b with
      | [] => false
      | y :: b' =>
          if (x <? y)%N then true
          else if (y <? x)%N then false
          else numeric_ltb a' b'
      end
  end.

(** A list of numbers without its trailing zeros. *)
Fixpoint chop (l : list N) : list N :=
  match l with
  | [] => []
  | x :: l' =>
      match chop l' with
      | [] => if (x =? 0)%N then [] else [x]
      | t => x :: t
      end
  end.

Definition fallback_names : string * string :=
  ("Next.js Documentation", "Next.js_Documentation.pdf").

Definition three_versions : string := "v1.2.0 v1.10.0 v1.9.9".

Definition version_world : World :=
  sample_world [] (fun _ => EmptyString) no_yaml.

(** ** Themed attributes whose value spans lines *)

(** The opening of a themed attribute. *)
Definition theme_head (dark : bool) : string :=
  if dark then dark_head else light_head.

(** A text that ends in a double quote and holds no line feed, as the two
    openings do. *)
Fixpoint quote_ended (h : string) : bool :=
  match h with
  | EmptyString => false
  | String a EmptyString => Ascii.eqb a Py.DQ
  | String a h' => negb (Ascii.eqb a Py.LF) && quote_ended h'
  end.

(** A character other than the letter s. *)
Definition not_s (c : ascii) : bool := negb (Ascii.eqb c "s").

(** ** Code blocks without a language, fences without a filename *)

(** The opening of the filename attribute of an annotated code block. *)
Definition filename_head : string := "filename=" ++ Py.dquote.

(** A fenced block with a language and no filename attribute. *)
Definition plain_block : string :=
  text [fence ++ "js"; "console.log(1)"; fence; ""].

(** The parts of an annotated block that names no language: [block_ok]
    without the language. *)
Definition bare_block_ok (ws1 filename ws2 code : string) : bool :=
  nonempty ws1 && all_chars Re.space ws1
  && nonempty filename && all_chars (Re.not_char Py.DQ) filename
  && all_chars blank ws2
  && plain_start code && negb (contains fence (code ++ "``")).

(** The groups of its match: the first group takes no part. *)
Definition bare_groups (filename code : string) (switcher : bool)
    : Re.captures :=
  ((4, code) :: (if switcher then [(3, "switcher")] else [])
     ++ [(2, filename)])%list.

Definition bare_block : string :=
  text [fence ++ " " ++ attr "filename" "a.js" ++ " switcher";
        "console.log(1)"; fence].

(** ** The tags of [preprocess_mdx_content] *)

(** A tag as [preprocess_mdx_content] looks for it: a name of word
    characters in angle brackets, a slash before it in a closing tag; and
    the same tag escaped. *)
Definition slash (closing : bool) : string := if closing then "/" else "".

Definition mdx_tag (closing : bool) (name : string) : string :=
  "<" ++ slash closing ++ name ++ ">".

Definition escaped_tag (closing : bool) (name : string) : string :=
  "&lt;" ++ slash closing ++ name ++ "&gt;".

(** ** The lines of a document *)

(** A line holds no line feed. *)
Definition one_line (l : string) : bool := all_chars Re.dot l.

(** A line other than the closing delimiter of the frontmatter. *)
Definition not_delimiter (l : string) : bool := negb (String.eqb l "---").

(** The test that [parse_frontmatter] makes on the first line. *)
Definition starts_frontmatter (md_content : string) : bool :=
  String.eqb (Py.strip (hd EmptyString (Py.split Py.LF md_content))) "---".

(** A document whose frontmatter holds a line that is the delimiter followed
    by a space, and whose body holds the delimiter. *)
Definition closed_doc : string :=
  text ["--- "; "title: x"; "--- "; "---"; "Body"; "---"; ""].

(** ** Trees of files *)

(** The full paths of the files of a walk, in the order of the walk. *)
Definition walk_paths (walk : list (string * list string)) : list string :=
  flat_map (fun d => map (Py.path_join (fst d)) (snd d)) walk.

(** No file of the walk is an index document. *)
Definition no_index (walk : list (string * list string)) : bool :=
  forallb (fun d => forallb (fun file => negb (is_index file)) (snd d)) walk.

Definition plain_walk : list (string * list string) :=
  [("docs", ["b.md"; "a.md"]); ("docs/a", ["z.md"; "c.md"])].

(** The same directory as the file system may list it in two runs. *)
Definition listed_walk : list (string * list string) :=
  [("docs", ["b.md"; "index.mdx"])].

Definition relisted_walk : list (string * list string) :=
  [("docs", ["index.mdx"; "b.md"])].

(** ** The tags of the frontmatter and their placeholders *)

(** The placeholder number [i]. *)
Definition placeholder (i : nat) : string := "HTML_TAG_" ++ Py.str_of_nat i.

(** A tag as [preprocess_frontmatter] looks for it. *)
Definition html_tag (body : string) : string := "<" ++ body ++ ">".

(** A frontmatter as stretches of other text, each followed by a tag, and a
    last stretch; the same text with the tags, numbered from [n], replaced
    by their placeholders; and the table of these placeholders. *)
Definition tagged_item : Type := string * string.

Fixpoint tagged_text (items : list tagged_item) (tail : string) : string :=
  match items with
  | [] => tail
  | (pre, body) :: items' => pre ++ html_tag body ++ tagged_text items' tail
  end.

Fixpoint placeholder_text (n : nat) (items : list tagged_item)
    (tail : string) : string :=
  match items with
  | [] => tail
  | (pre, _) :: items' =>
      pre ++ placeholder n ++ placeholder_text (S n) items' tail
  end.

Fixpoint tag_table (n : nat) (items : list tagged_item) : dict string :=
  match items with
  | [] => []
  | (_, body) :: items' =>
      (placeholder n, html_tag body) :: tag_table (S n) items'
  end.

(** The stretch before a tag holds no opening bracket; the tag holds at
    least one character between its brackets, and no closing bracket. *)
Definition tagged_ok (item : tagged_item) : bool :=
  let (pre, body) := item in
  all_chars not_lt pre && nonempty body && all_chars (Re.not_char ">") body.

Definition link_frontmatter : string :=
  "title: Using <Link> and <Image>".

(** No match of the tag pattern of [preprocess_frontmatter] starts anywhere
    in [s]. *)
Fixpoint untagged (s : string) : bool :=
  match Re.match_at html_tag_pattern s with
  | Some _ => false
  | None =>
      match s with
      | EmptyString => true
      | String _ s' => untagged s'
      end
  end.

(** The text holds a closing bracket; and what follows the opening bracket
    of a tag: a character other than the closing bracket, and a closing
    bracket further on. *)
Fixpoint has_gt (s : string) : bool :=
  match s with
  | EmptyString => false
  | String c s' => Ascii.eqb c ">" || has_gt s'
  end.

Definition tag_follows (t : string) : bool :=
  match t with
  | EmptyString => false
  | String d r => negb (Ascii.eqb d ">") && has_gt r
  end.

(** The text that [preprocess_frontmatter] writes from a position of the
    scan on, the table being [table] there. *)
Definition frontmatter_out (table : dict string) (skip : nat) (s : string)
    : string :=
  snd (Re.glue_st replace_tag table (Re.scan html_tag_pattern skip s)).

(** A character other than the letter that every placeholder starts with,
    and an item that holds that letter nowhere. *)
Definition no_H (c : ascii) : bool := negb (Ascii.eqb c "H").

Definition plain_item (item : tagged_item) : bool :=
  let (pre, body) := item in all_chars no_H pre && all_chars no_H body.

(** The text of [items], numbered from [n], on the way from
    [placeholder_text] to [tagged_text]: the tags numbered below [k] stand
    in it, the others are placeholders still. *)
Fixpoint mixed_text (k n : nat) (items : list tagged_item) (tail : string)
    : string :=
  match items with
  | [] => tail
  | (pre, body) :: items' =>
      pre ++ (if (n <? k)%nat then html_tag body else placeholder n)
        ++ mixed_text k (S n) items' tail
  end.

(** ** Parsed values *)

(** A character that HTML does not read as markup: neither an angle bracket
    nor a quote. *)
Definition markup_free (c : ascii) : bool :=
  negb (Ascii.eqb c "<") && negb (Ascii.eqb c ">")
  && negb (Ascii.eqb c Py.DQ) && negb (Ascii.eqb c "'").

(** The entries of a mapping, and the string values at its top. *)
Definition yaml_entries (v : yaml) : dict yaml :=
  match v with
  | YMap entries => entries
  | _ => []
  end.

Fixpoint top_strings (entries : dict yaml) : list string :=
  match entries with
  | [] => []
  | (_, YStr s) :: entries' => s :: top_strings entries'
  | _ :: entries' => top_strings entries'
  end.

Definition quoted_entries : dict yaml :=
  [("title", YStr ("Tom's " ++ Py.dquote ++ "<b>" ++ Py.dquote));
   ("draft", YBool true)].

(** A value that is there and has no [get] method: what the parser returns
    for a frontmatter that is a scalar or a list. *)
Definition no_get (data : yaml) : bool :=
  match data with
  | YNull | YMap _ => false
  | _ => true
  end.

(** A value that [for link in ...] cannot go through. *)
Definition not_iterable (v : yaml) : bool :=
  match v with
  | YNull | YBool _ | YInt _ => true
  | _ => false
  end.

(** What is wrong with the value of [related], if anything: a value that is
    true and has no [get] method, or a mapping whose [links] cannot be gone
    through.  Strings are left aside: [restore_html_tags] rewrites them. *)
Definition related_fault (related : yaml) : option exn :=
  match related with
  | YMap rel =>
      match dict_get "links" rel with
      | Some links => if not_iterable links then Some TypeError else None
      | None => None
      end
  | YNull | YStr _ => None
  | v => if truthy v then Some AttributeError else None
  end.

(** ** Runs of [process_files] *)

(** The counters [a] come before the counters [b]: at the first depth where
    they differ, a missing counter counting as zero, [a] is smaller. *)
Definition counters_lt (a b : list nat) : Prop :=
  exists i, (forall j, j < i -> nth j a 0 = nth j b 0)
            /\ nth i a 0 < nth i b 0.

(** The text of a file as it reaches [parse_frontmatter]; a file whose
    first line does not hold the delimiter, so that no stripping of
    whitespace, whatever counts as whitespace, makes the delimiter of it;
    and the rendered pages of such files, with the page breaks between
    them. *)
Definition content_of (W : World) (file_path : string) : string :=
  rewrite_content (config W) (read_file W file_path).

Definition plain_document (W : World) (file_path : string) : bool :=
  negb (contains "---"
          (hd EmptyString (Py.split Py.LF (content_of W file_path)))).

Definition plain_pages (W : World) (files : list string) : string :=
  Py.join page_break (map (fun f => markdown W (content_of W f)) files).

Definition close_tags : string := "</body></html>".

(** The line of the table of contents and the heading block of a document,
    given its full title, the path that is shown for it and its
    description. *)
Definition toc_line (indent full_title : string) : string :=
  indent ++ "<a href='#" ++ full_title ++ "'>" ++ full_title ++ "</a><br/>".

Definition shown_path (file_path repo_dir docs_dir : string) : string :=
  Py.replace (repo_dir ++ "/" ++ docs_dir) ""
    (Py.replace ".mdx" "" (Py.replace backslash "/" file_path)).

Definition heading_block (full_title path description : string) : string :=
  text [""; spaces 20 ++ "<h1>" ++ full_title ++ "</h1>";
        spaces 20 ++ "<div " ++ attr "class" "doc-path"
          ++ "><p>Documentation path: " ++ path ++ "</p></div>";
        spaces 20 ++ "<p><strong>Description:</strong> " ++ description
          ++ "</p>";
        spaces 20]
  ++ "</br>".

(** A string value of the frontmatter as it is shown, restored and escaped,
    and what is shown when the key is missing. *)
Definition shown (html_tags : dict string) (value : option string)
    (default : string) : string :=
  match value with
  | Some s => restore_value html_tags s
  | None => default
  end.

(** A document with a title and no description. *)
Definition titled_doc : string :=
  text ["---"; "title: Using <Link>"; "---"; "Body"].

Definition titled_world : World :=
  sample_world [] (fun _ => titled_doc)
    (fun _ => Ok (YMap [("title", YStr "Using HTML_TAG_0")])).

(** Two documents without frontmatter. *)
Definition two_pages_world : World :=
  sample_world []
    (fun p => if String.eqb p "a.md" then "# A" else "# B") no_yaml.

(** A document whose frontmatter is a list. *)
Definition list_doc : string := text ["---"; "- a"; "- b"; "---"; "Body"].

Definition list_world : World :=
  sample_world [] (fun _ => list_doc)
               (fun _ => Ok (YSeq [YStr "a"; YStr "b"])).

(** A document whose [links] are left empty, which the parser reads as
    null. *)
Definition links_doc : string :=
  text ["---"; "title: T"; "related:"; "  links:"; "---"; "Body"].

Definition links_entries : dict yaml :=
  [("title", YStr "T"); ("related", YMap [("links", YNull)])].

Definition links_world : World :=
  sample_world [] (fun _ => links_doc) (fun _ => Ok (YMap links_entries)).

(** Documents whose frontmatter is never closed. *)
Definition unclosed_world : World :=
  sample_world [] (fun _ => unclosed_doc) no_yaml.

(** A document whose frontmatter holds a date that does not exist, on which
    the parser raises [ValueError]. *)
Definition date_doc : string :=
  text ["---"; "date: 2024-02-30"; "---"; "Body"].

Definition date_world : World :=
  sample_world [] (fun _ => date_doc) (fun _ => Raise ValueError).

(** ** Text outside ASCII

    The classes of the patterns are given on ASCII characters.  Python's
    classes also hold characters outside ASCII, a no-break space or an
    Arabic digit for instance, which UTF-8 writes as bytes from 128 on.
    The statements that depend on where a run of whitespace or of digits
    ends keep such characters away from that place. *)

Definition is_ascii (c : ascii) : bool := (nat_of_ascii c <? 128)%nat.

(** After the blanks that the code of a block starts with, if any, comes an
    ASCII character, or nothing. *)
Fixpoint ascii_start (code : string) : bool :=
  match code with
  | EmptyString => true
  | String c r => if blank c then ascii_start r else is_ascii c
  end.

(** A character of a version token: the letter v, a dot or a digit. *)
Definition token_char (c : ascii) : bool :=
  Ascii.eqb c "v" || Ascii.eqb c "." || Re.digit c.

(** No character outside ASCII directly follows a character of a version
    token: where the pattern looks for a digit, it finds an ASCII
    character. *)
Fixpoint ascii_digits (s : string) : bool :=
  match s with
  | EmptyString => true
  | String a s' =>
      match s' with
      | EmptyString => true
      | String b _ => (negb (token_char a) || is_ascii b) && ascii_digits s'
      end
  end.

(** * Proofs *)

(** ** Strings *)

Lemma append_nil_r (s : string) : s ++ "" = s.
Proof. induction s; simpl; congruence. Qed.

Lemma append_assoc (a b c : string) : (a ++ b) ++ c = a ++ (b ++ c).
Proof. induction a; simpl; congruence. Qed.

Lemma length_append (a b : string) :
  String.length (a ++ b) = String.length a + String.length b.
Proof. induction a; simpl; congruence. Qed.

(** ** Prefixes *)

Lemma strip_prefix_app (l s : string) : Py.strip_prefix l (l ++ s) = Some s.
Proof.
  induction l as [|c l IH]; simpl; [now destruct s|].
  now rewrite Ascii.eqb_refl.
Qed.

Lemma strip_prefix_inv (l s t : string) :
  Py.strip_prefix l s = Some t -> s = l ++ t.
Proof.
  revert s; induction l as [|c l IH]; intros s H; simpl in *.
  - destruct s; congruence.
  - destruct s as [|b s]; [discriminate|].
    destruct (Ascii.eqb_spec c b) as [->|]; [|discriminate].
    simpl. f_equal. now apply IH.
Qed.

Lemma strip_prefix_cat (a b s : string) :
  Py.strip_prefix (a ++ b) s =
  match Py.strip_prefix a s with
  | Some s1 => Py.strip_prefix b s1
  | None => None
  end.
Proof.
  revert s; induction a as [|c a IH]; intros s; simpl.
  - now destruct s.
  - destruct s as [|d s]; [now destruct b|].
    destruct (Ascii.eqb c d); auto.
Qed.

(** A prefix found in [v ++ rest] lies in [v], or [v] ends inside it. *)
Lemma strip_prefix_straddle (n v rest t : string) :
  Py.strip_prefix n (v ++ rest) = Some t ->
  (exists t', Py.strip_prefix n v = Some t')
  \/ (exists n2, n = v ++ n2 /\ n2 <> "" /\ Py.strip_prefix n2 rest = Some t).
Proof.
  revert v; induction n as [|a n IH]; intros v H.
  - left. exists v. now destruct v.
  - destruct v as [|b v].
    + right. exists (String a n). repeat split; [discriminate|exact H].
    + simpl in H |- *. destruct (Ascii.eqb_spec a b) as [->|]; [|discriminate].
      destruct (IH _ H) as [[t' Ht]|[n2 [-> [Hn Ht]]]].
      * left. now exists t'.
      * right. now exists n2.
Qed.

Lemma consumed_app (a b : string) : Re.consumed (a ++ b) b = a.
Proof.
  unfold Re.consumed. rewrite length_append.
  replace (String.length a + String.length b - String.length b)
    with (String.length a) by lia.
  induction a as [|c a IH]; simpl; [now destruct b|]. now rewrite IH.
Qed.

(** ** The matcher *)

(** A lazy repetition stops at the first place where the rest of the pattern
    matches. *)
Lemma rep_lazy_first {A : Type} (p : ascii -> bool) (w s : string)
    (k : string -> option A) (a : A) :
  all_chars p w = true ->
  (forall u v, w = u ++ v -> v <> "" -> k (v ++ s) = None) ->
  k s = Some a ->
  Re.rep false p (w ++ s) k = Some a.
Proof.
  intros Hp Hk Hs. induction w as [|c w IH].
  - simpl. destruct s as [|c s]; simpl; [assumption|].
    rewrite Hs. now destruct (p c).
  - simpl in Hp |- *. apply andb_prop in Hp as [Hc Hw]. rewrite Hc.
    assert (H0 : k (String c w ++ s) = None)
      by (apply (Hk "" (String c w)); [reflexivity|discriminate]).
    simpl in H0. rewrite H0.
    apply IH; [assumption|]. intros u v -> Hv.
    now apply (Hk (String c u) v).
Qed.

(** A greedy repetition that can take all of [w] and then lets the rest of
    the pattern match gives that match. *)
Lemma rep_greedy_all {A : Type} (p : ascii -> bool) (w s : string)
    (k : string -> option A) (a : A) :
  all_chars p w = true ->
  Re.rep true p s k = Some a ->
  Re.rep true p (w ++ s) k = Some a.
Proof.
  intros Hp Hs. induction w as [|c w IH]; [assumption|].
  simpl in Hp |- *. apply andb_prop in Hp as [Hc Hw]. rewrite Hc.
  now rewrite IH.
Qed.

Lemma rep_stop {A : Type} (g : bool) (p : ascii -> bool) (c : ascii)
    (s : string) (k : string -> option A) :
  p c = false -> Re.rep g p (String c s) k = k (String c s).
Proof. intros H. simpl. now rewrite H. Qed.

(** ** The scan *)

Lemma scan_skip (r : Re.regex) (w s : string) :
  Re.scan r (String.length w) (w ++ s) = Re.scan r 0 s.
Proof. induction w as [|c w IH]; simpl; auto. Qed.

Lemma scan_hit (r : Re.regex) (c : ascii) (w s : string) (m : Re.mtch) :
  Re.match_at r (String c w ++ s) = Some m ->
  Re.whole m = String c w ->
  Re.scan r 0 (String c w ++ s) = Re.Hit m :: Re.scan r 0 s.
Proof.
  intros Hm Hw. change (Re.scan r 0 (String c w ++ s))
    with (match Re.match_at r (String c w ++ s) with
          | Some m => Re.Hit m :: match String.length (Re.whole m) with
                                  | O => Re.Chr c :: Re.scan r 0 (w ++ s)
                                  | S n => Re.scan r n (w ++ s)
                                  end
          | None => Re.Chr c :: Re.scan r 0 (w ++ s)
          end).
  rewrite Hm, Hw. simpl. now rewrite scan_skip.
Qed.

Lemma scan_miss (r : Re.regex) (c : ascii) (s : string) :
  Re.match_at r (String c s) = None ->
  Re.scan r 0 (String c s) = Re.Chr c :: Re.scan r 0 s.
Proof. intros H. simpl. now rewrite H. Qed.

Lemma scan_end (r : Re.regex) :
  Re.match_at r "" = None -> Re.scan r 0 "" = [].
Proof. intros H. simpl. now rewrite H. Qed.

(** Where no match starts, the scan copies the text. *)
Lemma scan_misses (r : Re.regex) (w s : string) :
  (forall u v, w = u ++ v -> v <> "" -> Re.match_at r (v ++ s) = None) ->
  Re.scan r 0 (w ++ s) = (chrs w ++ Re.scan r 0 s)%list.
Proof.
  induction w as [|c w IH]; intros H; [reflexivity|].
  change (String c w ++ s) with (String c (w ++ s)).
  rewrite scan_miss.
  - simpl. f_equal. apply IH. intros u v -> Hv. now apply (H (String c u) v).
  - apply (H "" (String c w)); [reflexivity|discriminate].
Qed.

Lemma glue_app (repl : Re.mtch -> string) (ps qs : list Re.piece) :
  Re.glue repl (ps ++ qs) = Re.glue repl ps ++ Re.glue repl qs.
Proof.
  induction ps as [|[c|m] ps IH]; simpl; auto.
  - now rewrite IH.
  - now rewrite IH, append_assoc.
Qed.

Lemma glue_chrs (repl : Re.mtch -> string) (w : string) :
  Re.glue repl (chrs w) = w.
Proof. induction w as [|c w IH]; simpl; congruence. Qed.

(** ** [contains] *)

Lemma contains_suffix (n u v : string) :
  contains n (u ++ v) = false -> contains n v = false.
Proof.
  induction u as [|c u IH]; [auto|]. simpl. intros H.
  apply orb_false_elim in H as [_ H]. auto.
Qed.

Lemma contains_head (n s : string) :
  contains n s = false -> Py.startswith s n = false.
Proof. destruct s; simpl; intros H; now apply orb_false_elim in H. Qed.

(** ** What a match consumes *)

Lemma rep_run {A : Type} (g : bool) (p : ascii -> bool) (s : string)
    (k : string -> option A) (a : A) :
  Re.rep g p s k = Some a ->
  exists u s', s = u ++ s' /\ all_chars p u = true /\ k s' = Some a.
Proof.
  induction s as [|c s IH]; cbn [Re.rep]; intros H.
  - now exists "", "".
  - assert (Hk : k (String c s) = Some a ->
                 exists u s', String c s = u ++ s' /\ all_chars p u = true
                              /\ k s' = Some a)
      by (intros Hk; now exists "", (String c s)).
    destruct (p c) eqn:Hc; [|auto].
    assert (Hr : Re.rep g p s k = Some a ->
                 exists u s', String c s = u ++ s' /\ all_chars p u = true
                              /\ k s' = Some a).
    { intros Hr. destruct (IH Hr) as [u [s' [-> [Hu Hs]]]].
      exists (String c u), s'. cbn [all_chars]. now rewrite Hc. }
    destruct g.
    + destruct (Re.rep true p s k); [injection H as ->; auto|auto].
    + destruct (k (String c s)); [injection H as ->; auto|auto].
Qed.

Lemma rep_suffix {A : Type} (g : bool) (p : ascii -> bool) (s : string)
    (k : string -> option A) (a : A) :
  Re.rep g p s k = Some a -> exists u s', s = u ++ s' /\ k s' = Some a.
Proof.
  intros H. apply rep_run in H as [u [s' [E [_ H]]]]. now exists u, s'.
Qed.

(** A successful match hands a suffix of its input to the rest of the
    pattern. *)
Lemma rmatch_suffix {A : Type} (r : Re.regex) :
  forall (s : string) (caps : Re.captures)
         (k : string -> Re.captures -> option A) (a : A),
  Re.rmatch r s caps k = Some a ->
  exists u s' caps', s = u ++ s' /\ k s' caps' = Some a.
Proof.
  induction r as [|l|p|r1 IH1 r2 IH2|r1 IH1 r2 IH2|g p|n r IH];
    intros s caps k a H; cbn [Re.rmatch] in H.
  - now exists "", s, caps.
  - destruct (Py.strip_prefix l s) as [s'|] eqn:E; [|discriminate].
    apply strip_prefix_inv in E. now exists l, s', caps.
  - destruct s as [|c s]; [discriminate|]. destruct (p c); [|discriminate].
    now exists (String c ""), s, caps.
  - apply IH1 in H as [u [s1 [caps1 [-> H]]]].
    apply IH2 in H as [v [s2 [caps2 [-> H]]]].
    exists (u ++ v), s2, caps2. now rewrite append_assoc.
  - destruct (Re.rmatch r1 s caps k) eqn:E.
    + injection H as ->. now apply IH1 in E.
    + now apply IH2 in H.
  - apply rep_suffix in H as [u [s' [-> H]]]. now exists u, s', caps.
  - apply IH in H as [u [s' [caps' [-> H]]]]. eauto.
Qed.

Lemma match_at_whole (r : Re.regex) (s : string) (m : Re.mtch) :
  Re.match_at r s = Some m -> exists rest, s = Re.whole m ++ rest.
Proof.
  unfold Re.match_at. intros H.
  apply rmatch_suffix in H as [u [s' [caps' [-> H]]]].
  injection H as <-. exists s'. cbn [Re.whole]. now rewrite consumed_app.
Qed.

(** A pattern that opens with a literal matches only where the literal
    stands, and its match holds the literal. *)
Lemma match_at_lit (l : string) (r : Re.regex) (s : string) (m : Re.mtch) :
  Re.match_at (Re.Seq (Re.Lit l) r) s = Some m ->
  exists w rest, s = (l ++ w) ++ rest /\ Re.whole m = l ++ w.
Proof.
  unfold Re.match_at. cbn [Re.rmatch]. intros H.
  destruct (Py.strip_prefix l s) as [s1|] eqn:E; [|discriminate].
  apply strip_prefix_inv in E.
  apply rmatch_suffix in H as [u [s' [caps' [-> H]]]].
  injection H as <-. exists u, s'. subst s. cbn [Re.whole].
  rewrite <- append_assoc. split; [reflexivity|apply consumed_app].
Qed.

Lemma match_at_lit_miss (l : string) (r : Re.regex) (s : string) :
  Py.startswith s l = false -> Re.match_at (Re.Seq (Re.Lit l) r) s = None.
Proof.
  unfold Py.startswith, Re.match_at. cbn [Re.rmatch].
  now destruct (Py.strip_prefix l s).
Qed.

(** ** Building a match *)

Lemma consumes_eps (s : string) (caps : Re.captures) :
  consumes Re.Eps s s caps caps.
Proof. intros A k a H. exact H. Qed.

Lemma consumes_lit (l s : string) (caps : Re.captures) :
  consumes (Re.Lit l) (l ++ s) s caps caps.
Proof. intros A k a H. cbn [Re.rmatch]. now rewrite strip_prefix_app. Qed.

Lemma consumes_seq (r1 r2 : Re.regex) (s s1 s2 : string)
    (caps caps1 caps2 : Re.captures) :
  consumes r1 s s1 caps caps1 -> consumes r2 s1 s2 caps1 caps2 ->
  consumes (Re.Seq r1 r2) s s2 caps caps2.
Proof. intros H1 H2 A k a H. cbn [Re.rmatch]. apply H1. now apply H2. Qed.

Lemma consumes_grp (n : nat) (r : Re.regex) (u s' : string)
    (caps caps' : Re.captures) :
  consumes r (u ++ s') s' caps caps' ->
  consumes (Re.Grp n r) (u ++ s') s' caps ((n, u) :: caps').
Proof.
  intros H1 A k a H. cbn [Re.rmatch]. apply H1. now rewrite consumed_app.
Qed.

Lemma consumes_alt_l (r1 r2 : Re.regex) (s s' : string)
    (caps caps' : Re.captures) :
  consumes r1 s s' caps caps' -> consumes (Re.Alt r1 r2) s s' caps caps'.
Proof. intros H1 A k a H. cbn [Re.rmatch]. now rewrite (H1 A k a H). Qed.

Lemma consumes_alt_r (r1 r2 : Re.regex) (s s' : string)
    (caps caps' : Re.captures) :
  (forall (A : Type) (k : string -> Re.captures -> option A),
     Re.rmatch r1 s caps k = None) ->
  consumes r2 s s' caps caps' -> consumes (Re.Alt r1 r2) s s' caps caps'.
Proof.
  intros H1 H2 A k a H. cbn [Re.rmatch]. rewrite H1. now apply H2.
Qed.

Lemma rep_greedy_stop {A : Type} (p : ascii -> bool) (s : string)
    (k : string -> option A) :
  stops p s = true -> Re.rep true p s k = k s.
Proof.
  destruct s as [|c s]; [reflexivity|]. cbn [stops Re.rep].
  now destruct (p c).
Qed.

Lemma consumes_rep_greedy (p : ascii -> bool) (u s : string)
    (caps : Re.captures) :
  all_chars p u = true -> stops p s = true ->
  consumes (Re.Rep true p) (u ++ s) s caps caps.
Proof.
  intros Hu Hs A k a H. cbn [Re.rmatch]. apply rep_greedy_all; [assumption|].
  now rewrite rep_greedy_stop.
Qed.

Lemma consumes_plus_greedy (p : ascii -> bool) (u s : string)
    (caps : Re.captures) :
  nonempty u = true -> all_chars p u = true -> stops p s = true ->
  consumes (Re.Plus true p) (u ++ s) s caps caps.
Proof.
  intros Hn Hu Hs. destruct u as [|c u]; [discriminate|].
  cbn [all_chars] in Hu. apply andb_prop in Hu as [Hc Hu].
  intros A k a H. cbn [Re.Plus Re.rmatch append]. rewrite Hc.
  apply rep_greedy_all; [assumption|]. now rewrite rep_greedy_stop.
Qed.

Lemma lit_miss {A : Type} (l s : string) (caps : Re.captures)
    (k : string -> Re.captures -> option A) :
  Py.startswith s l = false -> Re.rmatch (Re.Lit l) s caps k = None.
Proof.
  unfold Py.startswith. cbn [Re.rmatch].
  now destruct (Py.strip_prefix l s).
Qed.

(** Where the rest of the pattern fails at every place a greedy repetition
    can stop, the repetition fails. *)
Lemma rep_greedy_none {A : Type} (p : ascii -> bool) (u s : string)
    (k : string -> option A) :
  stops p s = true ->
  (forall v w, u = v ++ w -> k (w ++ s) = None) ->
  Re.rep true p (u ++ s) k = None.
Proof.
  intros Hs. induction u as [|c u IH]; intros Hk.
  - cbn [append]. rewrite rep_greedy_stop by assumption.
    apply (Hk "" "" eq_refl).
  - cbn [append Re.rep]. rewrite IH.
    + destruct (p c); apply (Hk "" (String c u) eq_refl).
    + intros v w ->. apply (Hk (String c v) w eq_refl).
Qed.

(** ** [process_image_paths] *)

Lemma image_miss (s : string) :
  Py.startswith s light_head = false ->
  Py.startswith s dark_head = false ->
  Re.match_at image_pattern s = None.
Proof.
  unfold Py.startswith, Re.match_at, image_pattern. intros HL HD.
  change light_head with ("src" ++ "Light" ++ ("=" ++ Py.dquote)) in HL.
  change dark_head with ("src" ++ "Dark" ++ ("=" ++ Py.dquote)) in HD.
  rewrite strip_prefix_cat in HL, HD.
  cbn [cat fold_right Re.rmatch].
  destruct (Py.strip_prefix "src" s) as [s1|]; [|reflexivity].
  rewrite strip_prefix_cat in HL, HD.
  destruct (Py.strip_prefix "Light" s1) as [s2|].
  - destruct (Py.strip_prefix ("=" ++ Py.dquote) s2); [discriminate|].
    destruct (Py.strip_prefix "Dark" s1) as [s3|]; [|reflexivity].
    now destruct (Py.strip_prefix ("=" ++ Py.dquote) s3).
  - destruct (Py.strip_prefix "Dark" s1) as [s3|]; [|reflexivity].
    now destruct (Py.strip_prefix ("=" ++ Py.dquote) s3).
Qed.

Lemma path_char_dot (path : string) :
  all_chars path_char path = true -> all_chars Re.dot path = true.
Proof.
  induction path as [|c p IH]; cbn [all_chars]; auto.
  intros H. apply andb_prop in H as [H1 H2]. unfold path_char in H1.
  apply andb_prop in H1 as [_ H1].
  rewrite (IH H2), andb_true_r. exact H1.
Qed.

Lemma path_char_quote (u v rest : string) :
  all_chars path_char (u ++ v) = true -> v <> "" ->
  Py.strip_prefix Py.dquote (v ++ rest) = None.
Proof.
  intros H Hv. induction u as [|c u IH].
  - destruct v as [|c v]; [congruence|]. cbn [append all_chars] in H.
    apply andb_prop in H as [H _]. unfold path_char in H.
    apply andb_prop in H as [H _].
    change (Py.strip_prefix Py.dquote (String c v ++ rest))
      with (if Ascii.eqb Py.DQ c then Some (v ++ rest) else None).
    rewrite Ascii.eqb_sym. now destruct (Ascii.eqb c Py.DQ).
  - simpl in H. apply andb_prop in H as [_ H]. auto.
Qed.

Lemma image_hit (dark : bool) (path rest : string) :
  all_chars path_char path = true ->
  Re.match_at image_pattern (theme_attr dark path ++ rest)
  = Some (Re.Match (theme_attr dark path) [(1, path)]).
Proof.
  intros Hp. unfold Re.match_at, image_pattern.
  cbn [cat fold_right Re.rmatch].
  set (s := theme_attr dark path ++ rest).
  assert (Hs : s = "src" ++ (if dark then "Dark" else "Light")
                 ++ ("=" ++ Py.dquote) ++ path ++ Py.dquote ++ rest).
  { unfold s, theme_attr, attr. destruct dark; simpl;
      now rewrite !append_assoc. }
  assert (Hw : Re.consumed s rest = theme_attr dark path)
    by apply consumed_app.
  clearbody s. subst s.
  rewrite strip_prefix_app.
  assert (Hk : forall w,
    Py.strip_prefix ("=" ++ Py.dquote)
      (("=" ++ Py.dquote) ++ path ++ Py.dquote ++ rest) = Some w ->
    Re.rep false Re.dot w
      (fun s' => match Py.strip_prefix Py.dquote s' with
                 | Some s'0 => Some (Re.Match
                     (Re.consumed ("src" ++ (if dark then "Dark" else "Light")
                        ++ ("=" ++ Py.dquote) ++ path ++ Py.dquote ++ rest) s'0)
                     [(1, Re.consumed w s')])
                 | None => None
                 end)
    = Some (Re.Match (theme_attr dark path) [(1, path)])).
  { intros w Hw'. rewrite strip_prefix_app in Hw'. injection Hw' as <-.
    apply (rep_lazy_first Re.dot path (Py.dquote ++ rest)).
    - now apply path_char_dot.
    - intros u v -> Hv. cbv beta.
      now rewrite (path_char_quote u v (Py.dquote ++ rest) Hp Hv).
    - cbv beta. rewrite strip_prefix_app, Hw. do 2 f_equal.
      now rewrite consumed_app. }
  destruct dark.
  - change (Py.strip_prefix "Light"
              ("Dark" ++ ("=" ++ Py.dquote) ++ path ++ Py.dquote ++ rest))
      with (@None string).
    rewrite strip_prefix_app.
    specialize (Hk _ (strip_prefix_app _ _)).
    rewrite strip_prefix_app. exact Hk.
  - rewrite strip_prefix_app.
    specialize (Hk _ (strip_prefix_app _ _)).
    rewrite strip_prefix_app. cbv beta. rewrite Hk. reflexivity.
Qed.

Lemma opens_s_attr (dark : bool) (path rest : string) :
  opens_s (theme_attr dark path ++ rest).
Proof. right. destruct dark; eexists; reflexivity. Qed.

Ltac no_inner_s H v :=
  repeat (destruct v as [|? v];
          [ try congruence; try discriminate H
          | try discriminate H; injection H as ? H; subst ]).

Lemma head_straddle (head v rest : string) :
  (forall v' n2, head = String "s" v' ++ String "s" n2 -> False) ->
  (exists h, head = String "s" h) ->
  contains head v = false -> v <> "" -> opens_s rest ->
  Py.startswith (v ++ rest) head = false.
Proof.
  intros Hin [h Hh] Hc Hv Hr. unfold Py.startswith.
  destruct (Py.strip_prefix head (v ++ rest)) as [t|] eqn:E; [|reflexivity].
  exfalso. apply strip_prefix_straddle in E as [[t' E]|[n2 [E1 [E2 E3]]]].
  - apply contains_head in Hc. unfold Py.startswith in Hc.
    now rewrite E in Hc.
  - destruct Hr as [->|[r ->]].
    + destruct n2; [congruence|discriminate].
    + destruct n2 as [|a n2]; [congruence|]. simpl in E3.
      destruct (Ascii.eqb_spec a "s") as [->|]; [|discriminate].
      destruct v as [|c v]; [congruence|]. subst head.
      injection E1 as <- E1. subst h. now apply (Hin v n2).
Qed.

Lemma light_no_inner_s (v n2 : string) :
  light_head = String "s" v ++ String "s" n2 -> False.
Proof.
  unfold light_head. simpl. intros H. injection H as H.
  no_inner_s H v.
Qed.

Lemma dark_no_inner_s (v n2 : string) :
  dark_head = String "s" v ++ String "s" n2 -> False.
Proof.
  unfold dark_head. simpl. intros H. injection H as H.
  no_inner_s H v.
Qed.

Lemma unthemed_inv (t : string) :
  unthemed t = true ->
  contains light_head t = false /\ contains dark_head t = false.
Proof.
  unfold unthemed. intros H. apply andb_prop in H as [H1 H2].
  apply negb_true_iff in H1, H2. now split.
Qed.

(** A stretch without an opening is copied, whatever follows. *)
Lemma scan_unthemed (pre rest : string) :
  unthemed pre = true -> opens_s rest ->
  Re.scan image_pattern 0 (pre ++ rest)
  = (chrs pre ++ Re.scan image_pattern 0 rest)%list.
Proof.
  intros Hu Hr. apply unthemed_inv in Hu as [HL HD].
  apply scan_misses. intros u v -> Hv. apply image_miss.
  - apply head_straddle;
      [apply light_no_inner_s | now eexists | now apply (contains_suffix _ u v)
      | assumption | assumption].
  - apply head_straddle;
      [apply dark_no_inner_s | now eexists | now apply (contains_suffix _ u v)
      | assumption | assumption].
Qed.

Lemma image_end : Re.scan image_pattern 0 "" = [].
Proof. reflexivity. Qed.

Lemma image_sub_attr (C : Config) (dark : bool) (path rest : string) :
  all_chars path_char path = true ->
  process_image_paths C (theme_attr dark path ++ rest)
  = attr "src" (base_path C ++ path ++ path_args C)
      ++ process_image_paths C rest.
Proof.
  intros Hp. unfold process_image_paths, Re.sub.
  assert (E : theme_attr dark path ++ rest
              = String "s" (Py.drop 1 (theme_attr dark path)) ++ rest)
    by now destruct dark.
  rewrite E at 1.
  rewrite (@scan_hit image_pattern "s" _ rest
             (Re.Match (theme_attr dark path) [(1, path)])).
  - reflexivity.
  - rewrite <- E. now apply image_hit.
  - now destruct dark.
Qed.

Lemma image_sub_unthemed (C : Config) (pre rest : string) :
  unthemed pre = true -> opens_s rest ->
  process_image_paths C (pre ++ rest) = pre ++ process_image_paths C rest.
Proof.
  intros Hu Hr. unfold process_image_paths, Re.sub.
  now rewrite scan_unthemed, glue_app, glue_chrs.
Qed.

(** C7. In a text made of stretches that hold no opening of a themed
    attribute (a plain src attribute may stand in them) and of themed
    attributes whose path holds no double quote and no line feed, the
    rewrite turns every themed attribute into a src attribute on base, path
    and suffix, and copies the stretches unchanged. *)
Theorem image_paths_rewritten (C : Config) (items : list themed_item)
    (tail : string) :
  forallb themed_ok items = true ->
  unthemed tail = true ->
  process_image_paths C (themed_text items tail) = absolute_text C items tail.
Proof.
  intros Hi Ht. induction items as [|[[pre dark] path] items IH].
  - simpl. rewrite <- (append_nil_r tail) at 1.
    rewrite image_sub_unthemed; [|assumption|now left].
    unfold process_image_paths, Re.sub. rewrite image_end. simpl.
    apply append_nil_r.
  - simpl in Hi. apply andb_prop in Hi as [Hok Hi].
    apply andb_prop in Hok as [Hpre Hpath].
    cbn [themed_text absolute_text].
    rewrite image_sub_unthemed by (auto using opens_s_attr).
    rewrite image_sub_attr by assumption. now rewrite IH.
Qed.

Lemma image_paths_rewritten_proxy :
  process_image_paths proxy_config
    (attr "srcLight" "/x.png" ++ " " ++ attr "src" "/y.png")
  = attr "src" "https://h/i?u=/x.png&w=100" ++ " " ++ attr "src" "/y.png".
Proof.
  exact (image_paths_rewritten proxy_config [("", false, "/x.png")]
           (" " ++ attr "src" "/y.png") eq_refl eq_refl).
Defined.

(** ** [preprocess_code_blocks] *)

Lemma fence_not_before (code u v rest : string) :
  contains fence (code ++ "``") = false -> code = u ++ v -> v <> "" ->
  Py.strip_prefix fence (v ++ fence ++ rest) = None.
Proof.
  intros Hc -> Hv. rewrite append_assoc in Hc.
  apply contains_suffix, contains_head in Hc. unfold Py.startswith in Hc.
  destruct v as [|c1 [|c2 [|c3 v]]]; [congruence| | |];
    unfold fence in *; cbn [append Py.strip_prefix] in *;
    repeat match goal with
           | |- context [Ascii.eqb ?a ?b] => destruct (Ascii.eqb a b)
           end; try reflexivity; discriminate.
Qed.

Lemma all_any (s : string) : all_chars Re.any s = true.
Proof. induction s; cbn [all_chars]; auto. Qed.

Lemma body_consumes (code rest : string) (caps : Re.captures) :
  contains fence (code ++ "``") = false ->
  consumes body_pattern (code ++ fence ++ rest) rest caps ((4, code) :: caps).
Proof.
  intros Hc A k a H. unfold body_pattern. cbn [cat fold_right Re.rmatch].
  apply (rep_lazy_first Re.any code (fence ++ rest)).
  - apply all_any.
  - intros u v E Hv. cbv beta.
    now rewrite (fence_not_before code u v rest Hc E Hv).
  - cbv beta. now rewrite strip_prefix_app, consumed_app.
Qed.

Lemma marker_consumes_newline (code rest : string) (caps : Re.captures) :
  contains fence (code ++ "``") = false ->
  consumes marker_pattern (Py.newline ++ code ++ fence ++ rest) rest caps
           ((4, code) :: caps).
Proof.
  intros Hc. unfold marker_pattern. cbn [cat fold_right].
  apply consumes_seq with (s1 := Py.newline ++ code ++ fence ++ rest)
                          (caps1 := caps).
  - apply consumes_alt_r; [reflexivity|apply consumes_eps].
  - apply consumes_seq with (s1 := code ++ fence ++ rest) (caps1 := caps).
    + apply consumes_lit.
    + now apply body_consumes.
Qed.

Lemma marker_consumes_switcher (code rest : string) (caps : Re.captures) :
  contains fence (code ++ "``") = false ->
  consumes marker_pattern ("switcher" ++ Py.newline ++ code ++ fence ++ rest)
           rest caps ((4, code) :: (3, "switcher") :: caps).
Proof.
  intros Hc. unfold marker_pattern. cbn [cat fold_right].
  apply consumes_seq with (s1 := Py.newline ++ code ++ fence ++ rest)
                          (caps1 := (3, "switcher") :: caps).
  - apply consumes_alt_l, consumes_grp, consumes_lit.
  - apply consumes_seq with (s1 := code ++ fence ++ rest)
                            (caps1 := (3, "switcher") :: caps).
    + apply consumes_lit.
    + now apply body_consumes.
Qed.

Lemma blank_inv (c : ascii) :
  blank c = true ->
  Re.space c = true /\ Ascii.eqb Py.LF c = false /\ Ascii.eqb "s" c = false.
Proof.
  unfold blank. intros H. apply andb_prop in H as [Hs Hn].
  repeat split; [assumption| |].
  - rewrite Ascii.eqb_sym. now destruct (Ascii.eqb c Py.LF).
  - destruct (Ascii.eqb_spec "s" c) as [<-|]; [discriminate|reflexivity].
Qed.

Lemma marker_fails_blank {A : Type} (c : ascii) (r : string)
    (caps : Re.captures) (k : string -> Re.captures -> option A) :
  blank c = true -> Re.rmatch marker_pattern (String c r) caps k = None.
Proof.
  intros H. apply blank_inv in H as [_ [Hn Hs]].
  unfold marker_pattern. cbn [cat fold_right Re.rmatch Re.Opt].
  replace (Py.strip_prefix "switcher" (String c r)) with (@None string)
    by (cbn [Py.strip_prefix]; now rewrite Hs).
  replace (Py.strip_prefix Py.newline (String c r)) with (@None string)
    by (unfold Py.newline; cbn [Py.strip_prefix]; now rewrite Hn).
  reflexivity.
Qed.

Lemma marker_fails_body {A : Type} (s : string) (caps : Re.captures)
    (k : string -> Re.captures -> option A) :
  stops Re.space s = true ->
  Py.startswith s ("switcher" ++ Py.newline) = false ->
  Re.rmatch marker_pattern s caps k = None.
Proof.
  intros Hs Hw. unfold Py.startswith in Hw. rewrite strip_prefix_cat in Hw.
  assert (Hn : Py.strip_prefix Py.newline s = None).
  { destruct s as [|c s]; [reflexivity|]. cbn [stops] in Hs.
    unfold Py.newline. cbn [Py.strip_prefix].
    destruct (Ascii.eqb_spec Py.LF c) as [<-|]; [discriminate|reflexivity]. }
  unfold marker_pattern. cbn [cat fold_right Re.rmatch Re.Opt].
  rewrite Hn. destruct (Py.strip_prefix "switcher" s) as [s1|]; [|reflexivity].
  now destruct (Py.strip_prefix Py.newline s1).
Qed.

(** The code cut into its leading blanks and the rest. *)
Lemma plain_start_split (code : string) :
  plain_start code = true ->
  exists ind body,
    code = ind ++ body /\ all_chars blank ind = true
    /\ stops Re.space body = true
    /\ Py.startswith body ("switcher" ++ Py.newline) = false.
Proof.
  induction code as [|c r IH]; cbn [plain_start]; intros H.
  - now exists "", "".
  - destruct (Re.space c) eqn:Hc.
    + apply andb_prop in H as [Hn H]. destruct (IH H) as [ind [body [-> P]]].
      exists (String c ind), body. cbn [all_chars]. unfold blank at 1.
      rewrite Hc, Hn. cbn [andb]. tauto.
    + exists "", (String c r). cbn [stops all_chars]. rewrite Hc.
      repeat split. now destruct (Py.startswith _ _).
Qed.

Lemma switcher_not_across (body rest : string) :
  stops Re.space body = true ->
  Py.startswith body ("switcher" ++ Py.newline) = false ->
  stops Re.space (body ++ fence ++ rest) = true
  /\ Py.startswith (body ++ fence ++ rest) ("switcher" ++ Py.newline) = false.
Proof.
  intros Hs Hw. split; [now destruct body|].
  unfold Py.startswith in *.
  destruct (Py.strip_prefix _ (body ++ _)) as [t|] eqn:E; [|reflexivity].
  exfalso. apply strip_prefix_straddle in E as [[t' E]|[n2 [E1 [E2 E3]]]].
  - now rewrite E in Hw.
  - destruct n2 as [|a n2]; [congruence|].
    unfold fence in E3. cbn [append Py.strip_prefix] in E3.
    destruct (Ascii.eqb_spec a "`") as [->|]; [|discriminate].
    unfold Py.newline in E1. cbn [append] in E1.
    no_inner_s E1 body.
Qed.

Lemma blank_space (s : string) :
  all_chars blank s = true -> all_chars Re.space s = true.
Proof.
  induction s as [|c s IH]; cbn [all_chars]; [auto|]. intros H.
  apply andb_prop in H as [Hc Hs]. apply blank_inv in Hc as [Hc _].
  now rewrite Hc, IH.
Qed.

(** From the whitespace after the filename attribute on. *)
Lemma tail_consumes (ws2 code rest : string) (switcher : bool)
    (caps : Re.captures) :
  all_chars blank ws2 = true ->
  plain_start code = true ->
  contains fence (code ++ "``") = false ->
  consumes (Re.Seq (Re.Rep true Re.space) marker_pattern)
    (ws2 ++ (if switcher then "switcher" else "") ++ Py.newline ++ code
       ++ fence ++ rest)
    rest caps
    ((4, code) :: (if switcher then [(3, "switcher")] else []) ++ caps)%list.
Proof.
  intros Hw Hp Hc A k a H. cbn [Re.rmatch].
  apply rep_greedy_all; [now apply blank_space|]. destruct switcher.
  - rewrite rep_greedy_stop by reflexivity.
    now apply marker_consumes_switcher.
  - cbn [append]. unfold Py.newline at 1. cbn [append Re.rep].
    change (Re.space Py.LF) with true. cbv iota.
    destruct (plain_start_split code Hp) as [ind [body [E [Hi [Hs Hb]]]]].
    destruct (switcher_not_across body rest Hs Hb) as [Hs' Hb'].
    assert (Hnone : Re.rep true Re.space (code ++ fence ++ rest)
                      (fun s' => Re.rmatch marker_pattern s' caps k) = None).
    { rewrite E, append_assoc. apply rep_greedy_none; [assumption|].
      intros v w ->. destruct w as [|c w].
      - now apply marker_fails_body.
      - apply marker_fails_blank.
        clear - Hi. induction v as [|d v IH]; cbn [append all_chars] in Hi;
          apply andb_prop in Hi as [H1 H2]; auto. }
    rewrite Hnone.
    now apply (marker_consumes_newline code rest caps Hc).
Qed.

Lemma space_not_word (c : ascii) : Re.space c = true -> Re.word c = false.
Proof.
  destruct c as [[] [] [] [] [] [] [] []]; try reflexivity; discriminate.
Qed.

Lemma stops_word_space (ws s : string) :
  nonempty ws = true -> all_chars Re.space ws = true ->
  stops Re.word (ws ++ s) = true.
Proof.
  destruct ws as [|c ws]; [discriminate|]. cbn [all_chars append stops].
  intros _ H. apply andb_prop in H as [H _].
  now rewrite (space_not_word c H).
Qed.

Lemma code_block_consumes (lang ws1 filename ws2 code rest : string)
    (switcher : bool) :
  block_ok lang ws1 filename ws2 code = true ->
  consumes code_pattern
    (fence ++ lang ++ ws1 ++ ("filename=" ++ Py.dquote) ++ filename
       ++ Py.dquote ++ ws2 ++ (if switcher then "switcher" else "")
       ++ Py.newline ++ code ++ fence ++ rest)
    rest [] (block_groups lang filename code switcher).
Proof.
  unfold block_ok. intros H.
  repeat (apply andb_prop in H as [H ?]).
  unfold code_pattern. cbn [cat fold_right].
  eapply consumes_seq; [apply consumes_lit|].
  eapply consumes_seq.
  { apply consumes_alt_l, consumes_grp, consumes_plus_greedy;
      [assumption|assumption|now apply stops_word_space]. }
  eapply consumes_seq.
  { apply consumes_plus_greedy; [assumption|assumption|reflexivity]. }
  eapply consumes_seq; [apply consumes_lit|].
  eapply consumes_seq.
  { apply consumes_grp, consumes_plus_greedy;
      [assumption|assumption|reflexivity]. }
  eapply consumes_seq; [apply consumes_lit|].
  apply tail_consumes; [assumption|assumption|].
  now apply negb_true_iff.
Qed.

Lemma scan_hit_text (r : Re.regex) (w s : string) (m : Re.mtch) :
  nonempty w = true ->
  Re.match_at r (w ++ s) = Some m -> Re.whole m = w ->
  Re.scan r 0 (w ++ s) = Re.Hit m :: Re.scan r 0 s.
Proof.
  destruct w as [|c w]; [discriminate|]. intros _. apply scan_hit.
Qed.

Lemma code_block_match (lang ws1 filename ws2 code rest : string)
    (switcher : bool) :
  block_ok lang ws1 filename ws2 code = true ->
  Re.match_at code_pattern
    (code_block lang ws1 filename ws2 switcher code ++ rest)
  = Some (Re.Match (code_block lang ws1 filename ws2 switcher code)
                   (block_groups lang filename code switcher)).
Proof.
  intros H. unfold Re.match_at.
  set (block := code_block lang ws1 filename ws2 switcher code).
  assert (E : block ++ rest
              = fence ++ lang ++ ws1 ++ ("filename=" ++ Py.dquote) ++ filename
                  ++ Py.dquote ++ ws2 ++ (if switcher then "switcher" else "")
                  ++ Py.newline ++ code ++ fence ++ rest).
  { unfold block, code_block. now rewrite !append_assoc. }
  rewrite E at 1.
  apply (code_block_consumes lang ws1 filename ws2 code rest switcher H).
  now rewrite consumed_app.
Qed.

(** X2.  An annotated block whose parts are as [block_ok] says, and whose
    code has an ASCII character after the blanks it starts with, is
    replaced by the header, the fence with the language, and its code
    unchanged; the text after it is rewritten in turn.  (The whitespace
    after the filename attribute is then the same run for Python as here:
    it ends before a character that is no whitespace in either reading.) *)
Theorem code_block_rewritten (lang ws1 filename ws2 code rest : string)
    (switcher : bool) :
  block_ok lang ws1 filename ws2 code = true ->
  ascii_start code = true ->
  preprocess_code_blocks
    (code_block lang ws1 filename ws2 switcher code ++ rest)
  = rewritten_block lang filename code ++ preprocess_code_blocks rest.
Proof.
  intros H _. unfold preprocess_code_blocks, Re.sub.
  rewrite (scan_hit_text code_pattern _ rest
             (Re.Match (code_block lang ws1 filename ws2 switcher code)
                       (block_groups lang filename code switcher))).
  - cbn [Re.glue]. f_equal.
    unfold code_replace, Re.group, block_groups, rewritten_block.
    cbn [Re.groups]. destruct switcher; reflexivity.
  - reflexivity.
  - now apply code_block_match.
  - reflexivity.
Qed.

Lemma code_block_rewritten_js :
  preprocess_code_blocks js_block
  = text [code_header "a.js" "js"; fence ++ "js"; "console.log(1)"; ""; fence].
Proof.
  exact (code_block_rewritten "js" " " "a.js" "" (text ["console.log(1)"; ""])
           "" false eq_refl eq_refl).
Defined.

(** ** A code block that starts with an empty line *)

(** C8.  The whitespace after the filename attribute is matched across line
    ends, so the empty first line of the code is taken for it: the block
    that comes out holds the code without its first line.  The block of the
    example, which has no such line, comes out with its code unchanged. *)
Theorem code_block_blank_first_line :
  preprocess_code_blocks blank_first_block
  = text [code_header "a.js" "js"; fence ++ "js"; "  code"; ""; fence]
  /\ preprocess_code_blocks blank_first_block
     <> text [code_header "a.js" "js"; fence ++ "js"; ""; "  code"; ""; fence]
  /\ preprocess_code_blocks js_block
     = text [code_header "a.js" "js"; fence ++ "js"; "console.log(1)"; "";
             fence].
Proof.
  split; [vm_compute; reflexivity|].
  split; [vm_compute; discriminate|vm_compute; reflexivity].
Qed.

(** ** [html.escape] *)

Lemma flat_app (f : ascii -> string) (a b : string) :
  flat f (a ++ b) = flat f a ++ flat f b.
Proof. induction a as [|c a IH]; simpl; auto. now rewrite IH, append_assoc. Qed.

Lemma flat_flat (f g : ascii -> string) (s : string) :
  flat g (flat f s) = flat (fun c => flat g (f c)) s.
Proof. induction s as [|c s IH]; simpl; auto. now rewrite flat_app, IH. Qed.

Lemma flat_ext (f g : ascii -> string) (s : string) :
  (forall c, f c = g c) -> flat f s = flat g s.
Proof. intros H. induction s as [|c s IH]; simpl; auto. now rewrite H, IH. Qed.

Lemma replace_char (a : ascii) (new s : string) :
  Py.replace (String a "") new s
  = flat (fun c => if Ascii.eqb c a then new else String c "") s.
Proof.
  unfold Py.replace. cbn [Py.is_empty].
  induction s as [|c s IH]; [reflexivity|].
  cbn [Py.replace_from flat]. unfold Py.startswith. cbn [Py.strip_prefix].
  rewrite (Ascii.eqb_sym c a). destruct (Ascii.eqb a c).
  - destruct s; cbn [String.length Nat.sub]; now rewrite IH.
  - cbn [append]. now rewrite IH.
Qed.

Lemma html_escape_flat (s : string) : Py.html_escape s = flat escape_char s.
Proof.
  unfold Py.html_escape, Py.dquote. cbv zeta.
  rewrite !replace_char, !flat_flat. apply flat_ext. intros c.
  unfold escape_char.
  destruct (Ascii.eqb_spec c "&") as [->|H1]; [reflexivity|].
  destruct (Ascii.eqb_spec c "<") as [->|H2]; [reflexivity|].
  destruct (Ascii.eqb_spec c ">") as [->|H3]; [reflexivity|].
  destruct (Ascii.eqb_spec c Py.DQ) as [->|H4]; [reflexivity|].
  destruct (Ascii.eqb_spec c "'") as [->|H5]; [reflexivity|].
  apply Ascii.eqb_neq in H1, H2, H3, H4, H5.
  do 5 (cbn [flat append]; rewrite ?H1, ?H2, ?H3, ?H4, ?H5).
  reflexivity.
Qed.

(** ** The tag pattern of [preprocess_mdx_content] *)

Lemma name_rest_inv (t : string) :
  name_rest t = true ->
  exists w rest, t = w ++ String ">" rest /\ all_chars Re.word w = true.
Proof.
  induction t as [|c t IH]; [discriminate|]. cbn [name_rest].
  destruct (Re.word c) eqn:Hc.
  - intros H. destruct (IH H) as [w [rest [-> Hw]]].
    exists (String c w), rest. cbn [all_chars]. now rewrite Hc.
  - intros H. apply Ascii.eqb_eq in H as ->. now exists "", t.
Qed.

Lemma name_run_match {A : Type} (t : string) (caps : Re.captures)
    (k : string -> Re.captures -> option A) :
  name_run t = true ->
  (forall rest caps', k (String ">" rest) caps' <> None) ->
  Re.rmatch (Re.Plus true Re.word) t caps k <> None.
Proof.
  destruct t as [|c t]; [discriminate|]. cbn [name_run]. intros H Hk.
  apply andb_prop in H as [Hc H].
  apply name_rest_inv in H as [w [rest [-> Hw]]].
  cbn [Re.Plus Re.rmatch]. rewrite Hc.
  destruct (Re.rep true Re.word (String ">" rest) (fun s' => k s' caps))
    eqn:E.
  - now rewrite (rep_greedy_all _ _ _ _ _ Hw E).
  - rewrite rep_stop in E by reflexivity. now apply Hk in E.
Qed.

Lemma is_tag_match (s : string) :
  is_tag s = true -> Re.match_at mdx_tag_pattern s <> None.
Proof.
  destruct s as [|c t]; [discriminate|]. cbn [is_tag]. intros H.
  apply andb_prop in H as [Hc H]. apply Ascii.eqb_eq in Hc as ->.
  destruct t as [|d t]; [discriminate|].
  unfold Re.match_at, mdx_tag_pattern.
  cbn [cat fold_right Re.rmatch Re.Opt].
  replace (Py.strip_prefix "<" (String "<" (String d t)))
    with (Some (String d t)) by reflexivity.
  assert (Hk : forall (s0 : string) rest caps',
    match Py.strip_prefix ">" (String ">" rest) with
    | Some s'1 =>
        Some (Re.Match (Re.consumed (String "<" (String d t)) s'1)
                       ((1, Re.consumed (String d t) (String ">" rest))
                          :: caps'))
    | None => None
    end <> None) by (intros; cbn; discriminate).
  destruct (Ascii.eqb_spec d "/") as [->|Hd].
  - replace (Py.strip_prefix "/" (String "/" t)) with (Some t) by reflexivity.
    match goal with
    | |- match ?x with _ => _ end <> None =>
        assert (Hx : x <> None); [|now destruct x]
    end.
    apply name_run_match; [assumption|]. intros rest caps'.
    apply (Hk "").
  - replace (Py.strip_prefix "/" (String d t)) with (@None string).
    + apply name_run_match; [assumption|]. intros rest caps'.
      apply (Hk "").
    + cbn [Py.strip_prefix]. apply Ascii.eqb_neq in Hd.
      rewrite Ascii.eqb_sym in Hd. now rewrite Hd.
Qed.

Lemma match_tag_inv (s : string) (m : Re.mtch) :
  Re.match_at mdx_tag_pattern s = Some m ->
  exists w rest, s = String "<" w ++ rest /\ Re.whole m = String "<" w.
Proof.
  intros H. apply match_at_lit in H as [w [rest [-> H]]]. now exists w, rest.
Qed.

Lemma tag_miss (c : ascii) (s : string) :
  Ascii.eqb c "<" = false -> Re.match_at mdx_tag_pattern (String c s) = None.
Proof.
  intros H. apply match_at_lit_miss. unfold Py.startswith.
  cbn [Py.strip_prefix]. rewrite Ascii.eqb_sym. now rewrite H.
Qed.

Lemma rep_name_rest {A : Type} (t : string) (k : string -> option A) (a : A) :
  (forall s', k s' <> None -> exists r, s' = String ">" r) ->
  Re.rep true Re.word t k = Some a -> name_rest t = true.
Proof.
  intros Hk. induction t as [|c t IH]; cbn [Re.rep name_rest]; intros H.
  - destruct (Hk "") as [r Hr]; [congruence|discriminate].
  - destruct (Re.word c) eqn:Hc.
    + destruct (Re.rep true Re.word t k); [now apply IH|].
      destruct (Hk (String c t)) as [r Hr]; [congruence|].
      injection Hr as -> _. discriminate.
    + destruct (Hk (String c t)) as [r Hr]; [congruence|].
      now injection Hr as -> _.
Qed.

Lemma plus_name_run {A : Type} (t : string) (caps : Re.captures)
    (k : string -> Re.captures -> option A) (a : A) :
  (forall s' caps', k s' caps' <> None -> exists r, s' = String ">" r) ->
  Re.rmatch (Re.Plus true Re.word) t caps k = Some a -> name_run t = true.
Proof.
  intros Hk. cbn [Re.Plus Re.rmatch]. destruct t as [|c t]; [discriminate|].
  cbn [name_run]. destruct (Re.word c); [|discriminate]. intros H.
  apply rep_name_rest in H; [assumption|]. intros s'. apply Hk.
Qed.

Lemma match_is_tag (s : string) (m : Re.mtch) :
  Re.match_at mdx_tag_pattern s = Some m -> is_tag s = true.
Proof.
  unfold Re.match_at, mdx_tag_pattern.
  cbn [cat fold_right Re.rmatch Re.Opt]. intros H.
  destruct s as [|c s]; [discriminate|].
  change (Py.strip_prefix "<" (String c s))
    with (if Ascii.eqb "<" c then Some s else None) in H.
  destruct (Ascii.eqb_spec "<" c) as [<-|]; [|discriminate].
  cbn [is_tag]. rewrite Ascii.eqb_refl. cbn [andb].
  assert (Hk : forall (s0 : string) s' caps',
    match Py.strip_prefix ">" s' with
    | Some s'1 =>
        Some (Re.Match (Re.consumed (String "<" s) s'1)
                       ((1, Re.consumed s0 s') :: caps'))
    | None => None
    end <> None -> exists r, s' = String ">" r).
  { intros s0 s' caps' Hs.
    destruct (Py.strip_prefix ">" s') as [r|] eqn:E; [|congruence].
    apply strip_prefix_inv in E. now exists r. }
  destruct s as [|d t]; [discriminate|].
  destruct (Ascii.eqb_spec d "/") as [->|Hd].
  - replace (Py.strip_prefix "/" (String "/" t)) with (Some t) in H
      by reflexivity.
    match type of H with
    | match ?x with _ => _ end = _ => destruct x eqn:E
    end.
    + apply plus_name_run in E; [assumption|]. intros s' caps'.
      apply (Hk (String "/" t)).
    + apply plus_name_run in H; [|intros s' caps'; apply (Hk (String "/" t))].
      discriminate.
  - replace (Py.strip_prefix "/" (String d t)) with (@None string) in H.
    + apply plus_name_run in H; [assumption|]. intros s' caps'.
      apply (Hk (String d t)).
    + cbn [Py.strip_prefix]. apply Ascii.eqb_neq in Hd.
      rewrite Ascii.eqb_sym in Hd. now rewrite Hd.
Qed.

(** ** [preprocess_mdx_content] leaves no tag *)

Lemma out_nil (skip : nat) : mdx_out skip "" = "".
Proof. now destruct skip. Qed.

Lemma out_miss (c : ascii) (s : string) :
  Re.match_at mdx_tag_pattern (String c s) = None ->
  mdx_out 0 (String c s) = String c (mdx_out 0 s).
Proof. intros H. unfold mdx_out. now rewrite scan_miss. Qed.

Lemma out_hit (c : ascii) (s : string) (m : Re.mtch) :
  Re.match_at mdx_tag_pattern (String c s) = Some m ->
  exists w, c = "<"%char /\
    mdx_out 0 (String c s)
    = "&lt;" ++ Py.html_escape w ++ mdx_out (String.length w) s.
Proof.
  intros H. destruct (match_tag_inv _ _ H) as [w [rest [E Hw]]].
  injection E as -> ->. exists w. split; [reflexivity|].
  unfold mdx_out. cbn [Re.scan]. rewrite H, Hw. cbn [String.length Re.glue].
  unfold escape_match. rewrite Hw, !html_escape_flat. cbn [flat].
  change (escape_char "<") with "&lt;". now rewrite append_assoc.
Qed.

Lemma escape_not_lt (s : string) : all_chars not_lt (Py.html_escape s) = true.
Proof.
  rewrite html_escape_flat. induction s as [|c s IH]; [reflexivity|].
  cbn [flat]. unfold escape_char.
  destruct (Ascii.eqb_spec c "&"); [exact IH|].
  destruct (Ascii.eqb_spec c "<") as [|H]; [exact IH|].
  destruct (Ascii.eqb_spec c ">"); [exact IH|].
  destruct (Ascii.eqb_spec c Py.DQ); [exact IH|].
  destruct (Ascii.eqb_spec c "'"); [exact IH|].
  cbn [append all_chars]. unfold not_lt at 1.
  apply Ascii.eqb_neq in H. now rewrite H.
Qed.

Lemma tag_free_app (u v : string) :
  all_chars not_lt u = true -> tag_free v = true -> tag_free (u ++ v) = true.
Proof.
  intros Hu Hv. induction u as [|c u IH]; [exact Hv|].
  cbn [all_chars] in Hu. apply andb_prop in Hu as [Hc Hu].
  cbn [append tag_free]. rewrite tag_miss.
  - now apply IH.
  - unfold not_lt in Hc. now destruct (Ascii.eqb c "<").
Qed.

Lemma out_head (t r : string) (e : ascii) :
  mdx_out 0 t = String e r -> e <> "&"%char ->
  exists t', t = String e t' /\ r = mdx_out 0 t'.
Proof.
  destruct t as [|c t]; [discriminate|]. intros H He.
  destruct (Re.match_at mdx_tag_pattern (String c t)) as [m|] eqn:E.
  - destruct (out_hit _ _ _ E) as [w [_ Hw]]. rewrite Hw in H.
    injection H as <- _. congruence.
  - rewrite out_miss in H by assumption. injection H as -> <-. now exists t.
Qed.

Lemma name_rest_out (t : string) :
  name_rest (mdx_out 0 t) = true -> name_rest t = true.
Proof.
  induction t as [|c t IH]; [discriminate|].
  destruct (Re.match_at mdx_tag_pattern (String c t)) as [m|] eqn:E.
  - destruct (out_hit _ _ _ E) as [w [_ Hw]]. rewrite Hw. discriminate.
  - rewrite out_miss by assumption. cbn [name_rest].
    now destruct (Re.word c).
Qed.

Lemma name_run_out (t : string) :
  name_run (mdx_out 0 t) = true -> name_run t = true.
Proof.
  destruct (mdx_out 0 t) as [|e r] eqn:E; [discriminate|]. cbn [name_run].
  intros H. apply andb_prop in H as [He Hr].
  apply out_head in E as [t' [-> ->]].
  - cbn [name_run]. rewrite He. now apply name_rest_out.
  - intros ->. discriminate.
Qed.

Lemma is_tag_out (c : ascii) (s : string) :
  is_tag (String c (mdx_out 0 s)) = true -> is_tag (String c s) = true.
Proof.
  cbn [is_tag]. intros H. apply andb_prop in H as [Hc H]. rewrite Hc.
  cbn [andb]. destruct (mdx_out 0 s) as [|d r] eqn:E; [discriminate|].
  destruct (Ascii.eqb_spec d "/") as [->|Hd].
  - apply out_head in E as [t' [-> ->]]; [|discriminate].
    rewrite Ascii.eqb_refl. now apply name_run_out.
  - rewrite <- E in H. apply name_run_out in H.
    destruct s as [|d' t']; [discriminate|].
    destruct (Ascii.eqb_spec d' "/") as [->|]; [discriminate|assumption].
Qed.

Lemma out_tag_free (s : string) : forall skip, tag_free (mdx_out skip s) = true.
Proof.
  induction s as [|c s IH]; intros skip; [now rewrite out_nil|].
  destruct skip as [|n]; [|exact (IH n)].
  destruct (Re.match_at mdx_tag_pattern (String c s)) as [m|] eqn:E.
  - destruct (out_hit _ _ _ E) as [w [_ ->]].
    apply (tag_free_app "&lt;"); [reflexivity|].
    apply tag_free_app; [apply escape_not_lt|apply IH].
  - rewrite out_miss by assumption. cbn [tag_free].
    destruct (Re.match_at mdx_tag_pattern (String c (mdx_out 0 s)))
      as [m|] eqn:E'; [|apply IH].
    apply match_is_tag, is_tag_out, is_tag_match in E'. contradiction.
Qed.

(** ** Text without fences and themed attributes *)

Lemma code_miss (s : string) :
  Py.startswith s fence = false -> Re.match_at code_pattern s = None.
Proof. apply match_at_lit_miss. Qed.

Lemma sub_all_miss (r : Re.regex) (repl : Re.mtch -> string) (s : string) :
  (forall u v, s = u ++ v -> Re.match_at r v = None) ->
  Re.sub r repl s = s.
Proof.
  intros H. unfold Re.sub. rewrite <- (append_nil_r s) at 1.
  rewrite scan_misses.
  - rewrite scan_end, app_nil_r; [apply glue_chrs|].
    apply (H s ""). now rewrite append_nil_r.
  - intros u v -> _. rewrite append_nil_r. now apply (H u v).
Qed.

Lemma rewrite_content_plain (C : Config) (s : string) :
  unthemed s = true -> contains fence s = false ->
  rewrite_content C s = s.
Proof.
  intros Hu Hf. unfold rewrite_content.
  assert (Hi : process_image_paths C s = s).
  { apply sub_all_miss. intros u v ->. apply unthemed_inv in Hu as [HL HD].
    apply image_miss; apply contains_head; now apply (contains_suffix _ u v). }
  assert (Hc : preprocess_code_blocks s = s).
  { apply sub_all_miss. intros u v ->. apply code_miss, contains_head.
    now apply (contains_suffix _ u v). }
  destruct (Change_img_url C); [now rewrite Hi|assumption].
Qed.

(** C4, amended.  The pass over the whole text is [preprocess_mdx_content],
    and its result holds no tag of the form it looks for; but the loop does
    not apply it: a text without themed attributes and code fences reaches
    [parse_frontmatter] as it was read, its tags not escaped. *)
Theorem escaping_pass_not_applied (C : Config) (md_content : string) :
  unthemed md_content = true ->
  contains fence md_content = false ->
  rewrite_content C md_content = md_content
  /\ forall s, tag_free (preprocess_mdx_content s) = true.
Proof.
  intros Hu Hf. split; [now apply rewrite_content_plain|].
  intros s. apply (out_tag_free s 0).
Qed.

Lemma escaping_pass_not_applied_bold :
  rewrite_content main_config bold_text = bold_text
  /\ forall s, tag_free (preprocess_mdx_content s) = true.
Proof.
  exact (escaping_pass_not_applied main_config bold_text eq_refl eq_refl).
Defined.

(** C4 as stated fails: the text of a document that holds a tag reaches
    [parse_frontmatter] with the tag in it, while the pass, had it been
    applied, would have escaped it. *)
Lemma tags_reach_the_split :
  rewrite_content main_config bold_text = "<b>bold</b>"
  /\ tag_free (rewrite_content main_config bold_text) = false
  /\ preprocess_mdx_content bold_text = "&lt;b&gt;bold&lt;/b&gt;".
Proof. repeat split. Qed.

(** ** [parse_frontmatter] *)

Lemma index_from_absent (x : string) (start pos : nat) (lines : list string) :
  (forall l, In l lines -> l <> x) ->
  index_from x start pos lines = Raise ValueError.
Proof.
  revert pos; induction lines as [|l lines IH]; intros pos H; [reflexivity|].
  cbn [index_from]. replace (String.eqb l x) with false.
  - rewrite andb_false_r. apply IH. intros l' Hl. apply H. now right.
  - symmetry. apply String.eqb_neq. apply H. now left.
Qed.

(** C5.  A text whose first line is the delimiter and which has no later line
    equal to the delimiter makes [parse_frontmatter] raise [ValueError]: the
    search for the closing line is not guarded. *)
Theorem parse_frontmatter_unclosed (md_content : string) :
  Py.strip (hd EmptyString (Py.split Py.LF md_content)) = "---" ->
  (forall l, In l (tl (Py.split Py.LF md_content)) -> l <> "---") ->
  parse_frontmatter md_content = Raise ValueError.
Proof.
  intros H1 H2. unfold parse_frontmatter. rewrite H1.
  change (String.eqb "---" "---") with true. cbv iota.
  destruct (Py.split Py.LF md_content) as [|l lines]; [reflexivity|].
  cbn [index_from Nat.leb andb tl] in *.
  now rewrite index_from_absent.
Qed.

Lemma parse_frontmatter_unclosed_doc :
  parse_frontmatter unclosed_doc = Raise ValueError.
Proof.
  apply parse_frontmatter_unclosed.
  - reflexivity.
  - simpl. intros l [<-|[<-|[]]]; discriminate.
Defined.

(** ** The stable sort *)

Section SortFacts.
Variables (A K : Type) (ltb : K -> K -> bool) (key : A -> K).
Hypothesis ltb_asym : forall a b, ltb a b = true -> ltb b a = false.
Hypothesis geb_trans :
  forall a b c, ltb b a = false -> ltb c b = false -> ltb c a = false.

Lemma in_insert_by (a x : A) (l : list A) :
  In a (insert_by ltb key x l) <-> a = x \/ In a l.
Proof.
  induction l as [|y l IH]; simpl.
  - intuition.
  - destruct (ltb (key y) (key x)); simpl; rewrite ?IH; intuition.
Qed.

Lemma in_sort_by (a : A) (l : list A) : In a (sort_by ltb key l) <-> In a l.
Proof.
  induction l as [|x l IH]; simpl; [tauto|].
  rewrite in_insert_by, IH. intuition.
Qed.

Lemma insert_by_sorted (x : A) (l : list A) :
  StronglySorted (not_after ltb key) l ->
  StronglySorted (not_after ltb key) (insert_by ltb key x l).
Proof.
  induction 1 as [|y l Hl IH Hy]; simpl.
  - repeat constructor.
  - destruct (ltb (key y) (key x)) eqn:E.
    + constructor; [assumption|]. apply Forall_forall. intros z Hz.
      apply in_insert_by in Hz as [->|Hz].
      * now apply ltb_asym.
      * rewrite Forall_forall in Hy. now apply Hy.
    + constructor; [now constructor|]. constructor; [exact E|].
      rewrite Forall_forall in Hy |- *. intros z Hz.
      unfold not_after in *. apply geb_trans with (b := key y); auto.
Qed.

Lemma sort_by_sorted (l : list A) :
  StronglySorted (not_after ltb key) (sort_by ltb key l).
Proof.
  induction l as [|x l IH]; simpl; [constructor|now apply insert_by_sorted].
Qed.

Lemma sorted_tail (l1 : list A) (y : A) (l2 : list A) :
  StronglySorted (not_after ltb key) (l1 ++ y :: l2) ->
  forall x, In x l2 -> not_after ltb key y x.
Proof.
  induction l1 as [|z l1 IH]; simpl; intros H x Hx.
  - inversion H as [|? ? _ Hy]; subst. rewrite Forall_forall in Hy. auto.
  - inversion H; subst. eauto.
Qed.

(** In the sorted list an element with a smaller key stands before one
    with a greater key. *)
Lemma sort_by_before (x y : A) (l : list A) :
  In x l -> In y l -> ltb (key x) (key y) = true ->
  before x y (sort_by ltb key l).
Proof.
  intros Hx Hy Hlt.
  apply in_sort_by in Hx, Hy.
  pose proof (sort_by_sorted l) as Hs.
  destruct (in_split _ _ Hy) as [l1 [l3 E]]. rewrite E in Hx, Hs.
  apply in_app_or in Hx as [Hx|[->|Hx]].
  - destruct (in_split _ _ Hx) as [la [lb ->]].
    exists la, lb, l3. rewrite E. now rewrite <- app_assoc.
  - pose proof (ltb_asym _ _ Hlt). congruence.
  - pose proof (sorted_tail _ _ _ Hs _ Hx) as H. unfold not_after in H.
    congruence.
Qed.

(** The first element of the sorted list has a key that none exceeds. *)
Lemma sort_by_head (v : A) (rest l : list A) :
  sort_by ltb key l = v :: rest ->
  In v l /\ forall w, In w l -> ltb (key w) (key v) = false \/ w = v.
Proof.
  intros E. split.
  - apply in_sort_by. rewrite E. now left.
  - intros w Hw. apply in_sort_by in Hw. rewrite E in Hw.
    destruct Hw as [->|Hw]; [now right|left].
    pose proof (sort_by_sorted l) as Hs. rewrite E in Hs.
    now apply (sorted_tail [] v rest Hs).
Qed.
End SortFacts.

(** ** The order of strings *)

Lemma ascii_compare_refl (c : ascii) : Ascii.compare c c = Eq.
Proof. unfold Ascii.compare. apply N.compare_refl. Qed.

Lemma compare_app (p a b : string) :
  String.compare (p ++ a) (p ++ b) = String.compare a b.
Proof.
  induction p as [|c p IH]; cbn [append String.compare]; [reflexivity|].
  rewrite ascii_compare_refl. exact IH.
Qed.

Lemma string_ltb_asym (a b : string) :
  String.ltb a b = true -> String.ltb b a = false.
Proof.
  unfold String.ltb. rewrite (String.compare_antisym b a).
  now destruct (String.compare a b).
Qed.

Lemma string_compare_trans (a : string) :
  forall b c, String.compare a b <> Lt -> String.compare b c <> Lt ->
              String.compare a c <> Lt.
Proof.
  induction a as [|x a IH]; intros [|y b] [|z c]; simpl; try congruence.
  unfold Ascii.compare.
  destruct (N.compare_spec (N_of_ascii x) (N_of_ascii y)) as [E1|E1|E1];
  destruct (N.compare_spec (N_of_ascii y) (N_of_ascii z)) as [E2|E2|E2];
  destruct (N.compare_spec (N_of_ascii x) (N_of_ascii z)) as [E3|E3|E3];
    try congruence; try lia; eauto.
Qed.

Lemma string_geb_trans (a b c : string) :
  String.ltb b a = false -> String.ltb c b = false -> String.ltb c a = false.
Proof.
  unfold String.ltb. intros H1 H2.
  assert (H : String.compare c a <> Lt).
  { apply string_compare_trans with (b := b).
    - now destruct (String.compare c b).
    - now destruct (String.compare b a). }
  now destruct (String.compare c a).
Qed.

(** ** [get_files_sorted] *)

Lemma path_join_prefix (a b : string) :
  Py.startswith b "/" = false -> Py.path_join a b = join_prefix a ++ b.
Proof.
  intros H. unfold Py.path_join, join_prefix. rewrite H.
  destruct (Py.is_empty a || Py.endswith_sep a); [reflexivity|].
  now rewrite append_assoc.
Qed.

Lemma before_map {A B : Type} (f : A -> B) (x y : A) (l : list A) :
  before x y l -> before (f x) (f y) (map f l).
Proof.
  intros [l1 [l2 [l3 ->]]]. exists (map f l1), (map f l2), (map f l3).
  now rewrite map_app, (map_cons f x), map_app.
Qed.

Lemma in_walk_entries (walk : list (string * list string))
    (root : string) (files : list string) (file : string) :
  In (root, files) walk -> In file files ->
  In (Py.path_join root file, sort_key root file) (walk_entries walk).
Proof.
  intros Hd Hf. unfold walk_entries. apply in_flat_map.
  exists (root, files). split; [assumption|].
  cbn [fst snd].
  now apply (in_map (fun f => (Py.path_join root f, sort_key root f))).
Qed.

Lemma index_key_first (root file sibling : string) :
  is_index file = true -> is_index sibling = false ->
  after_bang sibling = true ->
  String.ltb (sort_key root file) (sort_key root sibling) = true.
Proof.
  intros Hi Hs Ha. unfold sort_key. rewrite Hi, Hs.
  destruct sibling as [|c s]; [discriminate|]. cbn [after_bang] in Ha.
  apply andb_prop in Ha as [Hc Hslash].
  rewrite !path_join_prefix.
  - unfold String.ltb. rewrite compare_app. cbn [append String.compare].
    unfold Ascii.ltb in Hc. now destruct (Ascii.compare "!" c).
  - unfold Py.startswith. cbn [Py.strip_prefix]. rewrite Ascii.eqb_sym.
    now destruct (Ascii.eqb c "/").
  - reflexivity.
Qed.

(** C2, amended.  In a directory of the walked tree, the sort key of an index
    document is smaller than the sort key of every sibling that is not an
    index document itself and whose name starts with a character after the
    exclamation mark (other than the slash, which no file name holds); the
    index document then stands before that sibling in the list returned. *)
Theorem index_sorts_first (W : World) (root_dir root : string)
    (files : list string) (file sibling : string) :
  In (root, files) (os_walk W root_dir) ->
  In file files -> In sibling files ->
  is_index file = true -> is_index sibling = false ->
  after_bang sibling = true ->
  String.ltb (sort_key root file) (sort_key root sibling) = true
  /\ before (Py.path_join root file) (Py.path_join root sibling)
            (get_files_sorted W root_dir).
Proof.
  intros Hd Hf Hs Hi Hn Ha.
  pose proof (index_key_first root file sibling Hi Hn Ha) as Hlt.
  split; [exact Hlt|].
  unfold get_files_sorted.
  apply (before_map fst (Py.path_join root file, sort_key root file)
                        (Py.path_join root sibling, sort_key root sibling)).
  apply sort_by_before.
  - exact string_ltb_asym.
  - exact string_geb_trans.
  - now apply in_walk_entries with (files := files).
  - now apply in_walk_entries with (files := files).
  - exact Hlt.
Qed.

Lemma index_sorts_first_docs :
  String.ltb (sort_key "docs" "index.mdx") (sort_key "docs" "a.md") = true
  /\ before "docs/index.mdx" "docs/a.md"
            (get_files_sorted (tree_world docs_walk) "docs").
Proof.
  apply (index_sorts_first (tree_world docs_walk) "docs" "docs"
           ["b.md"; "index.mdx"; "a.md"] "index.mdx" "a.md");
    try reflexivity; simpl; auto.
Defined.

(** C2 as stated fails: a sibling whose name starts with a space sorts
    before the index document. *)
Lemma index_after_space_name :
  is_index "index.md" = true
  /\ String.ltb (sort_key "docs" "index.md") (sort_key "docs" " notes.md")
     = false
  /\ get_files_sorted (tree_world [("docs", ["index.md"; " notes.md"])]) "docs"
     = ["docs/ notes.md"; "docs/index.md"].
Proof. repeat split. Qed.

(** ** [restore_html_tags] *)

Lemma dict_set_at {V : Type} (k : string) (x v : V) (pre post : dict V) :
  ~ In k (dict_keys pre) ->
  dict_set k x (pre ++ (k, v) :: post)%list = (pre ++ (k, x) :: post)%list.
Proof.
  induction pre as [|[k' v'] pre IH]; intros H; cbn [app dict_set].
  - now rewrite String.eqb_refl.
  - simpl in H. destruct (String.eqb_spec k' k) as [->|_]; [tauto|].
    rewrite IH; tauto.
Qed.

Lemma restore_top_key (tags : dict string) (item : string * yaml) :
  fst (restore_top tags item) = fst item.
Proof. destruct item as [k []]; reflexivity. Qed.

Lemma restore_entry_at (tags : dict string) (pre post : dict yaml)
    (item : string * yaml) :
  ~ In (fst item) (dict_keys pre) ->
  restore_entry tags (pre ++ item :: post)%list item
  = (pre ++ restore_top tags item :: post)%list.
Proof.
  destruct item as [k v]. intros H. unfold restore_entry, restore_top.
  cbn [fst snd] in *. destruct v; try reflexivity. now apply dict_set_at.
Qed.

Lemma restore_loop (tags : dict string) (todo : dict yaml) :
  forall done : dict yaml,
  NoDup (dict_keys (done ++ todo)%list) ->
  fold_left (restore_entry tags) todo
            (map (restore_top tags) done ++ todo)%list
  = map (restore_top tags) (done ++ todo)%list.
Proof.
  induction todo as [|item todo IH]; intros done H; cbn [fold_left].
  - now rewrite !app_nil_r.
  - rewrite restore_entry_at.
    + specialize (IH (done ++ [item])%list). rewrite <- !app_assoc in IH.
      rewrite map_app in IH. cbn [map app] in IH.
      rewrite <- app_assoc in IH. now apply IH.
    + unfold dict_keys in *. rewrite map_map.
      rewrite (map_ext _ fst) by apply restore_top_key.
      rewrite map_app in H. apply NoDup_remove_2 in H.
      intros Hin. apply H. apply in_or_app. now left.
Qed.

(** C10.  A value that is not a mapping is returned as it is.  In a mapping
    (a dict, its keys distinct) the entries keep their keys and their order;
    an entry whose value is a string gets the restored and escaped string,
    and an entry whose value is not a string, a nested mapping or a sequence
    with the strings inside it, is returned as it is. *)
Theorem restore_html_tags_top_level (html_tags : dict string)
    (parsed_data : yaml) :
  (forall entries, parsed_data = YMap entries -> NoDup (dict_keys entries)) ->
  match parsed_data with
  | YMap entries =>
      restore_html_tags parsed_data html_tags
        = YMap (map (restore_top html_tags) entries)
      /\ forall key value,
           In (key, value) entries ->
           (forall s, value <> YStr s) ->
           In (key, value) (map (restore_top html_tags) entries)
  | _ => restore_html_tags parsed_data html_tags = parsed_data
  end.
Proof.
  intros H. destruct parsed_data as [| | | | | |entries]; try reflexivity.
  split.
  - cbn [restore_html_tags]. f_equal.
    apply (restore_loop html_tags entries []). now apply H.
  - intros key value Hin Hv. apply in_map_iff. exists (key, value).
    split; [|assumption]. unfold restore_top. cbn [fst snd].
    destruct value; try reflexivity. now elim (Hv s).
Qed.

Lemma restore_html_tags_related :
  restore_html_tags (YMap related_entries) [("HTML_TAG_0", "<b>")]
  = YMap [("title", YStr "&lt;b&gt; page");
          ("order", YInt 3);
          ("related", YMap [("title", YStr "HTML_TAG_0");
                            ("links", YSeq [YStr "a/HTML_TAG_0"; YStr "b"])])].
Proof.
  apply (restore_html_tags_top_level [("HTML_TAG_0", "<b>")]
           (YMap related_entries)).
  intros entries E. injection E as <-.
  repeat constructor; simpl; intuition discriminate.
Defined.

(** ** Placeholders that are prefixes of one another *)

(** C3.  With eleven tags in a value the last placeholder, HTML_TAG_10,
    starts with the second, HTML_TAG_1, which is restored first: the value
    that comes back ends in the second tag followed by a zero, where the
    escaped eleventh tag should stand. *)
Theorem eleven_tags_not_restored (W : World) :
  yaml_safe_load W (fst (preprocess_frontmatter eleven_frontmatter))
    = Ok (eleven_parsed eleven_placeholders) ->
  fst (preprocess_frontmatter eleven_frontmatter)
    = "description: " ++ Py.dquote ++ eleven_placeholders ++ Py.dquote
  /\ frontmatter_data W eleven_frontmatter
     = Ok (eleven_parsed
             ("&lt;a&gt;&lt;b&gt;&lt;c&gt;&lt;d&gt;&lt;e&gt;&lt;f&gt;"
              ++ "&lt;g&gt;&lt;h&gt;&lt;i&gt;&lt;j&gt;&lt;b&gt;0"))
  /\ frontmatter_data W eleven_frontmatter
     <> Ok (eleven_parsed (Py.html_escape eleven_tags)).
Proof.
  intros H.
  assert (E : frontmatter_data W eleven_frontmatter
     = Ok (eleven_parsed
             ("&lt;a&gt;&lt;b&gt;&lt;c&gt;&lt;d&gt;&lt;e&gt;&lt;f&gt;"
              ++ "&lt;g&gt;&lt;h&gt;&lt;i&gt;&lt;j&gt;&lt;b&gt;0"))).
  { unfold frontmatter_data, safe_load_frontmatter.
    destruct (preprocess_frontmatter eleven_frontmatter) as [fm tags] eqn:P.
    cbn [fst] in H. rewrite H. cbn [bind eleven_parsed].
    apply (f_equal snd) in P. cbn [snd] in P. rewrite <- P.
    vm_compute. reflexivity. }
  split; [vm_compute; reflexivity|]. split; [exact E|].
  rewrite E. vm_compute. discriminate.
Qed.

Lemma eleven_tags_not_restored_run :
  frontmatter_data eleven_world eleven_frontmatter
  <> Ok (eleven_parsed (Py.html_escape eleven_tags)).
Proof.
  apply (eleven_tags_not_restored eleven_world). reflexivity.
Defined.

(** ** The counters of the table of contents *)

Lemma append_zeros_repeat (k : nat) (l : list nat) :
  append_zeros k l = (l ++ repeat 0 k)%list.
Proof.
  revert l; induction k as [|k IH]; intros l; simpl.
  - now rewrite app_nil_r.
  - rewrite IH, <- app_assoc. reflexivity.
Qed.

Lemma length_list_set {A : Type} (i : nat) (v : A) (l : list A) :
  List.length (list_set i v l) = List.length l.
Proof.
  revert i; induction l as [|x l IH]; intros [|i]; simpl; auto.
Qed.

Lemma nth_list_set_same {A : Type} (i : nat) (v d : A) (l : list A) :
  i < List.length l -> nth i (list_set i v l) d = v.
Proof.
  revert i; induction l as [|x l IH]; intros [|i] H; simpl in *;
    try lia; auto.
  apply IH; lia.
Qed.

Lemma nth_list_set_other {A : Type} (i j : nat) (v d : A) (l : list A) :
  i <> j -> nth j (list_set i v l) d = nth j l d.
Proof.
  revert i j; induction l as [|x l IH]; intros [|i] [|j] H; simpl;
    try congruence; auto.
Qed.

Lemma length_toc_grow (l : list nat) (d : nat) :
  d < List.length (toc_grow l d).
Proof.
  unfold toc_grow. rewrite append_zeros_repeat, length_app, repeat_length. lia.
Qed.

Lemma nth_toc_grow (l : list nat) (d i : nat) :
  nth i (toc_grow l d) 0 = nth i l 0.
Proof.
  unfold toc_grow. rewrite append_zeros_repeat.
  destruct (Nat.lt_ge_cases i (List.length l)) as [H|H].
  - now rewrite app_nth1.
  - rewrite app_nth2 by lia. rewrite (nth_overflow l) by lia.
    apply nth_repeat.
Qed.

Lemma reset_range (ix : list nat) (l : list nat) :
  List.length (fold_left (fun l i => list_set i 0 l) ix l) = List.length l
  /\ forall j, nth j (fold_left (fun l i => list_set i 0 l) ix l) 0
               = if existsb (Nat.eqb j) ix then 0 else nth j l 0.
Proof.
  revert l; induction ix as [|i ix IH]; intros l; simpl.
  - auto.
  - destruct (IH (list_set i 0 l)) as [Hlen Hnth]. split.
    + now rewrite Hlen, length_list_set.
    + intros j. rewrite Hnth.
      destruct (existsb (Nat.eqb j) ix); [now rewrite orb_true_r|].
      rewrite orb_false_r. destruct (Nat.eqb_spec j i) as [->|Hne].
      * destruct (Nat.lt_ge_cases i (List.length l)).
        -- now apply nth_list_set_same.
        -- apply nth_overflow. rewrite length_list_set. lia.
      * apply nth_list_set_other. congruence.
Qed.

Lemma existsb_seq (j a n : nat) :
  existsb (Nat.eqb j) (seq a n) = (a <=? j)%nat && (j <? a + n)%nat.
Proof.
  revert a; induction n as [|n IH]; intros a; simpl.
  - destruct (Nat.leb_spec a j), (Nat.ltb_spec j (a + 0)); simpl; auto; lia.
  - rewrite IH.
    destruct (Nat.eqb_spec j a), (Nat.leb_spec (S a) j), (Nat.leb_spec a j),
      (Nat.ltb_spec j (S a + n)), (Nat.ltb_spec j (a + S n));
      simpl; auto; lia.
Qed.

Lemma nth_toc_reset (l : list nat) (d j : nat) :
  nth j (toc_reset l d) 0 = if (j <=? d)%nat then nth j l 0 else 0.
Proof.
  unfold toc_reset. rewrite (proj2 (reset_range _ _)), existsb_seq.
  destruct (Nat.leb_spec j d), (Nat.leb_spec (d + 1) j); simpl; try lia; auto.
  destruct (Nat.ltb_spec j (d + 1 + (List.length l - (d + 1)))); auto.
  apply nth_overflow. lia.
Qed.

Lemma length_toc_reset (l : list nat) (d : nat) :
  List.length (toc_reset l d) = List.length l.
Proof. unfold toc_reset. apply reset_range. Qed.

(** Decimal numerals hold no dot, so the number of a document splits back
    into its counters. *)

Lemma dotless_numeral (u : Decimal.uint) :
  dotless (NilEmpty.string_of_uint u).
Proof. unfold dotless; induction u; simpl; auto. Qed.

Lemma dotless_str_of_nat (n : nat) : dotless (Py.str_of_nat n).
Proof.
  unfold Py.str_of_nat, NilZero.string_of_uint.
  destruct (Nat.to_uint n) eqn:E; try apply (dotless_numeral (Nat.to_uint n)) ;
   rewrite ?E; try reflexivity; rewrite <- E; apply dotless_numeral.
Qed.

Lemma split_dotless (a : string) : dotless a -> Py.split "." a = [a].
Proof.
  unfold dotless; induction a as [|c a IH]; simpl; auto.
  destruct (Ascii.eqb c "."); [discriminate|]. intros H.
  now rewrite IH.
Qed.

Lemma split_dotless_app (a b : string) :
  dotless a -> Py.split "." (a ++ String "." b) = a :: Py.split "." b.
Proof.
  unfold dotless; induction a as [|c a IH]; simpl; auto.
  destruct (Ascii.eqb c "."); [discriminate|]. intros H.
  now rewrite IH.
Qed.

Lemma split_join (ws : list string) :
  ws <> [] -> Forall dotless ws -> Py.split "." (Py.join "." ws) = ws.
Proof.
  induction ws as [|w ws IH]; [congruence|]. intros _ H.
  inversion H as [|? ? Hw Hws]; subst. destruct ws as [|w' ws].
  - simpl. now apply split_dotless.
  - change (Py.join "." (w :: w' :: ws))
      with (w ++ String "." (Py.join "." (w' :: ws))).
    rewrite split_dotless_app by assumption. f_equal. apply IH; congruence.
Qed.

(** C1. After a document at depth [d] the counter of depth [d] is one more
    than before (a counter that did not exist yet counting as zero), every
    deeper counter is zero, the shallower ones are unchanged, and the number
    of the document is the counters 0 to [d] joined by dots, [d + 1] parts
    in all.  The depths 0, 1, 1, 0, 1 give 1, 1.1, 1.2, 2, 2.1. *)
Theorem toc_counter_invariant (numbering : list nat) (depth : nat) :
  let numbering' := fst (toc_visit numbering depth) in
  let number := snd (toc_visit numbering depth) in
  nth depth numbering' 0 = nth depth numbering 0 + 1
  /\ (forall i, depth < i -> nth i numbering' 0 = 0)
  /\ (forall i, i < depth -> nth i numbering' 0 = nth i numbering 0)
  /\ Py.split "." number = map Py.str_of_nat (firstn (depth + 1) numbering')
  /\ List.length (Py.split "." number) = depth + 1
  /\ toc_run [0] [0; 1; 1; 0; 1] = ["1"; "1.1"; "1.2"; "2"; "2.1"].
Proof.
  cbv zeta. unfold toc_visit. cbn [fst snd].
  set (g := toc_grow numbering depth).
  assert (Hg : depth < List.length g) by apply length_toc_grow.
  assert (Hlen : List.length (toc_reset (toc_bump g depth) depth)
                 = List.length g).
  { rewrite length_toc_reset. apply length_list_set. }
  set (n' := toc_reset (toc_bump g depth) depth) in *.
  assert (Hsplit : Py.split "." (toc_numbering n' depth)
                   = map Py.str_of_nat (firstn (depth + 1) n')).
  { unfold toc_numbering. apply split_join.
    - intros E. apply (f_equal (@List.length string)) in E.
      rewrite length_map, length_firstn in E. simpl in E. lia.
    - apply Forall_forall. intros w Hw. apply in_map_iff in Hw.
      destruct Hw as [n [<- _]]. apply dotless_str_of_nat. }
  subst n'. repeat split.
  - rewrite nth_toc_reset, Nat.leb_refl. unfold toc_bump.
    rewrite nth_list_set_same by assumption. unfold g.
    now rewrite nth_toc_grow.
  - intros i Hi. rewrite nth_toc_reset.
    destruct (Nat.leb_spec i depth); [lia|reflexivity].
  - intros i Hi. rewrite nth_toc_reset.
    destruct (Nat.leb_spec i depth); [|lia]. unfold toc_bump.
    rewrite nth_list_set_other by lia. unfold g. apply nth_toc_grow.
  - exact Hsplit.
  - rewrite Hsplit, length_map, length_firstn. lia.
Qed.

(** ** A document whose frontmatter does not parse *)



(** ** The order of versions *)

Lemma drop_zeros_snoc (m : list N) (x : N) :
  drop_zeros (m ++ [x])%list
  = match drop_zeros m with
    | [] => if (x =? 0)%N then [] else [x]
    | t => (t ++ [x])%list
    end.
Proof.
  induction m as [|y m IH]; cbn [app drop_zeros].
  - now destruct x.
  - destruct y; [exact IH|reflexivity].
Qed.

Lemma rev_drop_zeros (l : list N) : rev (drop_zeros (rev l)) = chop l.
Proof.
  induction l as [|x l IH]; [reflexivity|].
  cbn [rev chop]. rewrite drop_zeros_snoc, <- IH.
  destruct (drop_zeros (rev l)) as [|y t]; cbn [rev].
  - now destruct (x =? 0)%N.
  - rewrite rev_app_distr. cbn [rev app].
    destruct (rev t ++ [y])%list eqn:E; [|reflexivity].
    now destruct (rev t).
Qed.

Lemma chop_nil (l : list N) :
  chop l = [] <-> existsb (N.ltb 0) l = false.
Proof.
  induction l as [|x l IH]; cbn [chop existsb]; [tauto|].
  destruct (chop l) as [|y t].
  - destruct (N.eqb_spec x 0) as [Hx|Hx], (N.ltb_spec 0 x);
      cbn [orb]; try lia; intuition congruence.
  - split; [discriminate|]. intros H. apply orb_false_elim in H as [_ H].
    apply IH in H. discriminate.
Qed.

Lemma tuple_ltb_nil_l (b : list N) :
  tuple_ltb [] b = match b with [] => false | _ => true end.
Proof. now destruct b. Qed.

Lemma tuple_ltb_nil_r (a : list N) : tuple_ltb a [] = false.
Proof. now destruct a. Qed.

(** The key of the library orders versions number by number. *)
Lemma tuple_ltb_chop (a : list N) :
  forall b, tuple_ltb (chop a) (chop b) = numeric_ltb a b.
Proof.
  induction a as [|x a IH]; intros b.
  - cbn [chop numeric_ltb]. rewrite tuple_ltb_nil_l.
    destruct (chop b) eqn:E.
    + apply chop_nil in E. now rewrite E.
    + destruct (existsb (N.ltb 0) b) eqn:F; [reflexivity|].
      apply chop_nil in F. congruence.
  - destruct b as [|y b]; [cbn [chop]; apply tuple_ltb_nil_r|].
    cbn [numeric_ltb]. rewrite <- IH. cbn [chop].
    destruct (chop a) as [|x' t], (chop b) as [|y' u];
      destruct (N.eqb_spec x 0), (N.eqb_spec y 0);
      cbn [tuple_ltb];
      destruct (N.ltb_spec x y), (N.ltb_spec y x); try lia; try reflexivity.
Qed.

Lemma version_order (v w : string) :
  tuple_ltb (version_key v) (version_key w)
  = numeric_ltb (release v) (release w).
Proof. unfold version_key. rewrite !rev_drop_zeros. apply tuple_ltb_chop. Qed.

Lemma tuple_ltb_asym (a : list N) :
  forall b, tuple_ltb a b = true -> tuple_ltb b a = false.
Proof.
  induction a as [|x a IH]; intros [|y b]; cbn [tuple_ltb]; try congruence.
  destruct (N.ltb_spec x y), (N.ltb_spec y x); try lia; try congruence; auto.
Qed.

Lemma tuple_geb_trans (a : list N) :
  forall b c, tuple_ltb a b = false -> tuple_ltb b c = false ->
              tuple_ltb a c = false.
Proof.
  induction a as [|x a IH]; intros [|y b] [|z c]; cbn [tuple_ltb];
    try congruence.
  destruct (N.ltb_spec x y), (N.ltb_spec y x), (N.ltb_spec y z),
    (N.ltb_spec z y), (N.ltb_spec x z), (N.ltb_spec z x);
    try lia; try congruence; eauto.
Qed.

Lemma tuple_ltb_irrefl (a : list N) : tuple_ltb a a = false.
Proof.
  destruct (tuple_ltb a a) eqn:E; [|reflexivity].
  pose proof (tuple_ltb_asym _ _ E). congruence.
Qed.

(** ** The shape of a version token *)

Lemma plus_run {A : Type} (g : bool) (p : ascii -> bool) (s : string)
    (caps : Re.captures) (k : string -> Re.captures -> option A) (a : A) :
  Re.rmatch (Re.Plus g p) s caps k = Some a ->
  exists u s', s = u ++ s' /\ u <> "" /\ all_chars p u = true
               /\ k s' caps = Some a.
Proof.
  cbn [Re.Plus Re.rmatch]. destruct s as [|c s]; [discriminate|].
  destruct (p c) eqn:Hc; [|discriminate]. intros H.
  apply rep_run in H as [u [s' [-> [Hu Hs]]]].
  exists (String c u), s'. cbn [all_chars]. rewrite Hc.
  repeat split; [discriminate|assumption|assumption].
Qed.

Lemma lit_inv {A : Type} (l s : string) (caps : Re.captures)
    (k : string -> Re.captures -> option A) (a : A) :
  Re.rmatch (Re.Lit l) s caps k = Some a ->
  exists s', s = l ++ s' /\ k s' caps = Some a.
Proof.
  cbn [Re.rmatch]. destruct (Py.strip_prefix l s) as [s'|] eqn:E;
    [|discriminate].
  apply strip_prefix_inv in E. intros H. now exists s'.
Qed.

Lemma version_match_inv (s : string) (m : Re.mtch) :
  Re.match_at version_pattern s = Some m ->
  exists d1 d2 d3,
    Re.group m 1 = Some (d1 ++ String "." (d2 ++ String "." d3))
    /\ all_chars Re.digit d1 = true /\ all_chars Re.digit d2 = true
    /\ all_chars Re.digit d3 = true.
Proof.
  unfold Re.match_at, version_pattern. cbn [cat fold_right]. intros H.
  cbn [Re.rmatch] in H.
  destruct (Py.strip_prefix "v" s) as [s1|]; [|discriminate].
  change (Re.rmatch (Re.Plus true Re.digit) s1 []
    (fun s' caps' => Re.rmatch (Re.Lit ".") s' caps'
      (fun s'0 caps'0 => Re.rmatch (Re.Plus true Re.digit) s'0 caps'0
        (fun s'1 caps'1 => Re.rmatch (Re.Lit ".") s'1 caps'1
          (fun s'2 caps'2 => Re.rmatch (Re.Plus true Re.digit) s'2 caps'2
            (fun s'3 caps'3 =>
               Some (Re.Match (Re.consumed s s'3)
                              ((1, Re.consumed s1 s'3) :: caps'3)))))))
    = Some m) in H.
  apply plus_run in H as [d1 [t1 [-> [_ [H1 H]]]]].
  apply lit_inv in H as [t2 [-> H]].
  apply plus_run in H as [d2 [t3 [-> [_ [H2 H]]]]].
  apply lit_inv in H as [t4 [-> H]].
  apply plus_run in H as [d3 [t5 [-> [_ [H3 H]]]]].
  injection H as <-. exists d1, d2, d3. repeat split; try assumption.
  unfold Re.group. cbn [Re.groups Re.lookup Nat.eqb]. f_equal.
  etransitivity;
    [|apply (consumed_app (d1 ++ String "." (d2 ++ String "." d3)) t5)].
  f_equal. rewrite append_assoc. cbn [append]. now rewrite append_assoc.
Qed.

Lemma hits_matched (r : Re.regex) (m : Re.mtch) (s : string) :
  forall skip, In m (Re.hits (Re.scan r skip s)) ->
               exists t, Re.match_at r t = Some m.
Proof.
  induction s as [|c s IH]; intros skip H.
  - destruct skip; [|destruct H]. cbn [Re.scan] in H.
    destruct (Re.match_at r "") as [m'|] eqn:E; [|destruct H].
    destruct H as [<-|[]]. now exists "".
  - destruct skip as [|n]; [|now apply (IH n)]. cbn [Re.scan] in H.
    destruct (Re.match_at r (String c s)) as [m'|] eqn:E.
    + destruct H as [<-|H]; [now exists (String c s)|].
      destruct (String.length (Re.whole m')); eauto.
    + eauto.
Qed.

Lemma digits_dotless (d : string) : all_chars Re.digit d = true -> dotless d.
Proof.
  unfold dotless. induction d as [|c d IH]; [reflexivity|].
  cbn [all_chars Py.count]. intros H. apply andb_prop in H as [Hc Hd].
  rewrite (IH Hd). destruct (Ascii.eqb_spec c ".") as [->|]; [discriminate|].
  reflexivity.
Qed.

(** Every token found has three numbers. *)
Lemma found_version_release (content v : string) :
  In v (Re.findall1 version_pattern content) ->
  exists major minor patch, release v = [major; minor; patch].
Proof.
  unfold Re.findall1. intros H. apply in_map_iff in H as [m [<- H]].
  apply hits_matched in H as [t H].
  apply version_match_inv in H as [d1 [d2 [d3 [-> [H1 [H2 H3]]]]]].
  unfold release.
  rewrite split_dotless_app by now apply digits_dotless.
  rewrite split_dotless_app by now apply digits_dotless.
  rewrite split_dotless by now apply digits_dotless.
  cbn [map]. eauto.
Qed.

(** ** [find_latest_version] *)

Lemma sort_by_nil {A K : Type} (ltb : K -> K -> bool) (key : A -> K)
    (l : list A) :
  sort_by ltb key l = [] -> l = [].
Proof.
  destruct l as [|x l]; [reflexivity|]. intros E.
  assert (H : In x (sort_by ltb key (x :: l)))
    by (apply in_sort_by; now left).
  rewrite E in H. destruct H.
Qed.

Lemma set_iter_in (W : World) (l : list string) (v : string) :
  (forall l, Permutation (set_iter W l) (nodup string_dec l)) ->
  In v (set_iter W l) <-> In v l.
Proof.
  intros H. rewrite <- (nodup_In string_dec l v). split.
  - apply Permutation_in, H.
  - apply Permutation_in, Permutation_sym, H.
Qed.

(** C9.  On a text in which no character outside ASCII directly follows
    the letter v, a dot or a digit, and whatever order the set of the
    tokens is iterated in, [find_latest_version] returns a token than which
    no token is higher, the tokens compared number by number; it returns
    nothing when there is no token, and the title and the file name are
    then the fixed ones.  Every token has three numbers.  Among v1.2.0,
    v1.10.0 and v1.9.9 the function returns 1.10.0.  (A digit outside
    ASCII after the letter v makes a token on which [version.parse]
    raises: such texts are left out here.) *)
Theorem latest_version_is_highest (W : World) (html_content : string) :
  (forall l, Permutation (set_iter W l) (nodup string_dec l)) ->
  ascii_digits html_content = true ->
  let versions := Re.findall1 version_pattern html_content in
  match find_latest_version W html_content with
  | Some v =>
      In v versions
      /\ forall w, In w versions -> numeric_ltb (release v) (release w) = false
  | None =>
      versions = [] /\ title_and_filename W html_content = fallback_names
  end
  /\ (forall w, In w versions ->
                exists major minor patch, release w = [major; minor; patch])
  /\ find_latest_version W three_versions = Some "1.10.0".
Proof.
  intros Hset _.
  assert (G : forall content,
    match find_latest_version W content with
    | Some v =>
        In v (Re.findall1 version_pattern content)
        /\ forall w, In w (Re.findall1 version_pattern content) ->
                     numeric_ltb (release v) (release w) = false
    | None =>
        Re.findall1 version_pattern content = []
        /\ title_and_filename W content = fallback_names
    end).
  { intros content. unfold title_and_filename.
    unfold find_latest_version, sorted_reverse.
    destruct (sort_by _ _ _) as [|v rest] eqn:E.
    - split; [|reflexivity]. apply sort_by_nil in E.
      destruct (Re.findall1 version_pattern content) as [|x l];
        [reflexivity|].
      assert (H : In x (set_iter W (x :: l)))
        by (apply set_iter_in; [assumption|now left]).
      rewrite E in H. destruct H.
    - apply sort_by_head in E as [Hin Hmax].
      + split; [now apply (set_iter_in W _ v Hset)|].
        intros w Hw. apply (set_iter_in W _ w Hset) in Hw.
        rewrite <- version_order.
        destruct (Hmax w Hw) as [H| ->]; [exact H|apply tuple_ltb_irrefl].
      + intros a b. apply tuple_ltb_asym.
      + intros a b c H1 H2. now apply tuple_geb_trans with (b := b). }
  cbv zeta. split; [apply G|].
  split; [intros w; apply found_version_release|].
  specialize (G three_versions).
  destruct (find_latest_version W three_versions) as [v|].
  - destruct G as [Hin Hmax].
    change (Re.findall1 version_pattern three_versions)
      with ["1.2.0"; "1.10.0"; "1.9.9"] in Hin, Hmax.
    destruct Hin as [<-|[<-|[<-|[]]]].
    + specialize (Hmax "1.10.0" (or_intror (or_introl eq_refl))).
      discriminate.
    + reflexivity.
    + specialize (Hmax "1.10.0" (or_intror (or_introl eq_refl))).
      discriminate.
  - destruct G as [G _]. discriminate.
Qed.

Lemma latest_version_of_three :
  find_latest_version version_world three_versions = Some "1.10.0".
Proof.
  apply (latest_version_is_highest version_world three_versions).
  - intros l. apply Permutation_refl.
  - reflexivity.
Defined.

(** * Further properties of the functions *)

(** ** Strings, numerals and matches *)

Lemma all_chars_app (p : ascii -> bool) (a b : string) :
  all_chars p (a ++ b) = all_chars p a && all_chars p b.
Proof.
  induction a as [|c a IH]; [reflexivity|]. cbn [append all_chars].
  now rewrite IH, andb_assoc.
Qed.

Lemma all_chars_impl (p q : ascii -> bool) (s : string) :
  (forall c, p c = true -> q c = true) ->
  all_chars p s = true -> all_chars q s = true.
Proof.
  intros H. induction s as [|c s IH]; [reflexivity|]. cbn [all_chars].
  intros E. apply andb_prop in E. destruct E as [Hc Hs].
  now rewrite (H c Hc), IH.
Qed.

Lemma contains_suffix_true (n u v : string) :
  Py.startswith v n = true -> contains n (u ++ v) = true.
Proof.
  intros H. destruct (contains n (u ++ v)) eqn:E; [reflexivity|].
  apply contains_suffix, contains_head in E. congruence.
Qed.

(** A numeral is read back as its number, and is made of digits. *)
Lemma str_of_nat_inj (m n : nat) : Py.str_of_nat m = Py.str_of_nat n -> m = n.
Proof.
  unfold Py.str_of_nat. intros H.
  assert (N : forall k, Nat.to_uint k <> Decimal.Nil).
  { intros k E. assert (E' := f_equal Nat.of_uint E).
    rewrite Unsigned.of_to in E'. simpl in E'. subst k. discriminate E. }
  apply (f_equal NilZero.uint_of_string) in H.
  rewrite !NilZero.usu in H by apply N.
  injection H as H. apply (f_equal Nat.of_uint) in H.
  now rewrite !Unsigned.of_to in H.
Qed.

Lemma map_str_of_nat_inj (l1 l2 : list nat) :
  map Py.str_of_nat l1 = map Py.str_of_nat l2 -> l1 = l2.
Proof.
  revert l2; induction l1 as [|x l1 IH]; intros [|y l2] H; simpl in H;
    try discriminate; auto.
  injection H as Hx Hl. f_equal; [now apply str_of_nat_inj|now apply IH].
Qed.

Lemma numeral_digits (u : Decimal.uint) :
  all_chars Re.digit (NilEmpty.string_of_uint u) = true.
Proof. induction u; simpl; auto. Qed.

Lemma str_of_nat_digits (n : nat) :
  all_chars Re.digit (Py.str_of_nat n) = true.
Proof.
  unfold Py.str_of_nat, NilZero.string_of_uint.
  destruct (Nat.to_uint n) eqn:E; try reflexivity;
    rewrite <- E; apply numeral_digits.
Qed.

Lemma digit_plain (c : ascii) :
  Re.digit c = true -> not_lt c = true /\ Ascii.eqb c ">" = false.
Proof.
  destruct c as [[] [] [] [] [] [] [] []]; try discriminate; auto.
Qed.

(** The lines of a text, split at its line feeds. *)
Lemma split_line (a : string) :
  one_line a = true -> Py.split Py.LF a = [a].
Proof.
  unfold one_line, Re.dot, Re.not_char.
  induction a as [|c a IH]; simpl; auto.
  destruct (Ascii.eqb c Py.LF); [discriminate|]. simpl. intros H.
  now rewrite IH.
Qed.

Lemma split_line_app (a b : string) :
  one_line a = true ->
  Py.split Py.LF (a ++ String Py.LF b) = a :: Py.split Py.LF b.
Proof.
  unfold one_line, Re.dot, Re.not_char.
  induction a as [|c a IH]; simpl.
  - reflexivity.
  - destruct (Ascii.eqb c Py.LF); [discriminate|]. simpl. intros H.
    now rewrite IH.
Qed.

Lemma split_text (ls : list string) :
  ls <> [] -> forallb one_line ls = true -> Py.split Py.LF (text ls) = ls.
Proof.
  induction ls as [|l ls IH]; [congruence|]. intros _ H.
  simpl in H. apply andb_prop in H. destruct H as [Hl Hls].
  destruct ls as [|l' ls].
  - simpl. now apply split_line.
  - change (text (l :: l' :: ls)) with (l ++ String Py.LF (text (l' :: ls))).
    rewrite split_line_app by assumption. f_equal. apply IH; congruence.
Qed.

(** What a sequence of patterns leaves to its second part, and where a
    pattern that opens with a literal can match. *)
Lemma rmatch_seq_suffix {A : Type} (r1 r2 : Re.regex) (s : string)
    (caps : Re.captures) (k : string -> Re.captures -> option A) (a : A) :
  Re.rmatch (Re.Seq r1 r2) s caps k = Some a ->
  exists u s' caps', s = u ++ s' /\ Re.rmatch r2 s' caps' k = Some a.
Proof. cbn [Re.rmatch]. apply rmatch_suffix. Qed.

Lemma rmatch_lit_head {A : Type} (l : string) (r : Re.regex) (s : string)
    (caps : Re.captures) (k : string -> Re.captures -> option A) (a : A) :
  Re.rmatch (Re.Seq (Re.Lit l) r) s caps k = Some a ->
  Py.startswith s l = true.
Proof.
  intros H. destruct (Py.startswith s l) eqn:E; [reflexivity|].
  change (Re.rmatch (Re.Lit l) s caps
            (fun s' caps' => Re.rmatch r s' caps' k) = Some a) in H.
  rewrite lit_miss in H by assumption. discriminate.
Qed.

(** A lazy repetition fails when what follows it fails at every place the
    repetition can reach. *)
Lemma rep_lazy_none {A : Type} (p : ascii -> bool) (u s : string)
    (k : string -> option A) :
  stops p s = true ->
  (forall v w, u = v ++ w -> k (w ++ s) = None) ->
  Re.rep false p (u ++ s) k = None.
Proof.
  intros Hs. induction u as [|c u IH]; intros H.
  - cbn [append]. assert (K := H "" "" eq_refl). cbn [append] in K.
    destruct s as [|c s]; [exact K|]. cbn [stops] in Hs.
    apply negb_true_iff in Hs. cbn [Re.rep]. now rewrite Hs.
  - cbn [append Re.rep]. assert (K := H "" (String c u) eq_refl).
    cbn [append] in K. rewrite K.
    rewrite IH; [now destruct (p c)|].
    intros v w ->. apply (H (String c v) w). reflexivity.
Qed.

Lemma glue_st_chrs {S : Type} (repl : S -> Re.mtch -> S * string) (st : S)
    (w : string) (ps : list Re.piece) :
  Re.glue_st repl st (chrs w ++ ps)%list
  = (fst (Re.glue_st repl st ps), w ++ snd (Re.glue_st repl st ps)).
Proof.
  induction w as [|c w IH]; simpl.
  - now destruct (Re.glue_st repl st ps).
  - rewrite IH. reflexivity.
Qed.

Lemma glue_st_hit {S : Type} (repl : S -> Re.mtch -> S * string) (st : S)
    (m : Re.mtch) (ps : list Re.piece) :
  Re.glue_st repl st (Re.Hit m :: ps)
  = (fst (Re.glue_st repl (fst (repl st m)) ps),
     snd (repl st m) ++ snd (Re.glue_st repl (fst (repl st m)) ps)).
Proof.
  cbn [Re.glue_st]. destruct (repl st m) as [st1 text]. cbn [fst snd].
  now destruct (Re.glue_st repl st1 ps).
Qed.

Lemma dict_set_fresh {V : Type} (k : string) (v : V) (d : dict V) :
  ~ In k (dict_keys d) -> dict_set k v d = (d ++ [(k, v)])%list.
Proof.
  induction d as [|[k' v'] d IH]; intros H; simpl; [reflexivity|].
  simpl in H. destruct (String.eqb_spec k' k) as [->|_]; [tauto|].
  rewrite IH; tauto.
Qed.

(** ** [process_image_paths]: a value that spans lines *)

Lemma quote_after_path (u w rest : string) :
  all_chars path_char (u ++ w) = true ->
  Py.strip_prefix Py.dquote (w ++ String Py.LF rest) = None.
Proof.
  intros H. rewrite all_chars_app in H.
  apply andb_prop in H. destruct H as [_ H].
  destruct w as [|c w]; [reflexivity|]. cbn [all_chars] in H.
  apply andb_prop in H. destruct H as [Hc _]. unfold path_char in Hc.
  apply andb_prop in Hc. destruct Hc as [Hc _].
  apply negb_true_iff in Hc.
  cbn [append Py.strip_prefix Py.dquote]. rewrite Ascii.eqb_sym.
  now rewrite Hc.
Qed.

Lemma head_miss (dark : bool) (u rest : string) :
  all_chars path_char u = true ->
  Re.match_at image_pattern (theme_head dark ++ u ++ String Py.LF rest) = None.
Proof.
  intros Hu. unfold Re.match_at, image_pattern. cbn [cat fold_right].
  destruct dark; cbn [theme_head].
  - change (dark_head ++ u ++ String Py.LF rest)
      with ("src" ++ "Dark" ++ ("=" ++ Py.dquote) ++ u ++ String Py.LF rest).
    cbn [Re.rmatch]. rewrite strip_prefix_app.
    change (Py.strip_prefix "Light"
              ("Dark" ++ ("=" ++ Py.dquote) ++ u ++ String Py.LF rest))
      with (@None string).
    rewrite strip_prefix_app, strip_prefix_app.
    apply rep_lazy_none; [reflexivity|].
    intros v w ->. now rewrite (quote_after_path v w rest Hu).
  - change (light_head ++ u ++ String Py.LF rest)
      with ("src" ++ "Light" ++ ("=" ++ Py.dquote) ++ u ++ String Py.LF rest).
    cbn [Re.rmatch]. rewrite strip_prefix_app.
    change (Py.strip_prefix "Dark"
              ("Light" ++ ("=" ++ Py.dquote) ++ u ++ String Py.LF rest))
      with (@None string).
    rewrite strip_prefix_app, strip_prefix_app.
    rewrite rep_lazy_none; [reflexivity|reflexivity|].
    intros v w ->. now rewrite (quote_after_path v w rest Hu).
Qed.

Lemma not_s_miss (c : ascii) (s : string) :
  not_s c = true -> Re.match_at image_pattern (String c s) = None.
Proof.
  intros H. unfold not_s in H. apply negb_true_iff in H.
  apply image_miss; unfold Py.startswith, light_head, dark_head;
    cbn [append Py.strip_prefix]; rewrite Ascii.eqb_sym; now rewrite H.
Qed.

Lemma scan_not_s (w s : string) :
  all_chars not_s w = true ->
  Re.scan image_pattern 0 (w ++ s)
  = (chrs w ++ Re.scan image_pattern 0 s)%list.
Proof.
  intros H. apply scan_misses. intros u v -> Hv.
  destruct v as [|c v]; [congruence|]. apply not_s_miss.
  rewrite all_chars_app in H. apply andb_prop in H. destruct H as [_ H].
  cbn [all_chars] in H. now apply andb_prop in H.
Qed.

Lemma head_not_across (h v rest : string) :
  quote_ended h = true -> all_chars path_char v = true ->
  Py.strip_prefix h (v ++ String Py.LF rest) = None.
Proof.
  revert h; induction v as [|c v IH]; intros h Hh Hv.
  - destruct h as [|a h]; [discriminate|]. cbn [append Py.strip_prefix].
    destruct (Ascii.eqb_spec a Py.LF) as [->|]; [|reflexivity].
    destruct h; discriminate.
  - destruct h as [|a h]; [discriminate|]. cbn [append Py.strip_prefix].
    cbn [all_chars] in Hv. apply andb_prop in Hv. destruct Hv as [Hc Hv].
    destruct (Ascii.eqb_spec a c) as [->|]; [|reflexivity].
    apply IH; [|assumption]. destruct h as [|b h].
    + cbn [quote_ended] in Hh. unfold path_char in Hc.
      rewrite Hh in Hc. discriminate.
    + cbn [quote_ended] in Hh. apply andb_prop in Hh. now destruct Hh.
Qed.

Lemma scan_path_line (u rest : string) :
  all_chars path_char u = true ->
  Re.scan image_pattern 0 ((u ++ Py.newline) ++ rest)
  = (chrs (u ++ Py.newline) ++ Re.scan image_pattern 0 rest)%list.
Proof.
  intros H. apply scan_misses. intros a v E Hv.
  assert (S : exists v', v = v' ++ Py.newline
                         /\ all_chars path_char v' = true).
  { revert a E. induction u as [|c u IH]; intros a E.
    - destruct a as [|d a]; cbn [append] in E.
      + exists "". split; [now subst v|reflexivity].
      + unfold Py.newline in E. injection E as _ E.
        destruct a; [|discriminate]. cbn [append] in E. subst v.
        congruence.
    - cbn [all_chars] in H. apply andb_prop in H. destruct H as [Hc Hu].
      destruct a as [|d a]; cbn [append] in E.
      + exists (String c u). split; [now subst v|].
        cbn [all_chars]. now rewrite Hc, Hu.
      + injection E as _ E. now apply (IH Hu a). }
  destruct S as [v' [-> Hp]].
  rewrite append_assoc. cbn [append Py.newline].
  apply image_miss; unfold Py.startswith;
    now rewrite head_not_across.
Qed.

(** X1.  A themed attribute whose value runs into a line feed before its
    closing quote is not rewritten: the opening, the value up to the line
    feed and the line feed are copied, and the rewrite goes on with the
    text after them.  (The dot of the pattern does not cross a line end.) *)
Theorem image_path_spanning_lines (C : Config) (dark : bool)
    (u rest : string) :
  all_chars path_char u = true ->
  process_image_paths C (theme_head dark ++ u ++ Py.newline ++ rest)
  = theme_head dark ++ u ++ Py.newline ++ process_image_paths C rest.
Proof.
  intros H. unfold process_image_paths, Re.sub.
  assert (E : theme_head dark ++ u ++ Py.newline ++ rest
              = String "s" (Py.drop 1 (theme_head dark)
                            ++ (u ++ Py.newline) ++ rest)).
  { destruct dark; cbn; now rewrite !append_assoc. }
  rewrite E at 1. rewrite scan_miss.
  - rewrite scan_not_s by now destruct dark.
    rewrite scan_path_line by assumption.
    cbn [Re.glue]. rewrite !glue_app, !glue_chrs.
    destruct dark; cbn; now rewrite !append_assoc.
  - rewrite <- E. apply head_miss. exact H.
Qed.

Lemma image_path_spanning_lines_png :
  process_image_paths main_config
    (text ["srcDark=" ++ Py.dquote ++ "/b";
           ".png" ++ Py.dquote ++ " " ++ attr "srcDark" "/c.png"])
  = text ["srcDark=" ++ Py.dquote ++ "/b";
          ".png" ++ Py.dquote ++ " "
            ++ attr "src"
                 "https://nextjs.org/_next/image?url=/c.png&w=1920&q=75"].
Proof.
  exact (image_path_spanning_lines main_config true "/b"
           (".png" ++ Py.dquote ++ " " ++ attr "srcDark" "/c.png") eq_refl).
Defined.

(** ** [preprocess_code_blocks]: no language, no filename *)

Lemma no_language {A : Type} (ws s : string) (caps : Re.captures)
    (k : string -> Re.captures -> option A) :
  nonempty ws = true -> all_chars Re.space ws = true ->
  Re.rmatch (Re.Grp 1 (Re.Plus true Re.word)) (ws ++ s) caps k = None.
Proof.
  destruct ws as [|c ws]; [discriminate|]. intros _ H. simpl in H.
  apply andb_prop in H. destruct H as [Hc _].
  cbn [Re.rmatch Re.Plus append]. now rewrite (space_not_word c Hc).
Qed.

Lemma bare_block_consumes (ws1 filename ws2 code rest : string)
    (switcher : bool) :
  bare_block_ok ws1 filename ws2 code = true ->
  consumes code_pattern
    (fence ++ ws1 ++ ("filename=" ++ Py.dquote) ++ filename
       ++ Py.dquote ++ ws2 ++ (if switcher then "switcher" else "")
       ++ Py.newline ++ code ++ fence ++ rest)
    rest [] (bare_groups filename code switcher).
Proof.
  unfold bare_block_ok. intros H.
  repeat (apply andb_prop in H as [H ?]).
  unfold code_pattern. cbn [cat fold_right].
  eapply consumes_seq; [apply consumes_lit|].
  eapply consumes_seq.
  { apply consumes_alt_r; [|apply consumes_eps].
    intros A k. now apply no_language. }
  eapply consumes_seq.
  { apply consumes_plus_greedy; [assumption|assumption|reflexivity]. }
  eapply consumes_seq; [apply consumes_lit|].
  eapply consumes_seq.
  { apply consumes_grp, consumes_plus_greedy;
      [assumption|assumption|reflexivity]. }
  eapply consumes_seq; [apply consumes_lit|].
  apply tail_consumes; [assumption|assumption|].
  now apply negb_true_iff.
Qed.

Lemma bare_block_match (ws1 filename ws2 code rest : string)
    (switcher : bool) :
  bare_block_ok ws1 filename ws2 code = true ->
  Re.match_at code_pattern
    (code_block "" ws1 filename ws2 switcher code ++ rest)
  = Some (Re.Match (code_block "" ws1 filename ws2 switcher code)
                   (bare_groups filename code switcher)).
Proof.
  intros H. unfold Re.match_at.
  set (block := code_block "" ws1 filename ws2 switcher code).
  assert (E : block ++ rest
              = fence ++ ws1 ++ ("filename=" ++ Py.dquote) ++ filename
                  ++ Py.dquote ++ ws2 ++ (if switcher then "switcher" else "")
                  ++ Py.newline ++ code ++ fence ++ rest).
  { unfold block, code_block. now rewrite !append_assoc. }
  rewrite E at 1.
  apply (bare_block_consumes ws1 filename ws2 code rest switcher H).
  now rewrite consumed_app.
Qed.

(** X3.  An annotated block that names no language (whitespace follows the
    fence at once), and whose code has an ASCII character after the blanks
    it starts with, is replaced by a header that holds the filename alone,
    a fence without a language, and its code unchanged; the marker
    switcher is dropped, and the text after the block is rewritten in
    turn. *)
Theorem code_block_without_language (ws1 filename ws2 code rest : string)
    (switcher : bool) :
  bare_block_ok ws1 filename ws2 code = true ->
  ascii_start code = true ->
  preprocess_code_blocks (code_block "" ws1 filename ws2 switcher code ++ rest)
  = text ["<div " ++ attr "class" "code-header" ++ "><i>" ++ filename
            ++ "</i></div>";
          fence; code; fence]
    ++ preprocess_code_blocks rest.
Proof.
  intros H _. unfold preprocess_code_blocks, Re.sub.
  rewrite (scan_hit_text code_pattern _ rest
             (Re.Match (code_block "" ws1 filename ws2 switcher code)
                       (bare_groups filename code switcher))).
  - cbn [Re.glue]. f_equal.
    unfold code_replace, Re.group, bare_groups.
    cbn [Re.groups]. destruct switcher; cbn; now rewrite ?append_assoc.
  - reflexivity.
  - now apply bare_block_match.
  - reflexivity.
Qed.

Lemma code_block_without_language_switcher :
  preprocess_code_blocks bare_block
  = text ["<div " ++ attr "class" "code-header" ++ "><i>a.js</i></div>";
          fence; "console.log(1)"; ""; fence].
Proof.
  exact (code_block_without_language " " "a.js" " "
           (text ["console.log(1)"; ""]) "" true eq_refl eq_refl).
Defined.

Lemma code_match_filename (s : string) (m : Re.mtch) :
  Re.match_at code_pattern s = Some m -> contains filename_head s = true.
Proof.
  unfold Re.match_at, code_pattern. cbn [cat fold_right]. intros H.
  apply rmatch_seq_suffix in H. destruct H as [u0 [s0 [c0 [-> H]]]].
  apply rmatch_seq_suffix in H. destruct H as [u1 [s1 [c1 [-> H]]]].
  apply rmatch_seq_suffix in H. destruct H as [u2 [s2 [c2 [-> H]]]].
  apply rmatch_lit_head in H.
  rewrite <- !append_assoc. now apply contains_suffix_true.
Qed.

(** X4.  A text in which the opening of a filename attribute occurs nowhere
    is returned unchanged: fenced blocks without a filename are left as
    they are. *)
Theorem code_blocks_need_filename (md_content : string) :
  contains filename_head md_content = false ->
  preprocess_code_blocks md_content = md_content.
Proof.
  intros H. apply sub_all_miss. intros u v ->.
  destruct (Re.match_at code_pattern v) as [m|] eqn:E; [|reflexivity].
  apply code_match_filename in E.
  apply (contains_suffix _ u v) in H. congruence.
Qed.

Lemma code_blocks_need_filename_plain :
  preprocess_code_blocks plain_block = plain_block.
Proof. exact (code_blocks_need_filename plain_block eq_refl). Defined.

(** ** [preprocess_mdx_content]: what a tag becomes *)

Lemma escape_word (name : string) :
  all_chars Re.word name = true -> flat escape_char name = name.
Proof.
  induction name as [|c name IH]; simpl; [reflexivity|].
  intros H. apply andb_prop in H. destruct H as [Hc Hn].
  rewrite IH by assumption.
  assert (E : escape_char c = String c "").
  { destruct c as [[] [] [] [] [] [] [] []]; try reflexivity;
      discriminate Hc. }
  now rewrite E.
Qed.

Lemma escape_mdx_tag (closing : bool) (name : string) :
  all_chars Re.word name = true ->
  Py.html_escape (mdx_tag closing name) = escaped_tag closing name.
Proof.
  intros H. rewrite html_escape_flat. unfold mdx_tag, escaped_tag.
  rewrite !flat_app, (escape_word name H). now destruct closing.
Qed.

Lemma mdx_tag_match (closing : bool) (name rest : string) :
  nonempty name = true -> all_chars Re.word name = true ->
  Re.match_at mdx_tag_pattern (mdx_tag closing name ++ rest)
  = Some (Re.Match (mdx_tag closing name) [(1, slash closing ++ name)]).
Proof.
  intros Hn Hw. unfold Re.match_at.
  assert (E : mdx_tag closing name ++ rest
              = "<" ++ (slash closing ++ name) ++ ">" ++ rest).
  { unfold mdx_tag. now rewrite !append_assoc. }
  rewrite E at 1.
  assert (C : consumes mdx_tag_pattern
                ("<" ++ (slash closing ++ name) ++ ">" ++ rest) rest []
                [(1, slash closing ++ name)]).
  { unfold mdx_tag_pattern. cbn [cat fold_right].
    eapply consumes_seq; [apply consumes_lit|].
    eapply consumes_seq.
    { apply consumes_grp. destruct closing; unfold slash.
      - eapply consumes_seq.
        + apply consumes_alt_l. rewrite append_assoc.
          apply (consumes_lit "/").
        + eapply consumes_seq; [|apply consumes_eps].
          apply consumes_plus_greedy; [assumption|assumption|reflexivity].
      - change ("" ++ name) with name. eapply consumes_seq.
        + apply consumes_alt_r; [|apply consumes_eps].
          intros A k. apply lit_miss. destruct name as [|c name];
            [discriminate|]. simpl in Hw. apply andb_prop in Hw.
          destruct Hw as [Hc _].
          destruct c as [[] [] [] [] [] [] [] []]; try reflexivity;
            discriminate Hc.
        + eapply consumes_seq; [|apply consumes_eps].
          apply consumes_plus_greedy; [assumption|assumption|reflexivity]. }
    eapply consumes_seq; [apply (consumes_lit ">")|apply consumes_eps]. }
  apply C. now rewrite consumed_app.
Qed.

(** X5.  After a stretch without an opening bracket, an opening or closing
    tag whose name is made of word characters is replaced by the same tag
    with its brackets written as entities; the stretch is copied and the
    text after the tag is rewritten in turn. *)
Theorem mdx_tag_escaped (pre name rest : string) (closing : bool) :
  all_chars not_lt pre = true ->
  nonempty name = true -> all_chars Re.word name = true ->
  preprocess_mdx_content (pre ++ mdx_tag closing name ++ rest)
  = pre ++ escaped_tag closing name ++ preprocess_mdx_content rest.
Proof.
  intros Hp Hn Hw. unfold preprocess_mdx_content, Re.sub.
  rewrite scan_misses.
  - rewrite glue_app, glue_chrs. f_equal.
    rewrite (scan_hit_text mdx_tag_pattern _ rest
               (Re.Match (mdx_tag closing name) [(1, slash closing ++ name)])).
    + cbn [Re.glue Re.whole]. now rewrite escape_mdx_tag.
    + reflexivity.
    + now apply mdx_tag_match.
    + reflexivity.
  - intros u v -> Hv. destruct v as [|c v]; [congruence|].
    apply tag_miss. clear Hv. induction u as [|d u IH]; simpl in Hp.
    + apply andb_prop in Hp. destruct Hp as [Hc _].
      unfold not_lt in Hc. now apply negb_true_iff in Hc.
    + apply andb_prop in Hp. destruct Hp as [_ Hp]. now apply IH.
Qed.

Lemma mdx_tag_escaped_bold :
  preprocess_mdx_content "a <b>bold</b>"
  = "a &lt;b&gt;" ++ preprocess_mdx_content "bold</b>".
Proof.
  exact (mdx_tag_escaped "a " "b" "bold</b>" false eq_refl eq_refl eq_refl).
Defined.

Lemma tag_free_suffix (u v : string) :
  tag_free (u ++ v) = true -> Re.match_at mdx_tag_pattern v = None.
Proof.
  induction u as [|c u IH]; simpl.
  - intros H. destruct v as [|c v]; [reflexivity|]. cbn [tag_free] in H.
    destruct (Re.match_at mdx_tag_pattern (String c v));
      [discriminate|reflexivity].
  - destruct (Re.match_at mdx_tag_pattern (String c (u ++ v)));
      [discriminate|exact IH].
Qed.

Lemma mdx_tag_free (s : string) :
  tag_free s = true -> preprocess_mdx_content s = s.
Proof.
  intros H. apply sub_all_miss. intros u v ->. now apply (tag_free_suffix u).
Qed.

(** X6.  Applying [preprocess_mdx_content] to its own result changes
    nothing: the entities it writes are not escaped again. *)
Theorem preprocess_mdx_content_idempotent (md_content : string) :
  preprocess_mdx_content (preprocess_mdx_content md_content)
  = preprocess_mdx_content md_content.
Proof.
  apply mdx_tag_free. unfold preprocess_mdx_content, Re.sub.
  exact (out_tag_free md_content 0).
Qed.

(** ** [parse_frontmatter]: a frontmatter that is closed *)

Lemma index_from_found (x : string) (start pos : nat)
    (front rest : list string) :
  start <= pos ->
  forallb (fun l => negb (String.eqb l x)) front = true ->
  index_from x start pos (front ++ x :: rest)%list
  = Ok (pos + List.length front).
Proof.
  revert pos; induction front as [|l front IH]; intros pos Hp H; simpl.
  - rewrite (proj2 (Nat.leb_le _ _) Hp), String.eqb_refl. simpl.
    f_equal. lia.
  - simpl in H. apply andb_prop in H. destruct H as [Hl Hf].
    destruct (String.eqb l x); [discriminate|]. rewrite andb_false_r.
    rewrite IH by (auto; lia). f_equal. lia.
Qed.

(** X7.  When the first line of a text is the delimiter, possibly with
    whitespace around it, the frontmatter is the lines up to the first
    later line that is exactly the delimiter, and the content is the lines
    after that line; both are joined by line feeds again.  A line that
    holds the delimiter and whitespace does not close the frontmatter. *)
Theorem parse_frontmatter_closed (first : string) (front body : list string) :
  Py.strip first = "---" ->
  forallb one_line (first :: front ++ body)%list = true ->
  forallb not_delimiter front = true ->
  parse_frontmatter (text (first :: front ++ "---" :: body)%list)
  = Ok (Some (text front), text body).
Proof.
  intros Hs Hl Hf. unfold parse_frontmatter.
  rewrite split_text; [|discriminate|].
  - cbn [hd]. rewrite Hs. cbn [String.eqb Ascii.eqb Bool.eqb].
    cbn [index_from Nat.leb andb].
    rewrite (index_from_found "---" 1 1 front body (le_n 1) Hf).
    cbn [bind]. repeat f_equal.
    + cbn [skipn].
      replace (1 + List.length front - 1) with (List.length front + 0) by lia.
      now rewrite firstn_app_2, firstn_O, app_nil_r.
    + replace (1 + List.length front + 1)
        with (S (List.length (front ++ ["---"])%list)).
      * cbn [skipn].
        change (front ++ "---" :: body)%list
          with (front ++ ["---"] ++ body)%list.
        rewrite app_assoc. now rewrite skipn_app, skipn_all, Nat.sub_diag.
      * rewrite length_app. simpl. lia.
  - cbn [forallb] in *. apply andb_prop in Hl. destruct Hl as [H1 H2].
    rewrite H1. cbn [andb]. rewrite forallb_app in *.
    apply andb_prop in H2. destruct H2 as [H2 H3]. rewrite H2. cbn.
    exact H3.
Qed.

Lemma parse_frontmatter_closed_doc :
  parse_frontmatter closed_doc
  = Ok (Some (text ["title: x"; "--- "]), text ["Body"; "---"; ""]).
Proof.
  exact (parse_frontmatter_closed "--- " ["title: x"; "--- "]
           ["Body"; "---"; ""] eq_refl eq_refl eq_refl).
Defined.

(** ** [get_files_sorted]: every file, in order *)

Lemma insert_by_perm {A K : Type} (ltb : K -> K -> bool) (key : A -> K)
    (x : A) (l : list A) :
  Permutation (insert_by ltb key x l) (x :: l).
Proof.
  induction l as [|y l IH]; simpl; [reflexivity|].
  destruct (ltb (key y) (key x)); [|reflexivity].
  rewrite IH. apply perm_swap.
Qed.

Lemma sort_by_perm {A K : Type} (ltb : K -> K -> bool) (key : A -> K)
    (l : list A) :
  Permutation (sort_by ltb key l) l.
Proof.
  induction l as [|x l IH]; simpl; [reflexivity|].
  rewrite insert_by_perm. now constructor.
Qed.

Lemma walk_entries_paths (walk : list (string * list string)) :
  map fst (walk_entries walk) = walk_paths walk.
Proof.
  unfold walk_entries, walk_paths.
  induction walk as [|d walk IH]; simpl; [reflexivity|].
  rewrite map_app, IH, map_map. reflexivity.
Qed.

(** X8.  The list returned by [get_files_sorted] holds the full path of
    every file of the walk, each as often as the walk gives it, and nothing
    else. *)
Theorem get_files_sorted_permutation (W : World) (root_dir : string) :
  Permutation (get_files_sorted W root_dir) (walk_paths (os_walk W root_dir)).
Proof.
  unfold get_files_sorted. rewrite <- walk_entries_paths.
  apply Permutation_map, sort_by_perm.
Qed.

Lemma sorted_map {A B : Type} (R : A -> A -> Prop) (R' : B -> B -> Prop)
    (f : A -> B) (l : list A) :
  (forall x y, In x l -> In y l -> R x y -> R' (f x) (f y)) ->
  StronglySorted R l -> StronglySorted R' (map f l).
Proof.
  intros H S. induction S as [|x l S IH F]; simpl; constructor.
  - apply IH. intros a b Ha Hb. apply H; now right.
  - apply Forall_forall. intros b Hb. apply in_map_iff in Hb.
    destruct Hb as [y [<- Hy]]. apply H; [now left|now right|].
    rewrite Forall_forall in F. now apply F.
Qed.

Lemma no_index_entries (walk : list (string * list string))
    (e : string * string) :
  no_index walk = true -> In e (walk_entries walk) -> snd e = fst e.
Proof.
  unfold no_index, walk_entries. intros H He.
  apply in_flat_map in He. destruct He as [d [Hd He]].
  apply in_map_iff in He. destruct He as [file [<- Hf]].
  rewrite forallb_forall in H. specialize (H d Hd).
  rewrite forallb_forall in H. specialize (H file Hf).
  simpl. unfold sort_key. now destruct (is_index file).
Qed.

(** X9.  In a tree without index documents the paths are returned in the
    order of strings: no path is followed by a smaller one. *)
Theorem get_files_sorted_ordered (W : World) (root_dir : string) :
  no_index (os_walk W root_dir) = true ->
  StronglySorted (fun p q => String.ltb q p = false)
                 (get_files_sorted W root_dir).
Proof.
  intros H. unfold get_files_sorted.
  apply (sorted_map (not_after String.ltb snd)).
  - intros x y Hx Hy. unfold not_after.
    apply in_sort_by in Hx, Hy.
    now rewrite (no_index_entries _ _ H Hx), (no_index_entries _ _ H Hy).
  - apply sort_by_sorted.
    + apply string_ltb_asym.
    + apply string_geb_trans.
Qed.

Lemma get_files_sorted_ordered_docs :
  StronglySorted (fun p q => String.ltb q p = false)
                 ["docs/a.md"; "docs/a/c.md"; "docs/a/z.md"; "docs/b.md"].
Proof.
  exact (get_files_sorted_ordered (tree_world plain_walk) "docs" eq_refl).
Defined.

Lemma string_ltb_antisym (a b : string) :
  String.ltb a b = false -> String.ltb b a = false -> a = b.
Proof.
  unfold String.ltb. intros H1 H2. apply String.compare_eq_iff.
  rewrite String.compare_antisym in H2.
  destruct (String.compare a b); simpl in *; congruence.
Qed.

Lemma key_determines {A K : Type} (key : A -> K) (l : list A) (x y : A) :
  NoDup (map key l) -> In x l -> In y l -> key x = key y -> x = y.
Proof.
  induction l as [|z l IH]; [intros _ []|]. cbn [map]. intros N Hx Hy E.
  inversion N as [|? ? Hz N']; subst.
  destruct Hx as [->|Hx], Hy as [->|Hy]; auto.
  - elim Hz. rewrite E. now apply in_map.
  - elim Hz. rewrite <- E. now apply in_map.
Qed.

(** Two sorted lists with the same elements are the same list, when no two
    elements are each before the other. *)
Lemma sorted_permutation_eq {A : Type} (R : A -> A -> Prop) (l1 : list A) :
  forall l2,
  (forall x y, In x l1 -> In y l1 -> R x y -> R y x -> x = y) ->
  StronglySorted R l1 -> StronglySorted R l2 -> Permutation l1 l2 ->
  l1 = l2.
Proof.
  induction l1 as [|x l1 IH]; intros l2 Ha S1 S2 P.
  - apply Permutation_nil in P. now subst.
  - destruct l2 as [|y l2].
    + apply Permutation_sym, Permutation_nil in P. discriminate.
    + inversion S1 as [|? ? S1' F1]; subst.
      inversion S2 as [|? ? S2' F2]; subst.
      rewrite Forall_forall in F1, F2.
      assert (E : x = y).
      { assert (Hx : In x (y :: l2))
          by (apply (Permutation_in x P); now left).
        assert (Hy : In y (x :: l1))
          by (apply (Permutation_in y (Permutation_sym P)); now left).
        destruct Hx as [->|Hx]; [reflexivity|].
        destruct Hy as [->|Hy]; [reflexivity|].
        apply Ha; [now left|now right|now apply F1|now apply F2]. }
      subst y. f_equal. apply IH; try assumption.
      * intros a b Ha' Hb'. apply Ha; now right.
      * now apply Permutation_cons_inv in P.
Qed.

(** X20.  The order in which the walk lists the directories and the files
    does not matter: two walks that give the same files, no two of them
    with the same sort key, are returned as the same list. *)
Theorem get_files_sorted_walk_order (W W' : World) (root_dir : string) :
  Permutation (walk_entries (os_walk W root_dir))
              (walk_entries (os_walk W' root_dir)) ->
  NoDup (map snd (walk_entries (os_walk W root_dir))) ->
  get_files_sorted W root_dir = get_files_sorted W' root_dir.
Proof.
  intros P N. unfold get_files_sorted. f_equal.
  apply (sorted_permutation_eq (not_after String.ltb snd)).
  - intros x y Hx Hy Rxy Ryx. unfold not_after in *.
    apply in_sort_by in Hx, Hy.
    apply (key_determines snd _ x y N Hx Hy).
    now apply string_ltb_antisym.
  - apply sort_by_sorted; [apply string_ltb_asym|apply string_geb_trans].
  - apply sort_by_sorted; [apply string_ltb_asym|apply string_geb_trans].
  - rewrite !sort_by_perm. exact P.
Qed.

Lemma get_files_sorted_walk_order_docs :
  get_files_sorted (tree_world listed_walk) "docs"
  = get_files_sorted (tree_world relisted_walk) "docs".
Proof.
  apply (get_files_sorted_walk_order (tree_world listed_walk)
           (tree_world relisted_walk) "docs").
  - apply perm_swap.
  - repeat constructor; simpl; intuition discriminate.
Defined.

(** ** [preprocess_frontmatter]: the placeholders and their table *)

Lemma placeholder_inj (i j : nat) : placeholder i = placeholder j -> i = j.
Proof.
  unfold placeholder. intros H. apply str_of_nat_inj.
  now injection H.
Qed.

Lemma html_tag_miss (c : ascii) (s : string) :
  not_lt c = true -> Re.match_at html_tag_pattern (String c s) = None.
Proof.
  intros H. apply match_at_lit_miss. unfold Py.startswith.
  unfold not_lt in H. apply negb_true_iff in H.
  cbn [Py.strip_prefix]. rewrite Ascii.eqb_sym. now rewrite H.
Qed.

Lemma scan_not_lt (pre rest : string) :
  all_chars not_lt pre = true ->
  Re.scan html_tag_pattern 0 (pre ++ rest)
  = (chrs pre ++ Re.scan html_tag_pattern 0 rest)%list.
Proof.
  intros H. apply scan_misses. intros u v -> Hv.
  destruct v as [|c v]; [congruence|]. apply html_tag_miss.
  clear Hv. induction u as [|d u IH]; simpl in H.
  - now apply andb_prop in H.
  - apply andb_prop in H. now apply IH.
Qed.

Lemma html_tag_match (body rest : string) :
  nonempty body = true -> all_chars (Re.not_char ">") body = true ->
  Re.match_at html_tag_pattern (html_tag body ++ rest)
  = Some (Re.Match (html_tag body) []).
Proof.
  intros Hn Hb. unfold Re.match_at.
  assert (E : html_tag body ++ rest = "<" ++ body ++ ">" ++ rest).
  { unfold html_tag. now rewrite !append_assoc. }
  rewrite E at 1.
  assert (C : consumes html_tag_pattern ("<" ++ body ++ ">" ++ rest) rest
                [] []).
  { unfold html_tag_pattern. cbn [cat fold_right].
    eapply consumes_seq; [apply consumes_lit|].
    eapply consumes_seq.
    { apply consumes_plus_greedy; [assumption|assumption|reflexivity]. }
    eapply consumes_seq; [apply (consumes_lit ">")|apply consumes_eps]. }
  apply C. now rewrite consumed_app.
Qed.

(** The keys of the table are the placeholders numbered below its length,
    so that the next placeholder is a new key. *)
Lemma replace_tag_fresh (table : dict string) (m : Re.mtch) :
  (forall k, In k (dict_keys table) ->
             exists j, j < List.length table /\ k = placeholder j) ->
  replace_tag table m
  = ((table ++ [(placeholder (List.length table), Re.whole m)])%list,
     placeholder (List.length table)).
Proof.
  intros Hk. unfold replace_tag. fold (placeholder (List.length table)).
  rewrite dict_set_fresh; [reflexivity|].
  intros Hin. destruct (Hk _ Hin) as [j [Hj E]].
  apply placeholder_inj in E. lia.
Qed.

Lemma frontmatter_scan (items : list tagged_item) (tail : string) :
  forallb tagged_ok items = true -> all_chars not_lt tail = true ->
  forall table : dict string,
  (forall k, In k (dict_keys table) ->
             exists j, j < List.length table /\ k = placeholder j) ->
  Re.glue_st replace_tag table
    (Re.scan html_tag_pattern 0 (tagged_text items tail))
  = ((table ++ tag_table (List.length table) items)%list,
     placeholder_text (List.length table) items tail).
Proof.
  intros Hi Ht. induction items as [|[pre body] items IH]; intros table Hk.
  - cbn [tagged_text tag_table placeholder_text].
    rewrite <- (append_nil_r tail) at 1.
    rewrite (scan_not_lt tail "" Ht), glue_st_chrs.
    rewrite scan_end by reflexivity. cbn [Re.glue_st fst snd].
    now rewrite app_nil_r, append_nil_r.
  - cbn [forallb] in Hi. apply andb_prop in Hi. destruct Hi as [Hok Hi].
    unfold tagged_ok in Hok. apply andb_prop in Hok.
    destruct Hok as [Hok Hb]. apply andb_prop in Hok.
    destruct Hok as [Hp Hn].
    cbn [tagged_text tag_table placeholder_text].
    rewrite (scan_not_lt pre _ Hp), glue_st_chrs.
    rewrite (scan_hit_text html_tag_pattern (html_tag body) _
               (Re.Match (html_tag body) []));
      [|reflexivity|now apply html_tag_match|reflexivity].
    rewrite glue_st_hit, (replace_tag_fresh table _ Hk). cbn [fst snd Re.whole].
    rewrite (IH Hi).
    + rewrite length_app. cbn [List.length fst snd].
      now rewrite Nat.add_1_r, <- app_assoc.
    + intros k Hin. unfold dict_keys in Hin. rewrite map_app in Hin.
      rewrite length_app. cbn [List.length]. apply in_app_or in Hin.
      destruct Hin as [Hin|[<-|[]]].
      * destruct (Hk k Hin) as [j [Hj ->]]. exists j. split; [lia|auto].
      * exists (List.length table). split; [lia|reflexivity].
Qed.

(** X10.  In a frontmatter made of stretches without an opening bracket and
    of tags, the tags are replaced from left to right by the placeholders
    numbered 0, 1, 2 and so on, the stretches are copied, and the table
    maps each placeholder to its tag, in that order, one entry for each
    occurrence of a tag. *)
Theorem preprocess_frontmatter_placeholders (items : list tagged_item)
    (tail : string) :
  forallb tagged_ok items = true -> all_chars not_lt tail = true ->
  preprocess_frontmatter (tagged_text items tail)
  = (placeholder_text 0 items tail, tag_table 0 items).
Proof.
  intros Hi Ht. unfold preprocess_frontmatter, Re.sub_st.
  rewrite (frontmatter_scan items tail Hi Ht []); [reflexivity|].
  intros k [].
Qed.

Lemma preprocess_frontmatter_placeholders_link :
  preprocess_frontmatter link_frontmatter
  = ("title: Using HTML_TAG_0 and HTML_TAG_1",
     [("HTML_TAG_0", "<Link>"); ("HTML_TAG_1", "<Image>")]).
Proof.
  exact (preprocess_frontmatter_placeholders
           [("title: Using ", "Link"); (" and ", "Image")] ""
           eq_refl eq_refl).
Defined.

(** *** No tag is left *)

Lemma placeholder_not_lt (n : nat) : all_chars not_lt (placeholder n) = true.
Proof.
  unfold placeholder. rewrite all_chars_app. cbn [andb].
  change (all_chars not_lt "HTML_TAG_") with true. cbn [andb].
  apply (all_chars_impl Re.digit); [|apply str_of_nat_digits].
  intros c H. now apply digit_plain.
Qed.

Lemma has_gt_app (a b : string) : has_gt (a ++ b) = has_gt a || has_gt b.
Proof.
  induction a as [|c a IH]; [reflexivity|]. cbn [append has_gt].
  now rewrite IH, orb_assoc.
Qed.

Lemma has_gt_split (r : string) :
  has_gt r = true ->
  exists u rest, r = u ++ String ">" rest
                 /\ all_chars (Re.not_char ">") u = true.
Proof.
  induction r as [|c r IH]; [discriminate|]. cbn [has_gt].
  destruct (Ascii.eqb_spec c ">") as [->|Hc].
  - intros _. now exists "", r.
  - cbn [orb]. intros H. destruct (IH H) as [u [rest [-> Hu]]].
    exists (String c u), rest. split; [reflexivity|].
    cbn [all_chars]. unfold Re.not_char at 1.
    apply Ascii.eqb_neq in Hc. now rewrite Hc.
Qed.

Lemma html_match_follows (c : ascii) (t : string) (m : Re.mtch) :
  Re.match_at html_tag_pattern (String c t) = Some m ->
  c = "<"%char /\ tag_follows t = true
  /\ exists w, Re.whole m = String "<" w /\ String.length w <= String.length t.
Proof.
  intros H.
  unfold Re.match_at, html_tag_pattern in H. cbn [cat fold_right] in H.
  change (Re.rmatch (Re.Lit "<") (String c t) []
            (fun s' caps' =>
               Re.rmatch (Re.Plus true (Re.not_char ">")) s' caps'
                 (fun s'0 caps'0 =>
                    Re.rmatch (Re.Lit ">") s'0 caps'0
                      (fun s'1 caps'1 =>
                         Some (Re.Match (Re.consumed (String c t) s'1)
                                        caps'1)))) = Some m) in H.
  apply lit_inv in H. destruct H as [s1 [E H]].
  cbn [append] in E. injection E as Ec Et. subst c s1.
  apply plus_run in H. destruct H as [u [s2 [-> [Hne [Hu H]]]]].
  apply lit_inv in H. destruct H as [s3 [-> H]].
  split; [reflexivity|]. split.
  - destruct u as [|d u]; [congruence|]. cbn [append tag_follows].
    cbn [all_chars] in Hu. apply andb_prop in Hu. destruct Hu as [Hd _].
    unfold Re.not_char in Hd. rewrite Hd. cbn [andb].
    rewrite has_gt_app. cbn [append has_gt]. rewrite Ascii.eqb_refl.
    cbn [orb]. apply orb_true_r.
  - injection H as <-. cbn [Re.whole]. exists (u ++ ">"). split.
    + replace (String "<" (u ++ String ">" s3))
        with (String "<" (u ++ ">") ++ s3)
        by (cbn [append]; now rewrite append_assoc).
      apply consumed_app.
    + rewrite !length_append. lia.
Qed.

Lemma follows_match (t : string) :
  tag_follows t = true -> Re.match_at html_tag_pattern (String "<" t) <> None.
Proof.
  destruct t as [|d r]; [discriminate|]. cbn [tag_follows]. intros H.
  apply andb_prop in H. destruct H as [Hd Hr].
  apply has_gt_split in Hr. destruct Hr as [u [rest [-> Hu]]].
  assert (M := html_tag_match (String d u) rest eq_refl).
  cbn [all_chars] in M. unfold Re.not_char at 1 in M. rewrite Hd, Hu in M.
  specialize (M eq_refl). unfold html_tag in M.
  rewrite !append_assoc in M. cbn [append] in *. rewrite M. discriminate.
Qed.

Lemma frontmatter_out_nil (table : dict string) (skip : nat) :
  frontmatter_out table skip "" = "".
Proof. now destruct skip. Qed.

Lemma frontmatter_out_miss (table : dict string) (c : ascii) (s : string) :
  Re.match_at html_tag_pattern (String c s) = None ->
  frontmatter_out table 0 (String c s)
  = String c (frontmatter_out table 0 s).
Proof.
  intros H. unfold frontmatter_out. rewrite scan_miss by assumption.
  cbn [Re.glue_st]. now destruct (Re.glue_st _ _ _).
Qed.

Lemma frontmatter_out_hit (table : dict string) (c : ascii) (s : string)
    (m : Re.mtch) :
  Re.match_at html_tag_pattern (String c s) = Some m ->
  exists table' n,
    frontmatter_out table 0 (String c s)
    = placeholder (List.length table) ++ frontmatter_out table' n s.
Proof.
  intros H. destruct (html_match_follows _ _ _ H) as [-> [_ [w [Hw _]]]].
  unfold frontmatter_out. cbn [Re.scan]. rewrite H, Hw.
  cbn [String.length]. rewrite glue_st_hit.
  exists (fst (replace_tag table m)), (String.length w). reflexivity.
Qed.

Lemma has_gt_out (s : string) :
  forall table skip,
  has_gt (frontmatter_out table skip s) = true -> has_gt s = true.
Proof.
  induction s as [|c s IH]; intros table skip.
  - now rewrite frontmatter_out_nil.
  - destruct skip as [|n].
    + destruct (Re.match_at html_tag_pattern (String c s)) as [m|] eqn:E.
      * intros _. destruct (html_match_follows _ _ _ E) as [_ [F _]].
        destruct s as [|d r]; [discriminate|]. cbn [tag_follows] in F.
        apply andb_prop in F. destruct F as [_ F]. cbn [has_gt].
        rewrite F. now rewrite !orb_true_r.
      * rewrite frontmatter_out_miss by assumption. cbn [has_gt].
        intros H. apply orb_prop in H. destruct H as [->|H]; [reflexivity|].
        rewrite (IH _ _ H). apply orb_true_r.
    + intros H. cbn [has_gt]. unfold frontmatter_out in *. cbn [Re.scan] in H.
      rewrite (IH _ _ H). apply orb_true_r.
Qed.

Lemma follows_out (table : dict string) (s : string) :
  tag_follows (frontmatter_out table 0 s) = true -> tag_follows s = true.
Proof.
  destruct s as [|e s]; [now rewrite frontmatter_out_nil|].
  destruct (Re.match_at html_tag_pattern (String e s)) as [m|] eqn:E.
  - intros _. destruct (html_match_follows _ _ _ E) as [-> [F _]].
    cbn [tag_follows]. destruct s as [|d r]; [discriminate|].
    cbn [tag_follows] in F. apply andb_prop in F. destruct F as [_ F].
    cbn [has_gt]. rewrite F. now rewrite orb_true_r.
  - rewrite frontmatter_out_miss by assumption. cbn [tag_follows].
    intros H. apply andb_prop in H. destruct H as [-> H].
    now rewrite (has_gt_out _ _ _ H).
Qed.

Lemma untagged_app (u v : string) :
  all_chars not_lt u = true -> untagged v = true -> untagged (u ++ v) = true.
Proof.
  intros Hu Hv. induction u as [|c u IH]; [exact Hv|].
  cbn [all_chars] in Hu. apply andb_prop in Hu. destruct Hu as [Hc Hu].
  cbn [append untagged]. rewrite html_tag_miss by assumption. now apply IH.
Qed.

Lemma out_untagged (s : string) :
  forall table skip, untagged (frontmatter_out table skip s) = true.
Proof.
  induction s as [|c s IH]; intros table skip;
    [now rewrite frontmatter_out_nil|].
  destruct skip as [|n]; [|exact (IH table n)].
  destruct (Re.match_at html_tag_pattern (String c s)) as [m|] eqn:E.
  - destruct (frontmatter_out_hit table _ _ _ E) as [table' [n ->]].
    apply untagged_app; [apply placeholder_not_lt|apply IH].
  - rewrite frontmatter_out_miss by assumption. cbn [untagged].
    destruct (Re.match_at html_tag_pattern
                (String c (frontmatter_out table 0 s))) as [m|] eqn:E';
      [|apply IH].
    destruct (html_match_follows _ _ _ E') as [-> [F _]].
    apply follows_out, follows_match in F. contradiction.
Qed.

Lemma untagged_suffix (u v : string) :
  untagged (u ++ v) = true -> Re.match_at html_tag_pattern v = None.
Proof.
  induction u as [|c u IH]; cbn [append].
  - intros H. destruct v as [|c v]; [reflexivity|]. cbn [untagged] in H.
    destruct (Re.match_at html_tag_pattern (String c v));
      [discriminate|reflexivity].
  - cbn [untagged].
    destruct (Re.match_at html_tag_pattern (String c (u ++ v)));
      [discriminate|exact IH].
Qed.

Lemma preprocess_untagged (s : string) :
  untagged s = true -> preprocess_frontmatter s = (s, []).
Proof.
  intros H. unfold preprocess_frontmatter, Re.sub_st.
  rewrite <- (append_nil_r s) at 1. rewrite scan_misses.
  - rewrite glue_st_chrs, scan_end by reflexivity.
    cbn [Re.glue_st fst snd]. now rewrite append_nil_r.
  - intros u v -> _. rewrite append_nil_r. now apply (untagged_suffix u).
Qed.

(** X11.  The text that [preprocess_frontmatter] returns, for any
    frontmatter, holds no tag: applied to it, the function returns it
    unchanged with an empty table. *)
Theorem preprocess_frontmatter_idempotent (frontmatter : string) :
  preprocess_frontmatter (fst (preprocess_frontmatter frontmatter))
  = (fst (preprocess_frontmatter frontmatter), []).
Proof.
  apply preprocess_untagged.
  assert (E : fst (preprocess_frontmatter frontmatter)
              = frontmatter_out [] 0 frontmatter).
  { unfold preprocess_frontmatter, frontmatter_out, Re.sub_st.
    now destruct (Re.glue_st _ _ _). }
  rewrite E. apply out_untagged.
Qed.

(** ** [restore_html_tags]: up to ten placeholders *)

Lemma replace_from_skip (old new w s : string) :
  Py.replace_from old new (String.length w) (w ++ s)
  = Py.replace_from old new 0 s.
Proof.
  induction w as [|c w IH]; [reflexivity|]. exact IH.
Qed.

Lemma replace_from_hit (c : ascii) (o new s : string) :
  Py.replace_from (String c o) new 0 (String c o ++ s)
  = new ++ Py.replace_from (String c o) new 0 s.
Proof.
  cbn [append Py.replace_from]. unfold Py.startswith.
  change (String c (o ++ s)) with (String c o ++ s).
  rewrite strip_prefix_app.
  replace (String.length (String c o) - 1) with (String.length o)
    by (cbn [String.length]; lia).
  now rewrite replace_from_skip.
Qed.

Lemma replace_from_text (o new w s : string) :
  all_chars no_H w = true ->
  Py.replace_from (String "H" o) new 0 (w ++ s)
  = w ++ Py.replace_from (String "H" o) new 0 s.
Proof.
  induction w as [|c w IH]; [reflexivity|]. intros H.
  cbn [all_chars] in H. apply andb_prop in H. destruct H as [Hc Hw].
  cbn [append Py.replace_from]. unfold Py.startswith.
  cbn [Py.strip_prefix]. unfold no_H in Hc. apply negb_true_iff in Hc.
  rewrite Ascii.eqb_sym, Hc. now rewrite IH.
Qed.

Lemma replace_from_miss (old new : string) (c : ascii) (s : string) :
  Py.startswith (String c s) old = false ->
  Py.replace_from old new 0 (String c s)
  = String c (Py.replace_from old new 0 s).
Proof. cbn [Py.replace_from]. now intros ->. Qed.

Lemma placeholder_head (k : nat) :
  placeholder k = String "H" ("TML_TAG_" ++ Py.str_of_nat k).
Proof. reflexivity. Qed.

Lemma placeholder_other (j k : nat) (s : string) :
  j <= 9 -> k <= 9 -> j <> k ->
  Py.startswith (placeholder j ++ s) (placeholder k) = false.
Proof.
  intros Hj Hk Hne.
  do 10 (destruct j as [|j];
         [do 10 (destruct k as [|k]; [first [reflexivity|congruence]|]); lia|]).
  lia.
Qed.

Lemma placeholder_rest (j : nat) :
  j <= 9 -> all_chars no_H ("TML_TAG_" ++ Py.str_of_nat j) = true.
Proof.
  intros Hj. do 10 (destruct j as [|j]; [reflexivity|]). lia.
Qed.

Lemma replace_from_other (j k : nat) (new s : string) :
  j <= 9 -> k <= 9 -> j <> k ->
  Py.replace_from (placeholder k) new 0 (placeholder j ++ s)
  = placeholder j ++ Py.replace_from (placeholder k) new 0 s.
Proof.
  intros Hj Hk Hne. assert (M := placeholder_other j k s Hj Hk Hne).
  assert (R := placeholder_rest j Hj).
  set (rest := "TML_TAG_" ++ Py.str_of_nat j) in *.
  change (placeholder j ++ s) with (String "H" (rest ++ s)) in *.
  rewrite (replace_from_miss _ _ _ _ M).
  change (placeholder j ++ Py.replace_from (placeholder k) new 0 s)
    with (String "H" (rest ++ Py.replace_from (placeholder k) new 0 s)).
  f_equal. rewrite (placeholder_head k). now apply replace_from_text.
Qed.

Lemma html_tag_plain (body : string) :
  all_chars no_H body = true -> all_chars no_H (html_tag body) = true.
Proof.
  intros H. unfold html_tag. cbn [append all_chars]. 
  change (no_H "<") with true. cbn [andb].
  induction body as [|c body IH]; [reflexivity|].
  cbn [all_chars append] in *. apply andb_prop in H. destruct H as [-> H].
  now apply IH.
Qed.

Lemma replace_placeholder (k : nat) (new s : string) :
  Py.replace (placeholder k) new s = Py.replace_from (placeholder k) new 0 s.
Proof. reflexivity. Qed.

(** Replacing the placeholder number [k] in a text whose tags below [k]
    are restored restores the tag number [k] as well. *)
Lemma mixed_step (k : nat) (tag : string) (items : list tagged_item)
    (tail : string) :
  k <= 9 -> all_chars no_H tail = true ->
  forall n,
  n + List.length items <= 10 ->
  forallb plain_item items = true ->
  (forall i pre body, nth_error items i = Some (pre, body) -> n + i = k ->
                      html_tag body = tag) ->
  Py.replace (placeholder k) tag (mixed_text k n items tail)
  = mixed_text (S k) n items tail.
Proof.
  intros Hk Ht n. rewrite replace_placeholder. revert n.
  induction items as [|[pre body] items IH]; intros n Hn Hi Hb.
  - cbn [mixed_text]. rewrite <- (append_nil_r tail) at 1.
    rewrite placeholder_head, replace_from_text by assumption.
    cbn [Py.replace_from]. apply append_nil_r.
  - cbn [mixed_text forallb List.length] in *.
    apply andb_prop in Hi. destruct Hi as [Hp Hi]. unfold plain_item in Hp.
    apply andb_prop in Hp. destruct Hp as [Hpre Hbody].
    assert (R : Py.replace_from (placeholder k) tag 0
                  (mixed_text k (S n) items tail)
                = mixed_text (S k) (S n) items tail).
    { apply IH; [lia|assumption|].
      intros i p b Hnth E. apply (Hb (S i) p b); [exact Hnth|lia]. }
    rewrite (placeholder_head k) at 1. rewrite replace_from_text by assumption.
    rewrite <- (placeholder_head k). f_equal.
    destruct (Nat.lt_trichotomy n k) as [L|[E|G]].
    + rewrite (proj2 (Nat.ltb_lt n k) L).
      rewrite (proj2 (Nat.ltb_lt n (S k))) by lia.
      rewrite (placeholder_head k) at 1.
      rewrite replace_from_text by now apply html_tag_plain.
      rewrite <- (placeholder_head k). now rewrite R.
    + subst n. rewrite Nat.ltb_irrefl.
      rewrite (proj2 (Nat.ltb_lt k (S k))) by lia.
      rewrite (placeholder_head k) at 1 2. rewrite replace_from_hit.
      rewrite <- (placeholder_head k), R.
      now rewrite (Hb 0 pre body eq_refl) by lia.
    + rewrite (proj2 (Nat.ltb_ge n k)) by lia.
      rewrite (proj2 (Nat.ltb_ge n (S k))) by lia.
      rewrite replace_from_other by lia. now rewrite R.
Qed.

Lemma mixed_none (n : nat) (items : list tagged_item) (tail : string) :
  mixed_text 0 n items tail = placeholder_text n items tail.
Proof.
  revert n; induction items as [|[pre body] items IH]; intros n;
    cbn [mixed_text placeholder_text]; [reflexivity|].
  now rewrite IH.
Qed.

Lemma mixed_all (k n : nat) (items : list tagged_item) (tail : string) :
  n + List.length items <= k ->
  mixed_text k n items tail = tagged_text items tail.
Proof.
  revert n; induction items as [|[pre body] items IH]; intros n H;
    cbn [mixed_text tagged_text List.length] in *; [reflexivity|].
  rewrite (proj2 (Nat.ltb_lt n k)) by lia. rewrite IH by lia. reflexivity.
Qed.

Lemma restore_fold (all items : list tagged_item) (n : nat) (tail : string) :
  n + List.length items <= 10 ->
  forallb plain_item items = true -> all_chars no_H tail = true ->
  (forall i e, nth_error items i = Some e -> nth_error all (n + i) = Some e) ->
  forall (rest : list tagged_item) (m : nat),
  m + List.length rest <= 10 ->
  (forall i e, nth_error rest i = Some e -> nth_error all (m + i) = Some e) ->
  fold_left (fun v pt => Py.replace (fst pt) (snd pt) v) (tag_table m rest)
            (mixed_text m n items tail)
  = mixed_text (m + List.length rest) n items tail.
Proof.
  intros Hn Hi Ht Ha.
  induction rest as [|[p0 b0] rest IH]; intros m Hm Hr.
  - cbn [tag_table fold_left List.length]. now rewrite Nat.add_0_r.
  - cbn [tag_table fold_left List.length fst snd] in *.
    rewrite mixed_step; try assumption; try lia.
    + rewrite IH; [f_equal; lia|lia|].
      intros i e H. replace (S m + i) with (m + S i) by lia. now apply Hr.
    + intros i pre body H E. apply Ha in H. rewrite E in H.
      assert (H0 := Hr 0 (p0, b0) eq_refl). rewrite Nat.add_0_r in H0.
      congruence.
Qed.

(** X12.  With a table of at most ten tags, a value that is a run of the
    frontmatter, stretches of text and the placeholders of the tags between
    them, is restored to the escaped original text, provided the stretches
    and the tags of the run do not hold the letter H, with which every
    placeholder starts. *)
Theorem placeholders_restored (before items after : list tagged_item)
    (tail : string) :
  List.length (before ++ items ++ after)%list <= 10 ->
  forallb plain_item items = true -> all_chars no_H tail = true ->
  restore_value (tag_table 0 (before ++ items ++ after)%list)
                (placeholder_text (List.length before) items tail)
  = Py.html_escape (tagged_text items tail).
Proof.
  intros Hl Hi Ht. unfold restore_value. f_equal.
  rewrite !length_app in Hl.
  rewrite <- mixed_none.
  rewrite (restore_fold (before ++ items ++ after)%list items
             (List.length before) tail); try assumption; try lia.
  - apply mixed_all. rewrite !length_app. lia.
  - intros i e H. rewrite nth_error_app2 by lia.
    replace (List.length before + i - List.length before) with i by lia.
    rewrite nth_error_app1; [assumption|].
    apply nth_error_Some. congruence.
  - rewrite !length_app. lia.
  - intros i e H. exact H.
Qed.

Lemma placeholders_restored_link :
  restore_value [("HTML_TAG_0", "<Link>"); ("HTML_TAG_1", "<Image>")]
                "Using HTML_TAG_0 and HTML_TAG_1"
  = "Using &lt;Link&gt; and &lt;Image&gt;".
Proof.
  refine (placeholders_restored [] [("Using ", "Link"); (" and ", "Image")] []
            "" _ eq_refl eq_refl).
  simpl. lia.
Defined.

(** *** The restored values hold no markup *)

Lemma escape_char_markup_free (c : ascii) :
  all_chars markup_free (escape_char c) = true.
Proof.
  unfold escape_char.
  destruct (Ascii.eqb c "&"); [reflexivity|].
  destruct (Ascii.eqb c "<") eqn:E1; [reflexivity|].
  destruct (Ascii.eqb c ">") eqn:E2; [reflexivity|].
  destruct (Ascii.eqb c Py.DQ) eqn:E3; [reflexivity|].
  destruct (Ascii.eqb c "'") eqn:E4; [reflexivity|].
  cbn [all_chars]. unfold markup_free. now rewrite E1, E2, E3, E4.
Qed.

Lemma html_escape_markup_free (s : string) :
  all_chars markup_free (Py.html_escape s) = true.
Proof.
  rewrite html_escape_flat. induction s as [|c s IH]; [reflexivity|].
  cbn [flat]. now rewrite all_chars_app, escape_char_markup_free, IH.
Qed.

Lemma top_strings_restored (html_tags : dict string) (entries : dict yaml)
    (value : string) :
  In value (top_strings (map (restore_top html_tags) entries)) ->
  exists s, In s (top_strings entries) /\ value = restore_value html_tags s.
Proof.
  induction entries as [|[k v] entries IH]; [intros []|].
  cbn [map]. unfold restore_top at 1. cbn [fst snd].
  destruct v; cbn [top_strings]; try (intros H; destruct (IH H) as [s0 [? ?]];
    now exists s0).
  intros [<-|H].
  - exists s. split; [now left|reflexivity].
  - destruct (IH H) as [s0 [? ?]]. exists s0. split; [now right|assumption].
Qed.

(** X13.  In the mapping that [restore_html_tags] returns, no string value
    at the top holds an angle bracket or a quote. *)
Theorem restored_values_escaped (html_tags : dict string)
    (entries : dict yaml) (value : string) :
  NoDup (dict_keys entries) ->
  In value (top_strings
              (yaml_entries (restore_html_tags (YMap entries) html_tags))) ->
  all_chars markup_free value = true.
Proof.
  intros Hk. cbn [restore_html_tags yaml_entries].
  assert (E := restore_loop html_tags entries [] Hk). cbn [map app] in E.
  rewrite E.
  intros H. apply top_strings_restored in H. destruct H as [s [_ ->]].
  apply html_escape_markup_free.
Qed.

Lemma restored_values_escaped_quoted :
  all_chars markup_free "Tom&#x27;s &quot;&lt;b&gt;&quot;" = true.
Proof.
  refine (restored_values_escaped [] quoted_entries _ _ (or_introl eq_refl)).
  repeat constructor; simpl; intuition discriminate.
Defined.

(** ** [process_files]: the numbers of the table of contents differ *)

Lemma toc_visit_nth (numbering : list nat) (depth i : nat) :
  nth i (fst (toc_visit numbering depth)) 0
  = if (i <? depth)%nat then nth i numbering 0
    else if (i =? depth)%nat then nth depth numbering 0 + 1 else 0.
Proof.
  unfold toc_visit. cbn [fst]. rewrite nth_toc_reset. unfold toc_bump.
  destruct (Nat.ltb_spec i depth), (Nat.eqb_spec i depth),
    (Nat.leb_spec i depth); try lia; auto.
  - rewrite nth_list_set_other by lia. apply nth_toc_grow.
  - subst i. rewrite nth_list_set_same by apply length_toc_grow.
    now rewrite nth_toc_grow.
Qed.

Lemma toc_visit_length (numbering : list nat) (depth : nat) :
  depth < List.length (fst (toc_visit numbering depth)).
Proof.
  unfold toc_visit. cbn [fst].
  rewrite length_toc_reset. unfold toc_bump. rewrite length_list_set.
  apply length_toc_grow.
Qed.

Lemma toc_visit_lt (numbering : list nat) (depth : nat) :
  counters_lt numbering (fst (toc_visit numbering depth)).
Proof.
  exists depth. split.
  - intros j Hj. rewrite toc_visit_nth.
    destruct (Nat.ltb_spec j depth); [reflexivity|lia].
  - rewrite toc_visit_nth, Nat.ltb_irrefl, Nat.eqb_refl. lia.
Qed.

Lemma counters_lt_trans (a b c : list nat) :
  counters_lt a b -> counters_lt b c -> counters_lt a c.
Proof.
  intros [i [Hi Li]] [j [Hj Lj]].
  destruct (Nat.lt_trichotomy i j) as [H|[H|H]].
  - exists i. split.
    + intros k Hk. rewrite Hi by assumption. apply Hj. lia.
    + rewrite <- Hj by assumption. exact Li.
  - subst j. exists i. split.
    + intros k Hk. rewrite Hi by assumption. now apply Hj.
    + lia.
  - exists j. split.
    + intros k Hk. rewrite Hi by lia. now apply Hj.
    + rewrite Hi by assumption. exact Lj.
Qed.

Lemma counters_lt_differ (a b : list nat) :
  counters_lt a b -> (forall i, nth i a 0 = nth i b 0) -> False.
Proof. intros [i [_ L]] E. rewrite E in L. lia. Qed.

(** The number of a document determines the counters it was made from. *)
Lemma toc_number_counters (n1 n2 : list nat) (d1 d2 : nat) :
  snd (toc_visit n1 d1) = snd (toc_visit n2 d2) ->
  forall i, nth i (fst (toc_visit n1 d1)) 0 = nth i (fst (toc_visit n2 d2)) 0.
Proof.
  intros H.
  assert (L1 := toc_visit_length n1 d1). assert (L2 := toc_visit_length n2 d2).
  assert (T1 := toc_visit_nth n1 d1). assert (T2 := toc_visit_nth n2 d2).
  unfold toc_visit in *. cbn [fst snd] in *.
  set (a := toc_reset (toc_bump (toc_grow n1 d1) d1) d1) in *.
  set (b := toc_reset (toc_bump (toc_grow n2 d2) d2) d2) in *.
  unfold toc_numbering in H.
  assert (S : forall l d, d < List.length l ->
            Py.split "." (Py.join "." (map Py.str_of_nat (firstn (d + 1) l)))
            = map Py.str_of_nat (firstn (d + 1) l)).
  { intros l d Hd. apply split_join.
    - intros E. apply (f_equal (@List.length string)) in E.
      rewrite length_map, length_firstn in E. simpl in E. lia.
    - apply Forall_forall. intros w Hw. apply in_map_iff in Hw.
      destruct Hw as [n [<- _]]. apply dotless_str_of_nat. }
  apply (f_equal (Py.split ".")) in H.
  rewrite !S in H by assumption. apply map_str_of_nat_inj in H.
  assert (D : d1 = d2).
  { apply (f_equal (@List.length nat)) in H. rewrite !length_firstn in H. lia. }
  subst d2. intros i. destruct (Nat.lt_ge_cases i (d1 + 1)) as [Hi|Hi].
  - apply (f_equal (fun l => nth i l 0)) in H.
    now rewrite !nth_firstn, (proj2 (Nat.ltb_lt _ _) Hi) in H.
  - rewrite T1, T2.
    destruct (Nat.ltb_spec i d1), (Nat.eqb_spec i d1); lia.
Qed.

Lemma toc_run_from (numbering : list nat) (depths : list nat) (num : string) :
  In num (toc_run numbering depths) ->
  exists n d, (n = numbering \/ counters_lt numbering n)
              /\ num = snd (toc_visit n d).
Proof.
  revert numbering; induction depths as [|d depths IH]; intros numbering;
    cbn [toc_run]; [intros []|].
  destruct (toc_visit numbering d) as [n' number] eqn:E. cbn [In].
  intros [<-|H].
  - exists numbering, d. rewrite E. auto.
  - destruct (IH _ H) as [n [d' [Hn ->]]]. exists n, d'. split; [|reflexivity].
    right. assert (L := toc_visit_lt numbering d). rewrite E in L. simpl in L.
    destruct Hn as [->|Hn]; [assumption|].
    now apply (counters_lt_trans _ n').
Qed.

(** X14.  Whatever the counters at the start and the depths of the
    documents, no two documents of a run get the same number. *)
Theorem toc_numbers_distinct (numbering : list nat) (depths : list nat) :
  NoDup (toc_run numbering depths).
Proof.
  revert numbering; induction depths as [|d depths IH]; intros numbering;
    cbn [toc_run]; [constructor|].
  destruct (toc_visit numbering d) as [n' number] eqn:E.
  constructor; [|apply IH].
  intros H. apply toc_run_from in H. destruct H as [n [d' [Hn Hnum]]].
  assert (L : counters_lt n' (fst (toc_visit n d'))).
  { destruct Hn as [->|Hn]; [apply toc_visit_lt|].
    apply (counters_lt_trans _ n); [assumption|apply toc_visit_lt]. }
  apply (counters_lt_differ _ _ L).
  replace n' with (fst (toc_visit numbering d)) by now rewrite E.
  apply toc_number_counters. now rewrite E.
Qed.

(** ** [process_files]: documents without frontmatter *)

Lemma parse_plain (md_content : string) :
  starts_frontmatter md_content = false ->
  parse_frontmatter md_content = Ok (None, md_content).
Proof. unfold starts_frontmatter, parse_frontmatter. now intros ->. Qed.

Lemma lstrip_suffix (s : string) : exists u, s = u ++ Py.lstrip s.
Proof.
  induction s as [|c s [u IH]]; [now exists ""|]. cbn [Py.lstrip].
  destruct (Py.isspace c); [|now exists ""].
  exists (String c u). cbn [append]. now rewrite <- IH.
Qed.

Lemma rstrip_prefix (s : string) : exists v, s = Py.rstrip s ++ v.
Proof.
  induction s as [|c s [v IH]]; [now exists ""|]. cbn [Py.rstrip].
  destruct (Py.rstrip s) as [|d t].
  - destruct (Py.isspace c); [now exists (String c s)|].
    exists s. reflexivity.
  - exists v. cbn [append] in *. now rewrite <- IH.
Qed.

(** What is left of a line when whitespace is stripped from its ends stands
    in the line. *)
Lemma strip_contains (line : string) :
  contains (Py.strip line) line = true.
Proof.
  destruct (lstrip_suffix line) as [u Hu].
  destruct (rstrip_prefix (Py.lstrip line)) as [v Hv].
  rewrite Hu at 2. apply contains_suffix_true. rewrite Hv at 1.
  unfold Py.startswith, Py.strip. now rewrite strip_prefix_app.
Qed.

Lemma first_line_plain (md_content : string) :
  contains "---" (hd EmptyString (Py.split Py.LF md_content)) = false ->
  starts_frontmatter md_content = false.
Proof.
  intros H. unfold starts_frontmatter.
  destruct (String.eqb_spec
              (Py.strip (hd EmptyString (Py.split Py.LF md_content))) "---")
    as [E|]; [|reflexivity].
  rewrite <- E, strip_contains in H. discriminate.
Qed.

Lemma process_file_plain (W : World) (repo_dir docs_dir : string)
    (last : bool) (st : state) (file_path : string) :
  plain_document W file_path = true ->
  process_file W repo_dir docs_dir last st file_path
  = Ok {| toc := toc st;
          html_all_pages_content :=
            html_all_pages_content st ++ markdown W (content_of W file_path)
              ++ (if last then "" else page_break);
          numbering := numbering st |}.
Proof.
  unfold plain_document. intros H. apply negb_true_iff in H.
  apply first_line_plain in H. unfold content_of in *.
  unfold process_file. rewrite (parse_plain _ H). cbn [bind]. cbn [append].
  destruct last; [now rewrite append_nil_r|now rewrite append_assoc].
Qed.

Lemma process_loop_plain (W : World) (repo_dir docs_dir : string)
    (files : list string) :
  forallb (plain_document W) files = true ->
  forall st,
  process_loop W repo_dir docs_dir st files
  = Ok {| toc := toc st;
          html_all_pages_content :=
            html_all_pages_content st ++ plain_pages W files;
          numbering := numbering st |}.
Proof.
  induction files as [|f files IH]; intros H st.
  - cbn [process_loop plain_pages map Py.join String.concat].
    rewrite append_nil_r. now destruct st.
  - cbn [forallb] in H. apply andb_prop in H. destruct H as [Hf H].
    cbn [process_loop]. rewrite process_file_plain by assumption.
    cbn [bind]. rewrite (IH H). cbn [toc html_all_pages_content numbering].
    f_equal. f_equal. unfold plain_pages. rewrite append_assoc. f_equal.
    destruct files as [|f' files].
    + cbn [map Py.join String.concat]. now rewrite !append_nil_r.
    + cbn [map Py.join String.concat]. now rewrite append_assoc.
Qed.

(** X15.  When the first line of no file holds the frontmatter delimiter,
    the table of contents is empty and the pages are the rendered texts of the files in
    their order, a page break between two of them and none after the last:
    the three results are the header and the closing tags around the empty
    table followed by the pages, the empty table, and the pages. *)
Theorem plain_documents_joined (W : World) (files : list string)
    (repo_dir docs_dir : string) :
  forallb (plain_document W) files = true ->
  process_files W files repo_dir docs_dir
  = Ok (html_header W ++ (toc_block "" ++ plain_pages W files) ++ close_tags,
        html_header W ++ toc_block "" ++ close_tags,
        html_header W ++ plain_pages W files ++ close_tags).
Proof.
  intros H. unfold process_files.
  rewrite (process_loop_plain W repo_dir docs_dir files H).
  reflexivity.
Qed.

Lemma plain_documents_joined_two :
  process_files two_pages_world ["a.md"; "b.md"] "repo" "docs"
  = Ok (html_header two_pages_world
          ++ (toc_block "" ++ "# A" ++ page_break ++ "# B") ++ close_tags,
        html_header two_pages_world ++ toc_block "" ++ close_tags,
        html_header two_pages_world
          ++ ("# A" ++ page_break ++ "# B") ++ close_tags).
Proof.
  exact (plain_documents_joined two_pages_world ["a.md"; "b.md"] "repo" "docs"
           eq_refl).
Defined.

(** ** [process_files]: the heading of a document *)

Lemma dict_get_restored_string (html_tags : dict string)
    (entries : dict yaml) (key : string) (value : option string) :
  dict_get key entries = option_map YStr value ->
  dict_get key (map (restore_top html_tags) entries)
  = option_map (fun s => YStr (restore_value html_tags s)) value.
Proof.
  induction entries as [|[k x] entries IH]; cbn [map dict_get].
  - now destruct value.
  - unfold restore_top at 1. cbn [fst snd].
    destruct (String.eqb k key) eqn:E.
    + destruct value as [s|]; [|discriminate]. cbn [option_map].
      intros H. injection H as ->. cbn [dict_get]. now rewrite E.
    + intros H. destruct x; cbn [dict_get]; rewrite E; now apply IH.
Qed.

Lemma dict_get_restored_none (html_tags : dict string)
    (entries : dict yaml) (key : string) :
  dict_get key entries = None ->
  dict_get key (map (restore_top html_tags) entries) = None.
Proof. apply (dict_get_restored_string html_tags entries key None). Qed.

(** X21.  A document whose frontmatter is a mapping without the key
    [related], its title and its description strings or missing, adds one
    line to the table of contents and puts its heading block before its
    rendered body.  The full title is the number of the document, a dash
    and the title, restored and escaped, or the title made from the name
    of the file when there is none; the line is indented by five spaces
    for each level of depth and links to the full title; the block shows
    the full title, the path and the description, restored and escaped,
    or the words No description.  The counters are those after the
    document. *)
Theorem document_heading (W : World) (repo_dir docs_dir : string)
    (last : bool) (st : state) (file_path frontmatter body : string)
    (entries : dict yaml) (title description : option string) :
  parse_frontmatter (content_of W file_path) = Ok (Some frontmatter, body) ->
  nonempty frontmatter = true ->
  yaml_safe_load W (fst (preprocess_frontmatter frontmatter))
    = Ok (YMap entries) ->
  NoDup (dict_keys entries) ->
  dict_get "title" entries = option_map YStr title ->
  dict_get "description" entries = option_map YStr description ->
  dict_get "related" entries = None ->
  let html_tags := snd (preprocess_frontmatter frontmatter) in
  let depth := doc_depth W file_path repo_dir docs_dir in
  let full_title :=
    snd (toc_visit (numbering st) depth) ++ " - "
      ++ shown html_tags title (stem_title W file_path) in
  process_file W repo_dir docs_dir last st file_path
  = Ok {| toc :=
            toc st ++ toc_line (Py.repeat_str "&nbsp;" (5 * depth)) full_title;
          html_all_pages_content :=
            html_all_pages_content st
              ++ (heading_block full_title
                    (shown_path file_path repo_dir docs_dir)
                    (shown html_tags description "No description")
                  ++ markdown W body)
              ++ (if last then "" else page_break);
          numbering := fst (toc_visit (numbering st) depth) |}.
Proof.
  unfold content_of, nonempty. intros Hp Hn Hy Hk Ht Hd Hr. cbv zeta.
  unfold process_file. rewrite Hp. cbn [bind]. rewrite Hn.
  unfold frontmatter_data, safe_load_frontmatter.
  destruct (preprocess_frontmatter frontmatter) as [fm tags].
  cbn [fst snd] in *. rewrite Hy. cbn [bind restore_html_tags].
  assert (E := restore_loop tags entries [] Hk). cbn [map app] in E.
  rewrite E. unfold heading, related_block.
  destruct (toc_visit (numbering st)
              (doc_depth W file_path repo_dir docs_dir)) as [n number].
  cbn [yaml_get fst snd].
  rewrite (dict_get_restored_string tags entries "title" title Ht).
  rewrite (dict_get_restored_string tags entries "description" description
             Hd).
  rewrite (dict_get_restored_none tags entries "related" Hr).
  destruct title as [t|], description as [d|];
    cbn [option_map bind truthy fmt shown];
    unfold toc_line, heading_block, shown_path;
    (destruct last; [rewrite append_nil_r|rewrite !append_assoc];
     rewrite ?append_assoc; reflexivity).
Qed.

Lemma document_heading_titled :
  process_file titled_world "repo" "docs" true initial_state "a.mdx"
  = Ok {| toc := toc_line "" "1 - Using &lt;Link&gt;";
          html_all_pages_content :=
            heading_block "1 - Using &lt;Link&gt;" "a" "No description"
              ++ "Body";
          numbering := [1] |}.
Proof.
  refine (document_heading titled_world "repo" "docs" true initial_state
            "a.mdx" "title: Using <Link>" "Body"
            [("title", YStr "Using HTML_TAG_0")] (Some "Using HTML_TAG_0")
            None eq_refl eq_refl eq_refl _ eq_refl eq_refl eq_refl).
  repeat constructor; simpl; intuition discriminate.
Defined.

(** ** [process_files]: documents that end the run *)

Lemma restore_no_get (data : yaml) (html_tags : dict string) :
  no_get data = true -> restore_html_tags data html_tags = data.
Proof. now destruct data. Qed.

Lemma heading_no_get (W : World) (st : state) (data : yaml)
    (file_path repo_dir docs_dir : string) :
  no_get data = true ->
  heading W st data file_path repo_dir docs_dir = Raise AttributeError.
Proof.
  intros H. unfold heading. destruct (toc_visit _ _).
  now destruct data.
Qed.

Lemma process_file_no_get (W : World) (repo_dir docs_dir : string)
    (last : bool) (st : state) (file_path frontmatter body : string)
    (data : yaml) :
  parse_frontmatter (content_of W file_path) = Ok (Some frontmatter, body) ->
  nonempty frontmatter = true ->
  yaml_safe_load W (fst (preprocess_frontmatter frontmatter)) = Ok data ->
  no_get data = true ->
  process_file W repo_dir docs_dir last st file_path = Raise AttributeError.
Proof.
  unfold content_of, nonempty. intros Hp Hn Hy Hd.
  unfold process_file. rewrite Hp. cbn [bind]. rewrite Hn.
  unfold frontmatter_data, safe_load_frontmatter.
  destruct (preprocess_frontmatter frontmatter) as [fm tags].
  cbn [fst] in Hy. rewrite Hy. cbn [bind].
  rewrite (restore_no_get data tags Hd).
  assert (E : heading W st data file_path repo_dir docs_dir
              = Raise AttributeError) by now apply heading_no_get.
  destruct data; try discriminate; cbn [bind]; now rewrite E.
Qed.

Lemma process_loop_ok (W : World) (repo_dir docs_dir : string)
    (files : list string) (file_path : string) :
  In file_path files ->
  forall st st', process_loop W repo_dir docs_dir st files = Ok st' ->
  exists last st0 st1,
    process_file W repo_dir docs_dir last st0 file_path = Ok st1.
Proof.
  induction files as [|f files IH]; [intros []|]. intros Hin st st' H.
  cbn [process_loop] in H.
  destruct (process_file W repo_dir docs_dir _ st f) as [st1|e] eqn:E;
    [|discriminate].
  cbn [bind] in H. destruct Hin as [->|Hin]; [eauto|].
  now apply (IH Hin st1 st').
Qed.

(** X16.  A document whose frontmatter parses to a value that is not a
    mapping, a scalar or a list, raises [AttributeError] when its title is
    looked up, whatever came before it; nothing catches the exception, so
    [process_files] returns no result for a list that holds the
    document. *)
Theorem non_mapping_frontmatter_raises (W : World)
    (repo_dir docs_dir : string) (file_path frontmatter body : string)
    (data : yaml) :
  parse_frontmatter (content_of W file_path) = Ok (Some frontmatter, body) ->
  nonempty frontmatter = true ->
  yaml_safe_load W (fst (preprocess_frontmatter frontmatter)) = Ok data ->
  no_get data = true ->
  (forall last st,
     process_file W repo_dir docs_dir last st file_path
     = Raise AttributeError)
  /\ (forall files,
        process_files W (file_path :: files) repo_dir docs_dir
        = Raise AttributeError)
  /\ (forall files out,
        In file_path files ->
        process_files W files repo_dir docs_dir <> Ok out).
Proof.
  intros Hp Hn Hy Hd.
  assert (F : forall last st,
            process_file W repo_dir docs_dir last st file_path
            = Raise AttributeError).
  { intros last st. now apply (process_file_no_get W _ _ _ _ _ frontmatter
                                 body data). }
  split; [exact F|]. split.
  - intros files. unfold process_files. cbn [process_loop].
    now rewrite F.
  - intros files out Hin H. unfold process_files in H.
    destruct (process_loop W repo_dir docs_dir initial_state files)
      as [st'|e] eqn:E; [|discriminate].
    destruct (process_loop_ok W repo_dir docs_dir files file_path Hin _ _ E)
      as [last [st0 [st1 E1]]].
    rewrite F in E1. discriminate.
Qed.

Lemma non_mapping_frontmatter_raises_list :
  process_files list_world ["docs/a.md"] "repo" "docs" = Raise AttributeError.
Proof.
  exact (proj1 (proj2 (non_mapping_frontmatter_raises list_world "repo" "docs"
           "docs/a.md" (text ["- a"; "- b"]) "Body"
           (YSeq [YStr "a"; YStr "b"]) eq_refl eq_refl eq_refl eq_refl)) []).
Defined.

(** C6.  The parser does not raise [yaml.YAMLError] alone.  When it raises
    another exception on the frontmatter of a document, [ValueError] on a
    date that does not exist for one, [safe_load_frontmatter] lets the
    exception through, the round of the loop raises it whatever came
    before, and nothing catches it: [process_files] raises it when the
    document comes first, and returns no result for any list that holds
    the document.  The run does not go on to the files that follow. *)
Theorem parser_error_not_caught (W : World) (repo_dir docs_dir : string)
    (file_path frontmatter body : string) (e : exn) :
  parse_frontmatter (content_of W file_path) = Ok (Some frontmatter, body) ->
  nonempty frontmatter = true ->
  yaml_safe_load W (fst (preprocess_frontmatter frontmatter)) = Raise e ->
  e <> YAMLError ->
  safe_load_frontmatter W (fst (preprocess_frontmatter frontmatter)) = Raise e
  /\ (forall last st,
        process_file W repo_dir docs_dir last st file_path = Raise e)
  /\ (forall files,
        process_files W (file_path :: files) repo_dir docs_dir = Raise e)
  /\ (forall files out,
        In file_path files ->
        process_files W files repo_dir docs_dir <> Ok out).
Proof.
  unfold content_of, nonempty. intros Hp Hn Hy He.
  assert (S : safe_load_frontmatter W
                (fst (preprocess_frontmatter frontmatter)) = Raise e).
  { unfold safe_load_frontmatter. rewrite Hy. destruct e; congruence. }
  assert (F : forall last st,
            process_file W repo_dir docs_dir last st file_path = Raise e).
  { intros last st. unfold process_file. rewrite Hp. cbn [bind].
    rewrite Hn. unfold frontmatter_data.
    destruct (preprocess_frontmatter frontmatter) as [fm tags].
    cbn [fst] in S. now rewrite S. }
  split; [exact S|]. split; [exact F|]. split.
  - intros files. unfold process_files. cbn [process_loop]. now rewrite F.
  - intros files out Hin H. unfold process_files in H.
    destruct (process_loop W repo_dir docs_dir initial_state files)
      as [st'|e'] eqn:E; [|discriminate].
    destruct (process_loop_ok W repo_dir docs_dir files file_path Hin _ _ E)
      as [last [st0 [st1 E1]]].
    rewrite F in E1. discriminate.
Qed.

Lemma parser_error_not_caught_date :
  process_files date_world ["docs/a.md"; "docs/b.md"] "repo" "docs"
  = Raise ValueError.
Proof.
  refine (proj1 (proj2 (proj2
            (parser_error_not_caught date_world "repo" "docs" "docs/a.md"
               "date: 2024-02-30" "Body" ValueError eq_refl eq_refl eq_refl
               _))) ["docs/b.md"]).
  discriminate.
Defined.

Lemma parse_unclosed (md_content : string) :
  starts_frontmatter md_content = true ->
  forallb not_delimiter (tl (Py.split Py.LF md_content)) = true ->
  parse_frontmatter md_content = Raise ValueError.
Proof.
  unfold starts_frontmatter, parse_frontmatter. intros -> H.
  destruct (Py.split Py.LF md_content) as [|l lines]; [reflexivity|].
  cbn [index_from Nat.leb andb tl] in *.
  rewrite index_from_absent; [reflexivity|].
  intros l' Hl. rewrite forallb_forall in H. specialize (H l' Hl).
  unfold not_delimiter in H. apply negb_true_iff in H.
  now apply String.eqb_neq.
Qed.

(** X17.  A document that starts with the frontmatter delimiter and has no
    later line equal to it ends the run: [process_files] raises
    [ValueError] when the document comes first, and returns no result for
    any list that holds it. *)
Theorem unclosed_frontmatter_aborts (W : World) (repo_dir docs_dir : string)
    (file_path : string) :
  starts_frontmatter (content_of W file_path) = true ->
  forallb not_delimiter (tl (Py.split Py.LF (content_of W file_path))) = true ->
  (forall files,
     process_files W (file_path :: files) repo_dir docs_dir
     = Raise ValueError)
  /\ (forall files out,
        In file_path files ->
        process_files W files repo_dir docs_dir <> Ok out).
Proof.
  intros Hs Hn.
  assert (F : forall last st,
            process_file W repo_dir docs_dir last st file_path
            = Raise ValueError).
  { intros last st. unfold process_file. fold (content_of W file_path).
    now rewrite parse_unclosed. }
  split.
  - intros files. unfold process_files. cbn [process_loop]. now rewrite F.
  - intros files out Hin H. unfold process_files in H.
    destruct (process_loop W repo_dir docs_dir initial_state files)
      as [st'|e] eqn:E; [|discriminate].
    destruct (process_loop_ok W repo_dir docs_dir files file_path Hin _ _ E)
      as [last [st0 [st1 E1]]].
    rewrite F in E1. discriminate.
Qed.

Lemma unclosed_frontmatter_aborts_doc :
  process_files unclosed_world ["docs/a.md"; "docs/b.md"] "repo" "docs"
  = Raise ValueError.
Proof.
  exact (proj1 (unclosed_frontmatter_aborts unclosed_world "repo" "docs"
                  "docs/a.md" eq_refl eq_refl) ["docs/b.md"]).
Defined.

Lemma dict_get_restored (html_tags : dict string) (entries : dict yaml)
    (key : string) (v : yaml) :
  dict_get key entries = Some v -> (forall s, v <> YStr s) ->
  dict_get key (map (restore_top html_tags) entries) = Some v.
Proof.
  intros H Hv. induction entries as [|[k x] entries IH]; [discriminate|].
  cbn [map dict_get] in *. unfold restore_top at 1. cbn [fst snd].
  destruct (String.eqb k key) eqn:E.
  - injection H as ->.
    destruct v; cbn [dict_get]; rewrite E; try reflexivity.
    now elim (Hv s).
  - destruct x; cbn [dict_get]; rewrite E; now apply IH.
Qed.

Lemma related_block_fault (W : World) (entries : dict yaml)
    (related : yaml) (e : exn) :
  dict_get "related" entries = Some related ->
  related_fault related = Some e ->
  related_block W (YMap entries) = Raise e.
Proof.
  intros Hr Hf. unfold related_block. cbn [yaml_get]. rewrite Hr.
  cbn [bind].
  destruct related as [|b|z|s|t|items|rel]; cbn [related_fault] in Hf;
    try discriminate.
  - destruct (truthy (YBool b)); [|discriminate]. now injection Hf as <-.
  - destruct (truthy (YInt z)); [|discriminate]. now injection Hf as <-.
  - destruct (truthy (YOther t)); [|discriminate]. now injection Hf as <-.
  - destruct (truthy (YSeq items)); [|discriminate]. now injection Hf as <-.
  - destruct (dict_get "links" rel) as [links|] eqn:El; [|discriminate].
    destruct (not_iterable links) eqn:Ei; [|discriminate].
    injection Hf as <-.
    assert (T : truthy (YMap rel) = true)
      by (destruct rel; [discriminate|reflexivity]).
    rewrite T. cbn [yaml_get]. rewrite El.
    destruct (dict_get "title" rel), (dict_get "description" rel);
      cbn [bind]; now destruct links.
Qed.

(** X18.  In a document whose frontmatter is a mapping, a [related] value
    that is true without being a mapping or a string raises
    [AttributeError], and a [related] mapping whose [links] are null, a
    boolean or a number raises [TypeError]; the round of the loop raises
    the exception. *)
Theorem related_fault_raises (W : World) (repo_dir docs_dir : string)
    (last : bool) (st : state) (file_path frontmatter body : string)
    (entries : dict yaml) (related : yaml) (e : exn) :
  parse_frontmatter (content_of W file_path) = Ok (Some frontmatter, body) ->
  nonempty frontmatter = true ->
  yaml_safe_load W (fst (preprocess_frontmatter frontmatter))
    = Ok (YMap entries) ->
  NoDup (dict_keys entries) ->
  dict_get "related" entries = Some related ->
  related_fault related = Some e ->
  process_file W repo_dir docs_dir last st file_path = Raise e.
Proof.
  unfold content_of, nonempty. intros Hp Hn Hy Hk Hr Hf.
  unfold process_file. rewrite Hp. cbn [bind]. rewrite Hn.
  unfold frontmatter_data, safe_load_frontmatter.
  destruct (preprocess_frontmatter frontmatter) as [fm tags].
  cbn [fst] in Hy. rewrite Hy. cbn [bind restore_html_tags].
  assert (E := restore_loop tags entries [] Hk). cbn [map app] in E.
  rewrite E.
  assert (B : related_block W (YMap (map (restore_top tags) entries))
              = Raise e).
  { apply (related_block_fault W _ related); [|assumption].
    apply dict_get_restored; [assumption|].
    intros s ->. discriminate. }
  unfold heading. destruct (toc_visit _ _) as [n t]. cbn [yaml_get].
  destruct (dict_get "title" _), (dict_get "description" _); cbn [bind];
    now rewrite B.
Qed.

Lemma related_fault_raises_links :
  process_file links_world "repo" "docs" true initial_state "docs/a.md"
  = Raise TypeError.
Proof.
  refine (related_fault_raises links_world "repo" "docs" true initial_state
            "docs/a.md" (text ["title: T"; "related:"; "  links:"]) "Body"
            links_entries (YMap [("links", YNull)]) TypeError
            eq_refl eq_refl eq_refl _ eq_refl eq_refl).
  repeat constructor; simpl; intuition discriminate.
Defined.

(** ** [__main__]: the names that carry the version *)

(** X19.  On a text in which no character outside ASCII directly follows
    the letter v, a dot or a digit: whenever [find_latest_version] returns
    a version, the title ends in it and the name of the file holds it and
    the date, so that the fixed names are used only when no version is
    found. *)
Theorem title_and_filename_versioned (W : World)
    (html_all_content latest_version : string) :
  (forall l, Permutation (set_iter W l) (nodup string_dec l)) ->
  ascii_digits html_all_content = true ->
  find_latest_version W html_all_content = Some latest_version ->
  title_and_filename W html_all_content
  = ("Next.js Documentation v" ++ latest_version,
     "Next.js_Docs_v" ++ latest_version ++ "_" ++ today W ++ ".pdf").
Proof.
  intros Hset _ H. unfold title_and_filename. rewrite H.
  assert (In latest_version (Re.findall1 version_pattern html_all_content)).
  { unfold find_latest_version, sorted_reverse in H.
    destruct (sort_by _ _ _) as [|v rest] eqn:E; [discriminate|].
    injection H as ->.
    assert (Hin : In latest_version (sort_by (fun a b => tuple_ltb b a)
              version_key
              (set_iter W (Re.findall1 version_pattern html_all_content))))
      by (rewrite E; now left).
    apply in_sort_by in Hin. now apply (set_iter_in W _ _ Hset). }
  apply found_version_release in H0. destruct H0 as [a [b [c E]]].
  destruct latest_version; [discriminate|reflexivity].
Qed.

Lemma title_and_filename_versioned_three :
  title_and_filename version_world three_versions
  = ("Next.js Documentation v1.10.0", "Next.js_Docs_v1.10.0_2024-01-01.pdf").
Proof.
  refine (title_and_filename_versioned version_world three_versions "1.10.0"
            _ eq_refl eq_refl).
  intros l. apply Permutation_refl.
Defined.
